(** * Faulkner County real-estate dashboard: ingestion, deduplication,
      filtering, aggregation and batch upload

    A shallow embedding of [src/app.js].  That file holds two scripts: the
    public dashboard (Firestore fetch, [processData], the multi-select
    filters, the KPI and chart helpers) and the admin upload page
    ([parsePrice], [parseDate], [normalizeYesNo], [normalizeCityLimits],
    [uploadDataToFirestore]).

    Modelling conventions.
    - A JavaScript number is [NaN], an infinity or an exact rational.
      Rounding to binary64, overflow to an infinity and the sign of zero
      are not modelled.
    - A JavaScript string is a [string] of bytes; case mapping and white
      space are the ASCII ones.
    - A cell of a spreadsheet row or a field of a Firestore document is a
      [value]: undefined, null, a boolean, a number, a string or a [Date].
      Other objects (arrays, maps) are not modelled; a [Date] in a stored
      document stands for the Firestore timestamp that is read back.
    - A [TypeError] raised by the script is the [Throw] of the [result]
      monad; where a function can throw errors of more than one kind, it
      returns an [option], and [None] stands for any of them.
    - What the script takes from its host (the time zone, the parser and
      the printer of [Date]) is a [Host] instance. *)

From Stdlib Require Import ZArith QArith Qround Qabs Lqa String Ascii List Lia.
From Stdlib Require Import Sorting.Sorted Sorting.Permutation.
From stdpp Require Import base gmap strings list fin_maps.

Close Scope Q_scope.
Open Scope string_scope.
Open Scope list_scope.
Open Scope Z_scope.

(** ** The JavaScript fragment the scripts use *)

Module JS.

(** *** Numbers *)

Inductive number : Type :=
| NaN
| PInf
| NInf
| Fin (q : Q).

Definition fin (q : Q) : number := Fin (Qred q).
Definition num_of_Z (z : Z) : number := Fin (inject_Z z).

Definition isNaN_num (a : number) : bool :=
  match a with NaN => true | _ => false end.

Definition isFinite_num (a : number) : bool :=
  match a with Fin _ => true | _ => false end.

(** Ordering of two numbers; [None] when one of them is [NaN]. *)
Definition num_compare (a b : number) : option comparison :=
  match a, b with
  | NaN, _ | _, NaN => None
  | PInf, PInf | NInf, NInf => Some Eq
  | NInf, _ | _, PInf => Some Lt
  | PInf, _ | _, NInf => Some Gt
  | Fin x, Fin y => Some (Qcompare x y)
  end.

(** [a < b], [a > b], [a <= b] and [a === b] on numbers. *)
Definition num_ltb (a b : number) : bool :=
  match num_compare a b with Some Lt => true | _ => false end.
Definition num_gtb (a b : number) : bool :=
  match num_compare a b with Some Gt => true | _ => false end.
Definition num_leb (a b : number) : bool :=
  match num_compare a b with Some Lt | Some Eq => true | _ => false end.
Definition num_eqb (a b : number) : bool :=
  match num_compare a b with Some Eq => true | _ => false end.

Definition Qsgn (q : Q) : Z := Z.sgn (Qnum q).

Definition num_neg (a : number) : number :=
  match a with
  | NaN => NaN
  | PInf => NInf
  | NInf => PInf
  | Fin x => fin (Qopp x)
  end.

Definition num_add (a b : number) : number :=
  match a, b with
  | NaN, _ | _, NaN => NaN
  | PInf, NInf | NInf, PInf => NaN
  | PInf, _ | _, PInf => PInf
  | NInf, _ | _, NInf => NInf
  | Fin x, Fin y => fin (Qplus x y)
  end.

Definition num_sub (a b : number) : number := num_add a (num_neg b).

(** An infinity with the sign [s]; [NaN] when [s] is zero. *)
Definition inf_of_sign (s : Z) : number :=
  match s with
  | Z0 => NaN
  | Zpos _ => PInf
  | Zneg _ => NInf
  end.

Definition num_sign (a : number) : Z :=
  match a with
  | NaN => 0
  | PInf => 1
  | NInf => -1
  | Fin x => Qsgn x
  end.

Definition num_mul (a b : number) : number :=
  match a, b with
  | NaN, _ | _, NaN => NaN
  | Fin x, Fin y => fin (Qmult x y)
  | _, _ => inf_of_sign (num_sign a * num_sign b)
  end.

(** Division; a zero divisor is the positive zero. *)
Definition num_div (a b : number) : number :=
  match a, b with
  | NaN, _ | _, NaN => NaN
  | Fin x, Fin y =>
      if Qsgn y =? 0 then inf_of_sign (Qsgn x) else fin (Qdiv x y)
  | Fin _, _ => Fin 0
  | _, Fin y => inf_of_sign (num_sign a * (if Qsgn y <? 0 then -1 else 1))
  | _, _ => NaN
  end.

(** [Math.floor]. *)
Definition Math_floor (a : number) : number :=
  match a with
  | Fin x => num_of_Z (Qfloor x)
  | _ => a
  end.

(** Truncation towards zero of a finite number. *)
Definition Qtrunc (x : Q) : Z :=
  if Qsgn x <? 0 then Qceiling x else Qfloor x.

(** *** Strings *)

Definition is_white_space (c : ascii) : bool :=
  let n := nat_of_ascii c in
  ((n =? 32) || (n =? 9) || (n =? 10) || (n =? 11) || (n =? 12) || (n =? 13))%nat.

Fixpoint trimStart (s : string) : string :=
  match s with
  | String c s' => if is_white_space c then trimStart s' else s
  | EmptyString => EmptyString
  end.

Fixpoint string_rev_onto (s acc : string) : string :=
  match s with
  | String c s' => string_rev_onto s' (String c acc)
  | EmptyString => acc
  end.

Definition string_rev (s : string) : string := string_rev_onto s EmptyString.

Definition trimEnd (s : string) : string := string_rev (trimStart (string_rev s)).

(** [String.prototype.trim]. *)
Definition trim (s : string) : string := trimEnd (trimStart s).

Definition lower_char (c : ascii) : ascii :=
  let n := nat_of_ascii c in
  if ((65 <=? n) && (n <=? 90))%nat then ascii_of_nat (n + 32) else c.

Definition upper_char (c : ascii) : ascii :=
  let n := nat_of_ascii c in
  if ((97 <=? n) && (n <=? 122))%nat then ascii_of_nat (n - 32) else c.

Fixpoint string_map (f : ascii -> ascii) (s : string) : string :=
  match s with
  | String c s' => String (f c) (string_map f s')
  | EmptyString => EmptyString
  end.

Definition toLowerCase (s : string) : string := string_map lower_char s.
Definition toUpperCase (s : string) : string := string_map upper_char s.

(** [s.replace(/[cs]/g, '')]: every character of the class removed. *)
Fixpoint remove_chars (p : ascii -> bool) (s : string) : string :=
  match s with
  | String c s' => if p c then remove_chars p s' else String c (remove_chars p s')
  | EmptyString => EmptyString
  end.

(** [s.replace(/c/g, d)] for single characters [c] and [d]. *)
Definition replace_char (c d : ascii) (s : string) : string :=
  string_map (fun x => if Ascii.eqb x c then d else x) s.

(** [s.split(c)[0]]: the part of [s] before the first [c]. *)
Fixpoint before_char (c : ascii) (s : string) : string :=
  match s with
  | String x s' => if Ascii.eqb x c then EmptyString else String x (before_char c s')
  | EmptyString => EmptyString
  end.

Fixpoint string_drop (n : nat) (s : string) : string :=
  match n, s with
  | S n', String _ s' => string_drop n' s'
  | _, _ => s
  end.

Fixpoint string_take (n : nat) (s : string) : string :=
  match n, s with
  | S n', String c s' => String c (string_take n' s')
  | _, _ => EmptyString
  end.

Fixpoint string_repeat (c : ascii) (n : nat) : string :=
  match n with
  | O => EmptyString
  | S n' => String c (string_repeat c n')
  end.

(** *** Numbers and strings *)

Definition digit_char (d : Z) : ascii := ascii_of_nat (48 + Z.to_nat d).

(** The decimal digits of [n] in front of [acc], at most [fuel] of them. *)
Fixpoint digits_from (fuel : nat) (n : Z) (acc : string) : string :=
  match fuel with
  | O => acc
  | S fuel' =>
      let acc' := String (digit_char (n mod 10)) acc in
      if n <? 10 then acc' else digits_from fuel' (n / 10) acc'
  end.

(** [strip_factor p fuel d]: how often [p] divides [d], at most [fuel]
    times, and what is left of [d]. *)
Fixpoint strip_factor (p : Z) (fuel : nat) (d : Z) : nat * Z :=
  match fuel with
  | O => (O, d)
  | S fuel' =>
      if (d mod p =? 0) && negb (d =? 0)
      then let '(k, r) := strip_factor p fuel' (d / p) in (S k, r)
      else (O, d)
  end.

Definition size_fuel (d : Z) : nat := S (Z.to_nat (Z.log2 (Z.abs d))).

(** The decimal digits of a natural number. *)
Definition digits (n : Z) : string := digits_from (size_fuel n) n "".

(** [Number::toString] of a positive rational in lowest terms.  With
    [x = s * 10 ^ (n - k)], [s] of [k] digits and not a multiple of ten, the
    four layouts are those of ECMAScript.  A rational with no finite
    decimal expansion is no binary64 value; it is printed as a fraction. *)
Definition Number_toString_pos (x : Q) : string :=
  let N := Qnum x in
  let D := Zpos (Qden x) in
  let '(a, D2) := strip_factor 2 (size_fuel D) D in
  let '(b, D5) := strip_factor 5 (size_fuel D) D2 in
  if D5 =? 1 then
    let f := Nat.max a b in
    let M := N * 10 ^ Z.of_nat f / D in
    let '(z, s) := strip_factor 10 (size_fuel M) M in
    let ds := digits s in
    let k := Z.of_nat (String.length ds) in
    let n := k + Z.of_nat z - Z.of_nat f in
    if (k <=? n) && (n <=? 21) then
      ds +:+ string_repeat "0" (Z.to_nat (n - k))
    else if (0 <? n) && (n <=? 21) then
      string_take (Z.to_nat n) ds +:+ "." +:+ string_drop (Z.to_nat n) ds
    else if (-6 <? n) && (n <=? 0) then
      "0." +:+ string_repeat "0" (Z.to_nat (- n)) +:+ ds
    else
      let e := n - 1 in
      (if k =? 1 then ds else string_take 1 ds +:+ "." +:+ string_drop 1 ds)
        +:+ "e" +:+ (if 0 <=? e then "+" else "-") +:+ digits (Z.abs e)
  else digits N +:+ "/" +:+ digits D.

(** [Number::toString], radix ten. *)
Definition Number_toString (a : number) : string :=
  match a with
  | NaN => "NaN"
  | PInf => "Infinity"
  | NInf => "-Infinity"
  | Fin q =>
      let x := Qred q in
      if Qnum x =? 0 then "0"
      else if Qnum x <? 0 then "-" +:+ Number_toString_pos (Qopp x)
      else Number_toString_pos x
  end.

Definition digit_value (c : ascii) : option Z :=
  let n := Z.of_nat (nat_of_ascii c) in
  if (48 <=? n) && (n <=? 57) then Some (n - 48)
  else if (97 <=? n) && (n <=? 122) then Some (n - 87)
  else if (65 <=? n) && (n <=? 90) then Some (n - 55)
  else None.

Definition digit_in (radix : Z) (c : ascii) : option Z :=
  match digit_value c with
  | Some d => if d <? radix then Some d else None
  | None => None
  end.

(** The longest run of digits at the head of [s]: its value on top of
    [acc], its length on top of [cnt], and the rest of [s]. *)
Fixpoint scan_digits (radix : Z) (s : string) (acc : Z) (cnt : nat) : Z * nat * string :=
  match s with
  | String c s' =>
      match digit_in radix c with
      | Some d => scan_digits radix s' (acc * radix + d) (S cnt)
      | None => (acc, cnt, s)
      end
  | EmptyString => (acc, cnt, s)
  end.

Definition scan_sign (s : string) : Z * string :=
  match s with
  | String "+" s' => (1, s')
  | String "-" s' => (-1, s')
  | _ => (1, s)
  end.

(** An optional exponent part; without digits there is none. *)
Definition scan_exponent (s : string) : Z * string :=
  match s with
  | String c s' =>
      if Ascii.eqb c "e" || Ascii.eqb c "E" then
        let '(sg, s1) := scan_sign s' in
        let '(v, n, s2) := scan_digits 10 s1 0 0 in
        match n with O => (0, s) | S _ => (sg * v, s2) end
      else (0, s)
  | EmptyString => (0, s)
  end.

Definition pow10 (m e : Z) : number :=
  fin (Qmult (inject_Z m) (Qpower (inject_Z 10) e)).

(** The longest [StrUnsignedDecimalLiteral] at the head of [s]. *)
Definition scan_unsigned_decimal (s : string) : option (number * string) :=
  if String.prefix "Infinity" s then Some (PInf, string_drop 8 s)
  else
    let '(ip, ni, s1) := scan_digits 10 s 0 0 in
    match s1 with
    | String "." s2 =>
        let '(m, nf, s3) := scan_digits 10 s2 ip 0 in
        match ni, nf with
        | O, O => None
        | _, _ =>
            let '(e, s4) := scan_exponent s3 in
            Some (pow10 m (e - Z.of_nat nf), s4)
        end
    | _ =>
        match ni with
        | O => None
        | S _ => let '(e, s4) := scan_exponent s1 in Some (pow10 ip e, s4)
        end
    end.

(** The longest [StrDecimalLiteral] at the head of [s]. *)
Definition scan_decimal (s : string) : option (number * string) :=
  let '(sg, s1) := scan_sign s in
  match scan_unsigned_decimal s1 with
  | Some (v, rest) => Some (if sg <? 0 then num_neg v else v, rest)
  | None => None
  end.

(** The global [parseFloat], on a string. *)
Definition parseFloat (s : string) : number :=
  match scan_decimal (trimStart s) with
  | Some (v, _) => v
  | None => NaN
  end.

(** The global [parseInt] without a radix, on a string. *)
Definition parseInt (s : string) : number :=
  let '(sg, s1) := scan_sign (trimStart s) in
  let '(radix, s2) :=
    if String.prefix "0x" s1 || String.prefix "0X" s1
    then (16, string_drop 2 s1) else (10, s1) in
  let '(v, n, _) := scan_digits radix s2 0 0 in
  match n with
  | O => NaN
  | S _ => num_of_Z (sg * v)
  end.

(** A [NonDecimalIntegerLiteral] body: digits of [radix], all of [s]. *)
Definition all_digits (radix : Z) (s : string) : number :=
  match scan_digits radix s 0 0 with
  | (v, S _, EmptyString) => num_of_Z v
  | _ => NaN
  end.

(** [StringToNumber]: [ToNumber] of a string. *)
Definition StringToNumber (s : string) : number :=
  let t := trim s in
  match t with
  | EmptyString => Fin 0
  | _ =>
      if String.prefix "0x" t || String.prefix "0X" t then all_digits 16 (string_drop 2 t)
      else if String.prefix "0o" t || String.prefix "0O" t then all_digits 8 (string_drop 2 t)
      else if String.prefix "0b" t || String.prefix "0B" t then all_digits 2 (string_drop 2 t)
      else
        match scan_decimal t with
        | Some (v, EmptyString) => v
        | _ => NaN
        end
  end.

(** *** Values *)

Inductive value : Type :=
| VUndefined
| VNull
| VBool (b : bool)
| VNumber (n : number)
| VString (s : string)
| VDate (t : option Z).

(** A [Date] carries its time value, milliseconds since the epoch;
    [None] is the invalid date, whose time value is [NaN]. *)

Inductive jstype : Type := TUndefined | TObject | TBoolean | TNumber | TString.

Definition typeof (v : value) : jstype :=
  match v with
  | VUndefined => TUndefined
  | VNull | VDate _ => TObject
  | VBool _ => TBoolean
  | VNumber _ => TNumber
  | VString _ => TString
  end.

Definition ToBoolean (v : value) : bool :=
  match v with
  | VUndefined | VNull => false
  | VBool b => b
  | VNumber n => negb (isNaN_num n || num_eqb n (Fin 0))
  | VString s => negb (String.eqb s "")
  | VDate _ => true
  end.

(** [a || b]. *)
Definition js_or (a b : value) : value := if ToBoolean a then a else b.

(** [v == null]. *)
Definition eq_null (v : value) : bool :=
  match v with VUndefined | VNull => true | _ => false end.

Definition Date_getTime (t : option Z) : number :=
  match t with
  | Some z => num_of_Z z
  | None => NaN
  end.

Definition ToNumber (v : value) : number :=
  match v with
  | VUndefined => NaN
  | VNull => Fin 0
  | VBool b => if b then Fin 1 else Fin 0
  | VNumber n => n
  | VString s => StringToNumber s
  | VDate t => Date_getTime t
  end.

(** The globals [isNaN] and [isFinite]. *)
Definition isNaN (v : value) : bool := isNaN_num (ToNumber v).
Definition isFinite (v : value) : bool := isFinite_num (ToNumber v).

(** [v > n] and [v < n] against a number. *)
Definition js_gt (v : value) (n : number) : bool := num_gtb (ToNumber v) n.

(** [SameValueZero], the comparison of [Array.prototype.includes], and
    [===].  Two [Date]s are compared by their time values; the identity of
    objects is not modelled. *)
Definition SameValueZero (a b : value) : bool :=
  match a, b with
  | VUndefined, VUndefined | VNull, VNull => true
  | VBool x, VBool y => Bool.eqb x y
  | VNumber x, VNumber y => (isNaN_num x && isNaN_num y) || num_eqb x y
  | VString x, VString y => String.eqb x y
  | VDate x, VDate y => bool_decide (x = y)
  | _, _ => false
  end.

Definition strict_eq (a b : value) : bool :=
  match a, b with
  | VNumber x, VNumber y => num_eqb x y
  | _, _ => SameValueZero a b
  end.

(** [arr.includes(v)]. *)
Definition includes (arr : list value) (v : value) : bool :=
  existsb (fun x => SameValueZero x v) arr.

(** *** Exceptions *)

Inductive error : Type := TypeError.

Inductive result (A : Type) : Type :=
| Ok (a : A)
| Throw (e : error).
Arguments Ok {A} a.
Arguments Throw {A} e.

#[export] Instance result_ret : MRet result := fun A a => Ok a.
#[export] Instance result_bind : MBind result := fun A B f m =>
  match m with
  | Ok a => f a
  | Throw e => Throw e
  end.
#[export] Instance result_fmap : FMap result := fun A B f m =>
  match m with
  | Ok a => Ok (f a)
  | Throw e => Throw e
  end.

(** [arr.map(f)] and [arr.filter(f)] for callbacks that may throw. *)
Fixpoint mapM {A B : Type} (f : A -> result B) (l : list A) : result (list B) :=
  match l with
  | [] => Ok []
  | a :: l' => b ← f a; bs ← mapM f l'; mret (b :: bs)
  end.

Fixpoint filterM {A : Type} (f : A -> result bool) (l : list A) : result (list A) :=
  match l with
  | [] => Ok []
  | a :: l' => b ← f a; r ← filterM f l'; mret (if (b : bool) then a :: r else r)
  end.

(** *** Dates *)

(** What the scripts take from the host: the offset of local time from
    UTC at a time value, [Date.parse], and [Date.prototype.toString]. *)
Class Host : Type := {
  LocalTZA : Z -> Z;
  Date_parse : string -> number;
  Date_toString : Z -> string
}.

Definition msPerDay : Z := 86400000.
Definition maxTime : Z := 8640000000000000.

Definition TimeClip (t : number) : option Z :=
  match t with
  | Fin q =>
      if Qle_bool (Qabs q) (inject_Z maxTime) then Some (Qtrunc q) else None
  | _ => None
  end.

(** Year, month (1 to 12) and day of the month of a day number counted
    from 1970-01-01, in the proleptic Gregorian calendar. *)
Definition civil_from_days (days : Z) : Z * Z * Z :=
  let z := days + 719468 in
  let era := z / 146097 in
  let doe := z - era * 146097 in
  let yoe := (doe - doe / 1460 + doe / 36524 - doe / 146096) / 365 in
  let doy := doe - (365 * yoe + yoe / 4 - yoe / 100) in
  let mp := (5 * doy + 2) / 153 in
  let d := doy - (153 * mp + 2) / 5 + 1 in
  let m := if mp <? 10 then mp + 3 else mp - 9 in
  ((yoe + era * 400 + (if m <=? 2 then 1 else 0)), m, d).

Definition YearFromTime (t : Z) : Z := fst (fst (civil_from_days (t / msPerDay))).

Definition pad (width : nat) (n : Z) : string :=
  let ds := digits n in
  string_repeat "0" (width - String.length ds)%nat +:+ ds.

(** [Date.prototype.toISOString] of a valid date. *)
Definition Date_toISOString (t : Z) : string :=
  let '(y, m, d) := civil_from_days (t / msPerDay) in
  let ms := t mod msPerDay in
  (if (0 <=? y) && (y <=? 9999) then pad 4 y
   else (if y <? 0 then "-" else "+") +:+ pad 6 (Z.abs y))
    +:+ "-" +:+ pad 2 m +:+ "-" +:+ pad 2 d
    +:+ "T" +:+ pad 2 (ms / 3600000) +:+ ":" +:+ pad 2 (ms / 60000 mod 60)
    +:+ ":" +:+ pad 2 (ms / 1000 mod 60) +:+ "." +:+ pad 3 (ms mod 1000) +:+ "Z".

Section WithHost.
Context {host : Host}.

(** [d.getFullYear()], in local time. *)
Definition Date_getFullYear (t : option Z) : number :=
  match t with
  | Some z => num_of_Z (YearFromTime (z + LocalTZA z))
  | None => NaN
  end.

(** [new Date(v)] for a string or a number. *)
Definition Date_new (v : value) : option Z :=
  match v with
  | VString s => TimeClip (Date_parse s)
  | _ => TimeClip (ToNumber v)
  end.

Definition ToString (v : value) : string :=
  match v with
  | VUndefined => "undefined"
  | VNull => "null"
  | VBool b => if b then "true" else "false"
  | VNumber n => Number_toString n
  | VString s => s
  | VDate (Some z) => Date_toString z
  | VDate None => "Invalid Date"
  end.

(** Method calls on a value that need not have the method. *)
Definition call_getFullYear (v : value) : result number :=
  match v with
  | VDate t => Ok (Date_getFullYear t)
  | _ => Throw TypeError
  end.

Definition call_getTime (v : value) : result number :=
  match v with
  | VDate t => Ok (Date_getTime t)
  | _ => Throw TypeError
  end.

Definition call_trim (v : value) : result string :=
  match v with
  | VString s => Ok (trim s)
  | _ => Throw TypeError
  end.

(** *** JSON *)

(** [JSON.parse(JSON.stringify(v))] of a property value; [None] when
    [JSON.stringify] leaves the property out. *)
Definition JSON_roundtrip_value (v : value) : option value :=
  match v with
  | VUndefined => None
  | VNumber n => Some (if isFinite_num n then v else VNull)
  | VDate t =>
      Some (match t with
            | Some z => VString (Date_toISOString z)
            | None => VNull
            end)
  | _ => Some v
  end.

(** [JSON.parse(JSON.stringify(o))] of a flat object. *)
Definition JSON_roundtrip (o : gmap string value) : gmap string value :=
  omap JSON_roundtrip_value o.

End WithHost.

(** [o[k]]: the property [k] of a flat object, [undefined] when absent. *)
Definition get (o : gmap string value) (k : string) : value :=
  default VUndefined (o !! k).

End JS.

(** ** The dashboard script *)

Module Dashboard.
Import JS.

(** [filterState], lines 29-34. *)
Record FilterState : Type := {
  selectedYears : list value;
  selectedCities : list value;
  selectedNewConstruction : list value;
  selectedCityLimits : list value
}.

(** The object that [processData] builds for a row, lines 157-171. *)
Record Sale : Type := {
  address : value;
  date : value;
  price : value;
  pricePerSqFt : value;
  sqFt : value;
  daysOnMarket : value;
  city : value;
  subdivision : value;
  beds : value;
  baths : value;
  year : value;
  newConstruction : value;
  insideCityLimits : value
}.

(** The character class of [/[$,]/g]. *)
Definition is_currency_mark (c : ascii) : bool :=
  Ascii.eqb c "$" || Ascii.eqb c ",".

(** [parsePrice], lines 138-142. *)
Definition parsePrice (val : value) : number :=
  match val with
  | VNumber n => n
  | VString s => parseFloat (remove_chars is_currency_mark s)
  | _ => Fin 0
  end.

(** The price of a row after lines 146-155. *)
Definition coercePrice (dimPrice : value) : value :=
  let dimPrice :=
    match dimPrice with
    | VString s => VNumber (parseFloat (remove_chars is_currency_mark s))
    | _ => dimPrice
    end in
  if eq_null dimPrice || isNaN dimPrice then VNumber (Fin 0) else dimPrice.

(** [Array.prototype.sort] with a comparator: a stable insertion sort.  The
    comparator's result counts as zero unless it is above or below zero,
    and [x] moves behind [y] only when [cmp x y > 0]. *)
Fixpoint sort_insert {A : Type} (cmp : A -> A -> number) (x : A) (l : list A) : list A :=
  match l with
  | [] => [x]
  | y :: l' => if num_gtb (cmp x y) (Fin 0) then y :: sort_insert cmp x l' else x :: l
  end.

Definition Array_sort {A : Type} (cmp : A -> A -> number) (l : list A) : list A :=
  foldr (sort_insert cmp) [] l.

(** [median], lines 352-357 (and 378-383, 477-482), on an array of numbers.
    An index outside the array reads [undefined], which is [NaN] in
    arithmetic. *)
Definition median (arr : list number) : number :=
  match arr with
  | [] => Fin 0
  | _ =>
      let sorted := Array_sort num_sub arr in
      let mid := (length sorted / 2)%nat in
      if negb (length sorted mod 2 =? 0)%nat then nth mid sorted NaN
      else num_div (num_add (nth (mid - 1) sorted NaN) (nth mid sorted NaN)) (Fin 2)
  end.

(** [[...new Set(arr)]]: the distinct values in the order of their first
    occurrence. *)
Definition uniqueValues (arr : list value) : list value :=
  foldl (fun acc v => if includes acc v then acc else acc ++ [v]) [] arr.

(** The default filter state, lines 194-198. *)
Definition initFilterState (rawData : list Sale) : FilterState :=
  {| selectedYears := uniqueValues (map year rawData);
     selectedCities := uniqueValues (map city rawData);
     selectedNewConstruction := [VString "Yes"; VString "No"];
     selectedCityLimits := uniqueValues (map insideCityLimits rawData) |}.

(** The four state keys that the filter handlers are called with. *)
Inductive StateKey : Type :=
| K_selectedYears
| K_selectedCities
| K_selectedNewConstruction
| K_selectedCityLimits.

(** [filterState[stateKey]] and [filterState[stateKey] = arr]. *)
Definition selected (k : StateKey) (fs : FilterState) : list value :=
  match k with
  | K_selectedYears => selectedYears fs
  | K_selectedCities => selectedCities fs
  | K_selectedNewConstruction => selectedNewConstruction fs
  | K_selectedCityLimits => selectedCityLimits fs
  end.

Definition set_selected (k : StateKey) (arr : list value) (fs : FilterState) : FilterState :=
  match k with
  | K_selectedYears =>
      {| selectedYears := arr; selectedCities := selectedCities fs;
         selectedNewConstruction := selectedNewConstruction fs;
         selectedCityLimits := selectedCityLimits fs |}
  | K_selectedCities =>
      {| selectedYears := selectedYears fs; selectedCities := arr;
         selectedNewConstruction := selectedNewConstruction fs;
         selectedCityLimits := selectedCityLimits fs |}
  | K_selectedNewConstruction =>
      {| selectedYears := selectedYears fs; selectedCities := selectedCities fs;
         selectedNewConstruction := arr;
         selectedCityLimits := selectedCityLimits fs |}
  | K_selectedCityLimits =>
      {| selectedYears := selectedYears fs; selectedCities := selectedCities fs;
         selectedNewConstruction := selectedNewConstruction fs;
         selectedCityLimits := arr |}
  end.

(** A checkbox of a multi-select: its [value] attribute and whether it is
    checked. *)
Record Checkbox : Type := { cb_value : string; cb_checked : bool }.

(** [handleFilterChange], lines 289-301: the new filter state. *)
Definition handleFilterChange (checkbox : Checkbox) (stateKey : StateKey)
    (fs : FilterState) : FilterState :=
  let val := VString (cb_value checkbox) in
  let val :=
    if negb (isNaN_num (parseFloat (cb_value checkbox))) && isFinite val
    then VNumber (parseFloat (cb_value checkbox)) else val in
  if cb_checked checkbox then
    if negb (includes (selected stateKey fs) val)
    then set_selected stateKey (selected stateKey fs ++ [val]) fs
    else fs
  else
    set_selected stateKey
      (List.filter (fun item => negb (strict_eq item val)) (selected stateKey fs)) fs.

(** [clearFilter], lines 309-323: the new filter state. *)
Definition clearFilter (stateKey : StateKey) (fs : FilterState) : FilterState :=
  set_selected stateKey [] fs.

(** [updateDashboard], lines 329-337: [filteredData]. *)
Definition updateDashboard (fs : FilterState) (rawData : list Sale) : list Sale :=
  List.filter (fun d =>
    let yearMatch := includes (selectedYears fs) (year d) in
    let cityMatch := includes (selectedCities fs) (city d) in
    let ncMatch := includes (selectedNewConstruction fs) (newConstruction d) in
    let iclMatch := includes (selectedCityLimits fs) (insideCityLimits d) in
    yearMatch && cityMatch && ncMatch && iclMatch) rawData.

Section WithHost.
Context {host : Host}.

(** The callback of [snapshot.forEach], lines 102-120, on the data of a
    document: the row that is pushed, if any.  A [Date] field of a
    document is read as a Firestore [Timestamp], whose [toDate()] is the
    [Date] of the same time value. *)
Definition fetchDoc (d : gmap string value) : option (gmap string value) :=
  let dateObj :=
    match get d "date" with
    | VDate t => t
    | v => Date_new v
    end in
  if negb (isNaN_num (Date_getTime dateObj)) then Some (<["date" := VDate dateObj]> d)
  else None.

(** [data] at line 122, for the documents of the snapshot in its order. *)
Definition fetchData (docs : list (gmap string value)) : list (gmap string value) :=
  omap fetchDoc docs.

(** The callback of [data.map], lines 144-171. *)
Definition toSale (row : gmap string value) : result Sale :=
  let dimPrice := coercePrice (get row "price") in
  y ← call_getFullYear (get row "date");
  mret {| address := js_or (get row "address") (VString "");
          date := get row "date";
          price := dimPrice;
          pricePerSqFt := js_or (get row "pricePerSqFt") (VNumber (Fin 0));
          sqFt := js_or (get row "sqFt") (VNumber (Fin 0));
          daysOnMarket := js_or (get row "daysOnMarket") (VNumber (Fin 0));
          city := js_or (get row "city") (VString "Unknown");
          subdivision := js_or (get row "subdivision") (VString "");
          beds := js_or (get row "beds") (VNumber (Fin 0));
          baths := js_or (get row "baths") (VNumber (Fin 0));
          year := VNumber y;
          newConstruction := js_or (get row "newConstruction") (VString "No");
          insideCityLimits := js_or (get row "insideCityLimits") (VString "Unknown") |}.

(** The callback of [.filter], line 172. *)
Definition keepSale (d : Sale) : result bool :=
  if negb (isNaN (price d)) && js_gt (price d) (Fin 0) then
    y ← call_getFullYear (date d); mret (num_gtb y (num_of_Z 2000))
  else mret false.

(** [rawData] after line 172. *)
Definition normalize (data : list (gmap string value)) : result (list Sale) :=
  mapM toSale data ≫= filterM keepSale.

(** The key of line 181. *)
Definition fingerprint (d : Sale) : result string :=
  t ← call_getTime (date d);
  a ← call_trim (address d);
  mret (Number_toString t +:+ "-" +:+ toLowerCase a +:+ "-" +:+ ToString (price d)).

(** The duplicate filter, lines 178-186, started with the set [seen]. *)
Fixpoint dedupFrom (seen : gset string) (l : list Sale) : result (list Sale) :=
  match l with
  | [] => Ok []
  | d :: l' =>
      key ← fingerprint d;
      if bool_decide (key ∈ seen) then dedupFrom seen l'
      else (r ← dedupFrom ({[key]} ∪ seen) l'; mret (d :: r))
  end.

Definition dedup (l : list Sale) : result (list Sale) := dedupFrom ∅ l.

(** [processData], lines 132-198: the new [rawData] and [filterState]. *)
Definition processData (data : list (gmap string value)) : result (list Sale * FilterState) :=
  rawData ← normalize data;
  rawData ← dedup rawData;
  mret (rawData, initFilterState rawData).

(** The default comparator of [Array.prototype.sort] on strings: the
    order of their code units. *)
Definition compareStrings (a b : string) : number :=
  match String.compare a b with
  | Lt => num_of_Z (-1)
  | Eq => num_of_Z 0
  | Gt => num_of_Z 1
  end.

(** [a + b]: a [Date] is turned into its text, a string on either side
    makes the sum a concatenation. *)
Definition js_add (a b : value) : value :=
  let prim := fun v => match v with VDate _ => VString (ToString v) | _ => v end in
  match prim a, prim b with
  | VString x, y => VString (x +:+ ToString y)
  | x, VString y => VString (ToString x +:+ y)
  | x, y => VNumber (num_add (ToNumber x) (ToNumber y))
  end.

Definition is_undefined (v : value) : bool :=
  match v with VUndefined => true | _ => false end.

(** [arr.sort(cmp)] on values: [sort] moves the [undefined] elements to
    the end without comparing them. *)
Definition sortValues (cmp : value -> value -> number) (arr : list value) : list value :=
  Array_sort cmp (List.filter (fun v => negb (is_undefined v)) arr)
    ++ List.filter is_undefined arr.

(** [[...arr].sort((a, b) => a - b)]. *)
Definition sortByNumber (arr : list value) : list value :=
  sortValues (fun a b => num_sub (ToNumber a) (ToNumber b)) arr.

(** [median], lines 378-383 (and 352-357, 477-482), on an array of any
    values. *)
Definition medianValues (arr : list value) : value :=
  match arr with
  | [] => VNumber (Fin 0)
  | _ =>
      let sorted := sortByNumber arr in
      let mid := (length sorted / 2)%nat in
      if negb (length sorted mod 2 =? 0)%nat then nth mid sorted VUndefined
      else VNumber (num_div (ToNumber (js_add (nth (mid - 1) sorted VUndefined)
                                              (nth mid sorted VUndefined))) (Fin 2))
  end.

(** [d.date.toISOString().slice(0, 7)], line 388; [None] where it throws,
    on an invalid [Date] or on a value that is no [Date]. *)
Definition monthKey (v : value) : option string :=
  match v with
  | VDate (Some t) => Some (string_take 7 (Date_toISOString t))
  | _ => None
  end.

(** [if (!grouped[key]) grouped[key] = []; grouped[key].push(v)] on an
    object whose keys are kept in the order of their creation. *)
Fixpoint group_push (key : string) (v : value) (grouped : list (string * list value))
    : list (string * list value) :=
  match grouped with
  | [] => [(key, [v])]
  | (k, vs) :: grouped' =>
      if String.eqb k key then (k, vs ++ [v]) :: grouped'
      else (k, vs) :: group_push key v grouped'
  end.

Definition group_get (grouped : list (string * list value)) (key : string) : list value :=
  match find (fun kv => String.eqb (fst kv) key) grouped with
  | Some kv => snd kv
  | None => []
  end.

(** The loops of lines 387-391 and 471-474: the prices of the sales
    grouped by a key; [None] where the loop throws. *)
Fixpoint groupPrices (key : Sale -> option string) (grouped : list (string * list value))
    (data : list Sale) : option (list (string * list value)) :=
  match data with
  | [] => Some grouped
  | d :: data' =>
      match key d with
      | Some k => groupPrices key (group_push k (price d) grouped) data'
      | None => None
      end
  end.

(** [renderTrendChart], lines 374-395: the labels and the values of the
    chart; [None] where it throws.  A key of line 388 is no name that
    [grouped] inherits and no array index, so that [Object.keys] lists
    the keys in the order of their creation. *)
Definition renderTrendChart (data : list Sale) : option (list (string * value)) :=
  match groupPrices (fun d => monthKey (date d)) [] data with
  | Some grouped =>
      let sortedKeys := Array_sort compareStrings (map fst grouped) in
      Some (map (fun k => (k, medianValues (group_get grouped k))) sortedKeys)
  | None => None
  end.

(** The comparison of [sort] without a comparator: the order of the texts
    of the two values. *)
Definition compareDefault (a b : value) : number :=
  compareStrings (ToString a) (ToString b).

(** The options of a multi-select in the order of lines 256-257. *)
Definition sortOptions (options : list value) : list value :=
  let options := sortValues compareDefault options in
  match options with
  | VNumber _ :: _ => sortValues (fun a b => num_sub (ToNumber b) (ToNumber a)) options
  | _ => options
  end.

(** [populateFilters], lines 243-248: the options of the four
    multi-selects, in the order in which [renderMultiSelect] shows them. *)
Definition populateFilters (rawData : list Sale)
    : list value * list value * list value * list value :=
  (sortOptions (uniqueValues (map year rawData)),
   sortOptions (uniqueValues (map city rawData)),
   sortOptions (uniqueValues (map newConstruction rawData)),
   sortOptions (uniqueValues (map insideCityLimits rawData))).

(** The property names that an object literal inherits from
    [Object.prototype]. *)
Definition inheritedNames : list string :=
  ["constructor"; "__defineGetter__"; "__defineSetter__"; "hasOwnProperty";
   "__lookupGetter__"; "__lookupSetter__"; "isPrototypeOf"; "propertyIsEnumerable";
   "toString"; "valueOf"; "__proto__"; "toLocaleString"].

(** An array index: the canonical text of an integer from 0 to
    [2 ^ 32 - 2]. *)
Definition arrayIndex (s : string) : option Z :=
  match scan_digits 10 s 0 0 with
  | (v, _, EmptyString) =>
      if String.eqb (digits v) s && (v <? 2 ^ 32 - 1) then Some v else None
  | _ => None
  end.

(** [Object.keys] of an object with the given keys in the order of their
    creation: the array indices in ascending order, then the other
    keys. *)
Definition ownKeys (keys : list string) : list string :=
  Array_sort (fun a b => num_sub (num_of_Z (default 0 (arrayIndex a)))
                                 (num_of_Z (default 0 (arrayIndex b))))
             (List.filter (fun k => bool_decide (is_Some (arrayIndex k))) keys)
    ++ List.filter (fun k => negb (bool_decide (is_Some (arrayIndex k)))) keys.

(** The key of lines 472-473 for a sale; [None] where [push] is called on
    a property that [byCity] inherits, which throws. *)
Definition cityKey (d : Sale) : option string :=
  let key := ToString (city d) in
  if existsb (String.eqb key) inheritedNames then None else Some key.

(** [renderCityChart], lines 467-485: the labels and the values of the
    chart; [None] where it throws. *)
Definition renderCityChart (data : list Sale) : option (list (string * value)) :=
  match groupPrices cityKey [] data with
  | Some byCity =>
      let labels := ownKeys (map fst byCity) in
      Some (map (fun c => (c, medianValues (group_get byCity c))) labels)
  | None => None
  end.

(** The four figures of [updateKPIs], lines 359-362. *)
Record KPIs : Type := {
  homesSold : nat;
  totalVolume : value;
  medianPrice : value;
  medianPpsf : value
}.

(** [updateKPIs], lines 349-368: the four figures; [toFixed] at line 367
    throws when the median of [pricePerSqFt] is no number. *)
Definition updateKPIs (data : list Sale) : result KPIs :=
  let totalVolume := foldl (fun sum d => js_add sum (price d)) (VNumber (Fin 0)) data in
  let medianPrice := medianValues (map price data) in
  let medianPpsf := medianValues (map pricePerSqFt data) in
  let homesSold := length data in
  match medianPpsf with
  | VNumber _ =>
      Ok {| homesSold := homesSold; totalVolume := totalVolume;
            medianPrice := medianPrice; medianPpsf := medianPpsf |}
  | _ => Throw TypeError
  end.

(** The lower bound of the bin of a sale and the label of a bin, lines
    431-432. *)
Definition binOf (d : Sale) : number :=
  num_mul (Math_floor (num_div (ToNumber (price d)) (num_of_Z 50000))) (num_of_Z 50000).

Definition binLabel (bin : number) : string :=
  Number_toString (num_div bin (num_of_Z 1000)) +:+ "k-"
    +:+ Number_toString (num_div (num_add bin (num_of_Z 50000)) (num_of_Z 1000)) +:+ "k".

(** [bins[key] = (bins[key] || 0) + 1] on an object whose keys are kept
    in the order of their creation. *)
Fixpoint bins_incr (key : string) (bins : list (string * nat)) : list (string * nat) :=
  match bins with
  | [] => [(key, 1%nat)]
  | (k, n) :: bins' =>
      if String.eqb k key then (k, S n) :: bins' else (k, n) :: bins_incr key bins'
  end.

Definition bins_get (bins : list (string * nat)) (key : string) : nat :=
  match find (fun kv => String.eqb (fst kv) key) bins with
  | Some kv => snd kv
  | None => 0%nat
  end.

(** The comparator of lines 436-440. *)
Definition compareLabels (a b : string) : number :=
  let valA := parseInt (before_char "k" a) in
  let valB := parseInt (before_char "k" b) in
  num_sub valA valB.

(** [renderDistChart], lines 425-450: the labels and the data of the
    chart. *)
Definition renderDistChart (data : list Sale) : list (string * nat) :=
  let bins := foldl (fun bins d => bins_incr (binLabel (binOf d)) bins) [] data in
  let sortedKeys := Array_sort compareLabels (map fst bins) in
  map (fun k => (k, bins_get bins k)) sortedKeys.

End WithHost.

End Dashboard.

(** ** The upload script *)

Module Admin.
Import JS.

(** The character class of [/[$,]/g]. *)
Definition is_currency_mark (c : ascii) : bool :=
  Ascii.eqb c "$" || Ascii.eqb c ",".

(** [parsePrice], lines 637-641. *)
Definition parsePrice (val : value) : number :=
  match val with
  | VNumber n => n
  | VString s => parseFloat (remove_chars is_currency_mark s)
  | _ => Fin 0
  end.

(** The price of a row after lines 674-676. *)
Definition coercePrice (dimPrice : value) : value :=
  let dimPrice :=
    match dimPrice with
    | VString s => VNumber (parseFloat (remove_chars is_currency_mark s))
    | _ => dimPrice
    end in
  if eq_null dimPrice || isNaN dimPrice then VNumber (Fin 0) else dimPrice.

(** The sales collection: document identifier to document. *)
Abbreviation Doc := (gmap string value).
Abbreviation Store := (gmap string (gmap string value)).

(** A write batch: the [set] calls in the order they were made. *)
Definition commit (batch : list (string * Doc)) (db : Store) : Store :=
  foldl (fun db w => <[fst w := snd w]> db) db batch.

Record UploadState : Type := { store : Store; addedCount : nat }.

Definition batchSize : nat := 400.

(** A loop body that may throw, run over a list. *)
Fixpoint foldM {A S : Type} (f : S -> A -> result S) (s : S) (l : list A) : result S :=
  match l with
  | [] => Ok s
  | a :: l' => s' ← f s a; foldM f s' l'
  end.

Section WithHost.
Context {host : Host}.

(** [parseDate], lines 643-648. *)
Definition parseDate (val : value) : option Z :=
  match val with
  | VDate t => Date_new (VNumber (Date_getTime t))
  | VString _ | VNumber _ => Date_new val
  | _ => None
  end.

(** [normalizeYesNo], lines 650-654. *)
Definition normalizeYesNo (val : value) : string :=
  if negb (ToBoolean val) then "No"
  else
    let s := toUpperCase (trim (ToString val)) in
    if String.eqb s "Y" || String.eqb s "YES" then "Yes" else "No".

(** [normalizeCityLimits], lines 656-662. *)
Definition normalizeCityLimits (val : value) : string :=
  if negb (ToBoolean val) then "Unknown"
  else
    let s := toUpperCase (trim (ToString val)) in
    if String.eqb s "Y" || String.eqb s "YES" then "Yes"
    else if String.eqb s "N" || String.eqb s "NO" then "No"
    else "Unknown".

(** The [uniqueKey] of line 698. *)
Definition uniqueKeyOf (dateObj : option Z) (row : Doc) (dimPrice : value) : result string :=
  a ← call_trim (js_or (get row "Address") (VString ""));
  mret (Number_toString (Date_getTime dateObj) +:+ "-" +:+ toLowerCase a
          +:+ "-" +:+ ToString dimPrice).

(** The callback of [rawData.map], lines 673-707: [None] is its [null]. *)
Definition toRecord (row : Doc) : result (option Doc) :=
  let dimPrice := coercePrice (get row "Price") in
  let dateObj := parseDate (get row "Closed Date") in
  if isNaN_num (Date_getTime dateObj) then mret None
  else
    uniqueKey ← uniqueKeyOf dateObj row dimPrice;
    let record : Doc := list_to_map [
      ("address",
        VString (trim (ToString
          (js_or (js_or (js_or (get row "Address") (get row "Street Name"))
                        (get row "Street Address")) (VString "")))));
      ("date", VDate dateObj);
      ("price", VNumber (ToNumber dimPrice));
      ("pricePerSqFt",
        VNumber (ToNumber (js_or (VNumber (parsePrice (get row "Price Per SQFT")))
                                 (VNumber (Fin 0)))));
      ("sqFt", VNumber (ToNumber (js_or (get row "Apx SQFT") (VNumber (Fin 0)))));
      ("daysOnMarket",
        VNumber (ToNumber (js_or (get row "Days On Market") (VNumber (Fin 0)))));
      ("city", VString (trim (ToString (js_or (get row "City") (VString "Unknown")))));
      ("subdivision",
        VString (trim (ToString (js_or (get row "Subdivision") (VString "")))));
      ("beds", VNumber (ToNumber (js_or (get row "Beds") (VNumber (Fin 0)))));
      ("baths", VNumber (ToNumber (js_or (get row "Full Baths") (VNumber (Fin 0)))));
      ("year", VNumber (ToNumber (VNumber (Date_getFullYear dateObj))));
      ("newConstruction", VString (normalizeYesNo (get row "New Construction?")));
      ("insideCityLimits",
        VString (normalizeCityLimits
          (js_or (get row "Inside City Limits") (get row "Inside City Limit"))));
      ("uniqueKey", VString uniqueKey) ] in
    let plain := JSON_roundtrip record in
    let plain := <["date" := VDate (Date_new (VNumber (Date_getTime dateObj)))]> plain in
    mret (Some plain).

(** The callback of [.filter], line 709. *)
Definition keepRecord (d : option Doc) : bool :=
  match d with
  | None => false
  | Some d => js_gt (get d "price") (Fin 0) && js_gt (get d "year") (num_of_Z 2000)
  end.

(** [cleanRecords], lines 673-709. *)
Definition cleanRecords (rawData : list Doc) : result (list Doc) :=
  (fun records : list (option Doc) =>
     omap (fun d => if keepRecord d then d else None) records)
    <$> mapM toRecord rawData.

(** [record.uniqueKey.replace(/\//g, '_')], line 726. *)
Definition safeKeyOf (record : Doc) : result string :=
  match get record "uniqueKey" with
  | VString k => Ok (replace_char "/" "_" k)
  | _ => Throw TypeError
  end.

(** The [forEach] of lines 724-729: the batch with one [set] more. *)
Definition batchSet (batch : list (string * Doc)) (record : Doc) : result (list (string * Doc)) :=
  safeKey ← safeKeyOf record;
  mret (batch ++ [(safeKey, record)]).

(** One turn of the loop of lines 720-738, at index [i]. *)
Definition uploadChunk (cleanRecords : list Doc) (st : UploadState) (i : nat) : result UploadState :=
  let chunk := take batchSize (drop i cleanRecords) in
  batch ← foldM batchSet [] chunk;
  mret {| store := commit batch (store st);
          addedCount := (addedCount st + length chunk)%nat |}.

(** The values of [i] in [for (let i = 0; i < total; i += batchSize)]. *)
Definition chunkStarts (total : nat) : list nat :=
  map (fun j => (j * batchSize)%nat) (seq 0 ((total + (batchSize - 1)) / batchSize)%nat).

(** [uploadDataToFirestore], lines 664-745, on the collection [db]; every
    commit succeeds. *)
Definition uploadDataToFirestore (rawData : list Doc) (db : Store) : result UploadState :=
  cleanRecords ← cleanRecords rawData;
  let total := length cleanRecords in
  foldM (uploadChunk cleanRecords) {| store := db; addedCount := 0 |} (chunkStarts total).

End WithHost.

End Admin.

(** ** A host in UTC *)

(** [Date.parse] of [YYYY-MM-DD], the date-only form of ECMAScript, which
    is read as UTC midnight; no other form is recognised. *)
Definition days_from_civil (y m d : Z) : Z :=
  let y := if m <=? 2 then y - 1 else y in
  let era := y / 400 in
  let yoe := y - era * 400 in
  let mp := if m <=? 2 then m + 9 else m - 3 in
  let doy := (153 * mp + 2) / 5 + d - 1 in
  let doe := yoe * 365 + yoe / 4 - yoe / 100 + doy in
  era * 146097 + doe - 719468.

Definition parse_date_only (s : string) : JS.number :=
  let '(y, ny, s1) := JS.scan_digits 10 s 0 0 in
  match s1 with
  | String "-" s2 =>
      let '(m, nm, s3) := JS.scan_digits 10 s2 0 0 in
      match s3 with
      | String "-" s4 =>
          let '(d, nd, s5) := JS.scan_digits 10 s4 0 0 in
          if (ny =? 4)%nat && (nm =? 2)%nat && (nd =? 2)%nat && String.eqb s5 ""
             && (1 <=? m) && (m <=? 12) && (1 <=? d) && (d <=? 31)
          then JS.num_of_Z (days_from_civil y m d * JS.msPerDay)
          else JS.NaN
      | _ => JS.NaN
      end
  | _ => JS.NaN
  end.

Definition utcHost : JS.Host :=
  {| JS.LocalTZA := fun _ => 0;
     JS.Date_parse := parse_date_only;
     JS.Date_toString := JS.Date_toISOString |}.

(** * Properties of the scripts *)

Import JS Dashboard Admin.

(** ** Vocabulary of the statements *)

(** [a <= b] on numbers; it fails when one of them is [NaN]. *)
Definition num_le (a b : number) : Prop := num_leb a b = true.

(** A selection allows a value when it holds a value that is the same
    under [SameValueZero]. *)
Definition allowed (arr : list value) (v : value) : Prop :=
  Exists (fun x => SameValueZero x v = true) arr.

(** A sale is visible when each of its four dimensions is allowed. *)
Definition visible (fs : FilterState) (d : Sale) : Prop :=
  allowed (selectedYears fs) (year d) /\
  allowed (selectedCities fs) (city d) /\
  allowed (selectedNewConstruction fs) (newConstruction d) /\
  allowed (selectedCityLimits fs) (insideCityLimits d).

#[export] Instance allowed_dec arr v : Decision (allowed arr v).
Proof. unfold allowed. apply _. Defined.

#[export] Instance visible_dec fs d : Decision (visible fs d).
Proof. unfold visible. apply _. Defined.

(** What the duplicate filter needs of a canonical record: a text address
    and a [Date]. *)
Definition canonical (d : Sale) : Prop :=
  exists a t, address d = VString a /\ date d = VDate t.

(** The fields of a stored record. *)
Definition recordFields : gset string :=
  list_to_set ["address"; "date"; "price"; "pricePerSqFt"; "sqFt"; "daysOnMarket";
               "city"; "subdivision"; "beds"; "baths"; "year"; "newConstruction";
               "insideCityLimits"; "uniqueKey"].

(** A number after [JSON.stringify] and [JSON.parse]. *)
Definition jsonNumber (n : number) : value :=
  if isFinite_num n then VNumber n else VNull.

(** The document identifier that line 726 derives from a record. *)
Definition docId (record : Doc) : string :=
  match get record "uniqueKey" with
  | VString k => replace_char "/" "_" k
  | _ => ""
  end.

Definition hasKey (record : Doc) : Prop :=
  exists k, record !! "uniqueKey" = Some (VString k).

Section Vocabulary.
Context {host : Host}.

(** The fingerprint of a record, the empty string where line 181 throws. *)
Definition keyOf (d : Sale) : string :=
  match fingerprint d with
  | Ok k => k
  | Throw _ => ""
  end.

(** The records that a scan in input order keeps: those whose key is
    neither in [seen] nor the key of an earlier record. *)
Fixpoint keepFirst (seen : gset string) (l : list Sale) : list Sale :=
  match l with
  | [] => []
  | d :: l' =>
      if bool_decide (keyOf d ∈ seen) then keepFirst seen l'
      else d :: keepFirst ({[keyOf d]} ∪ seen) l'
  end.

(** The address that line 685 stores. *)
Definition storedAddress (row : Doc) : string :=
  trim (ToString
    (js_or (js_or (js_or (get row "Address") (get row "Street Name"))
                  (get row "Street Address")) (VString ""))).

(** The upload retains a row as [plain] when the callback of [map]
    returns [plain] and the callback of [filter] keeps it. *)
Definition retainedAs (row plain : Doc) : Prop :=
  toRecord row = Ok (Some plain) /\ keepRecord (Some plain) = true.

End Vocabulary.

(** *** Sample data *)

(** A sale of 2022-05-01 with the given price, city and year. *)
Definition saleOf (p : number) (c : string) (y : Z) : Sale :=
  {| address := VString "12 Oak St";
     date := VDate (Some 1651363200000);
     price := VNumber p;
     pricePerSqFt := VNumber (Fin 0);
     sqFt := VNumber (Fin 0);
     daysOnMarket := VNumber (Fin 0);
     city := VString c;
     subdivision := VString "";
     beds := VNumber (Fin 0);
     baths := VNumber (Fin 0);
     year := VNumber (num_of_Z y);
     newConstruction := VString "No";
     insideCityLimits := VString "Unknown" |}.

Definition rowOf (cells : list (string * value)) : Doc := list_to_map cells.

(** A spreadsheet row with an address, and one with a street name only. *)
Definition mainStreetRow (sqft : Z) : Doc :=
  rowOf [("Address", VString "1 Main St"); ("Closed Date", VString "2022-05-01");
         ("Price", VString "$200,000"); ("Apx SQFT", VNumber (num_of_Z sqft))].

Definition streetNameRow (street : string) : Doc :=
  rowOf [("Street Name", VString street); ("Closed Date", VDate (Some 1651363200000));
         ("Price", VNumber (Fin 250000))].

(** A spreadsheet row whose address cell holds a number. *)
Definition numericAddressRow : Doc :=
  rowOf [("Address", VNumber (Fin 1204)); ("Closed Date", VDate (Some 1651363200000));
         ("Price", VNumber (Fin 250000))].

(** What the upload, on a host in UTC, makes of a row and of a file; the
    empty record and the empty list stand for no result. *)
Definition recordOf (row : Doc) : Doc :=
  match toRecord (host:=utcHost) row with
  | Ok (Some plain) => plain
  | _ => ∅
  end.

Definition recordsOf (rawData : list Doc) : list Doc :=
  match cleanRecords (host:=utcHost) rawData with
  | Ok recs => recs
  | Throw _ => []
  end.

Definition returns {A : Type} (r : result A) : bool :=
  match r with
  | Ok _ => true
  | Throw _ => false
  end.

Definition sampleUpload : list Doc :=
  [mainStreetRow 1500; streetNameRow "12 Oak St"; mainStreetRow 1650].

(** A Firestore row of the dashboard, dated by a time value. *)
Definition fetchedRow (t : Z) : Doc :=
  rowOf [("address", VString "1 Main St"); ("date", VDate (Some t));
         ("price", VNumber (Fin 200000))].

(** *** Vocabulary of the further properties *)

(** A string all of whose characters satisfy [p]. *)
Fixpoint string_forall (p : ascii -> bool) (s : string) : bool :=
  match s with
  | String c s' => p c && string_forall p s'
  | EmptyString => true
  end.

(** A decimal digit. *)
Definition is_decimal_digit (c : ascii) : bool :=
  let n := nat_of_ascii c in ((48 <=? n) && (n <=? 57))%nat.


#[export] Instance Q_eq_dec : EqDecision Q.
Proof. solve_decision. Defined.

#[export] Instance number_eq_dec : EqDecision number.
Proof. solve_decision. Defined.




(** Two values are the same under [SameValueZero]. *)
Definition sameValue (a b : value) : Prop := SameValueZero a b = true.

#[export] Instance sameValue_dec a b : Decision (sameValue a b).
Proof. unfold sameValue. apply _. Defined.

(** The value that lines 290-292 make of the [value] attribute of a
    checkbox. *)
Definition checkboxValue (s : string) : value :=
  if negb (isNaN_num (parseFloat s)) && isFinite (VString s)
  then VNumber (parseFloat s) else VString s.

#[export] Instance value_eq_dec : EqDecision value.
Proof. solve_decision. Defined.

(** A string that is empty or starts with a character that is no white
    space. *)
Definition starts_plain (s : string) : Prop :=
  match s with
  | String c _ => is_white_space c = false
  | EmptyString => True
  end.

(** The field of a sale that a selection is compared with, lines
    332-335. *)
Definition dimension (k : StateKey) (d : Sale) : value :=
  match k with
  | K_selectedYears => year d
  | K_selectedCities => city d
  | K_selectedNewConstruction => newConstruction d
  | K_selectedCityLimits => insideCityLimits d
  end.

#[export] Instance StateKey_eq_dec : EqDecision StateKey.
Proof. solve_decision. Defined.

(** The writes of an upload: each cleaned record under its identifier. *)
Definition writesOf (recs : list Doc) : list (string * Doc) :=
  map (fun record => (docId record, record)) recs.

(** The chunk of line 722 at index [i]. *)
Definition chunkAt (recs : list Doc) (i : nat) : list Doc :=
  take batchSize (drop i recs).

Section RowVocabulary.
Context {host : Host}.

(** A row passes the date check of line 681 and the filter of line 709:
    its date is valid, its coerced price is a finite number above zero,
    and its year is above 2000. *)
Definition rowKept (row : Doc) : bool :=
  match parseDate (get row "Closed Date") with
  | Some t =>
      let p := ToNumber (coercePrice (get row "Price")) in
      isFinite_num p && num_gtb p (Fin 0)
        && num_gtb (Date_getFullYear (Some t)) (num_of_Z 2000)
  | None => false
  end.

(** A row with a valid date whose ['Address'] cell is truthy and no
    string. *)
Definition rowThrows (row : Doc) : bool :=
  match parseDate (get row "Closed Date"), js_or (get row "Address") (VString "") with
  | Some _, VString _ => false
  | Some _, _ => true
  | None, _ => false
  end.

End RowVocabulary.

(** The number fields of a stored record other than price and year. *)
Definition measureFields : list string :=
  ["pricePerSqFt"; "sqFt"; "daysOnMarket"; "beds"; "baths"].

(** A sale as line 172 lets it through: a valid date, the local year of
    that date, above 2000, and a price that is above zero as a number. *)
Definition validSale `{host : Host} (d : Sale) : Prop :=
  exists t, date d = VDate (Some t)
    /\ year d = VNumber (num_of_Z (YearFromTime (t + LocalTZA t)))
    /\ 2000 < YearFromTime (t + LocalTZA t)
    /\ isNaN (price d) = false
    /\ js_gt (price d) (Fin 0) = true.

(** A sale whose address is a string. *)
Definition textAddress (d : Sale) : Prop := exists a, address d = VString a.

(** A string that starts with a decimal digit or with ["-"]. *)
Definition starts_numeric (s : string) : Prop :=
  match s with
  | String c _ => is_decimal_digit c = true \/ c = "-"%char
  | EmptyString => False
  end.

Section DatedVocabulary.
Context {host : Host}.

(** A row whose ['Closed Date'] cell gives a valid date at line 678. *)
Definition rowDated (row : Doc) : bool :=
  match parseDate (get row "Closed Date") with
  | Some _ => true
  | None => false
  end.

End DatedVocabulary.

(** The order of the code units of two strings. *)
Definition string_lt (a b : string) : Prop := String.compare a b = Lt.

(** The sales of a month, by the key of line 388. *)
Definition inMonth (k : string) (d : Sale) : Prop := monthKey (date d) = Some k.

#[export] Instance inMonth_dec k d : Decision (inMonth k d).
Proof. unfold inMonth. apply _. Defined.

(** The distinct elements of a list in the order of their first
    occurrence. *)
Fixpoint firstOccurrences {A : Type} `{EqDecision A} (l : list A) : list A :=
  match l with
  | [] => []
  | x :: l' => x :: filter (fun y => y <> x) (firstOccurrences l')
  end.

(** A year as the dashboard holds it. *)
Definition yearValue (y : Z) : value := VNumber (num_of_Z y).

(** A city name that is no array index and no name that an object
    inherits. *)
Definition plainName (c : string) : Prop :=
  arrayIndex c = None /\ c ∉ inheritedNames.

(** A sale that the dashboard makes of a record of the upload. *)
Definition fromUpload `{host : Host} (d : Sale) : Prop :=
  exists row plain, retainedAs row plain /\ toSale plain = Ok d.

(** A sale whose price and price per square foot are numbers. *)
Definition measured (d : Sale) : Prop :=
  exists p q, price d = VNumber p /\ pricePerSqFt d = VNumber q.

(** ** Numbers and sorting *)

Lemma Qcompare_red_l x y : Qcompare (Qred x) y = Qcompare x y.
Proof. apply Qcompare_comp; [apply Qred_correct | reflexivity]. Qed.

Lemma num_gtb_sub x y : x <> NaN -> y <> NaN ->
  num_gtb (num_sub x y) (Fin 0) = num_gtb x y.
Proof.
  destruct x as [| | |x], y as [| | |y]; intros Hx Hy; try congruence; try reflexivity.
  unfold num_sub, num_neg, num_add, fin, num_gtb, num_compare.
  rewrite Qcompare_red_l.
  destruct (Qcompare x y) eqn:E.
  - apply Qeq_alt in E.
    assert (Hc : Qcompare (x + Qred (- y)) 0 = Eq)
      by (rewrite <- Qeq_alt, Qred_correct, E; ring).
    now rewrite Hc.
  - apply Qlt_alt in E.
    assert (Hc : Qcompare (x + Qred (- y)) 0 = Lt)
      by (rewrite <- Qlt_alt, Qred_correct; lra).
    now rewrite Hc.
  - apply Qgt_alt in E.
    assert (Hc : Qcompare (x + Qred (- y)) 0 = Gt)
      by (rewrite <- Qgt_alt, Qred_correct; lra).
    now rewrite Hc.
Qed.

Lemma num_le_trans a b c : num_le a b -> num_le b c -> num_le a c.
Proof.
  unfold num_le, num_leb.
  destruct a as [| | |x], b as [| | |y], c as [| | |z]; simpl; try congruence; try reflexivity.
  destruct (Qcompare x y) eqn:E1; try discriminate;
  destruct (Qcompare y z) eqn:E2; try discriminate; intros _ _;
  [ apply Qeq_alt in E1; apply Qeq_alt in E2 | apply Qeq_alt in E1; apply Qlt_alt in E2
  | apply Qlt_alt in E1; apply Qeq_alt in E2 | apply Qlt_alt in E1; apply Qlt_alt in E2 ].
  - assert (Hc : Qcompare x z = Eq) by (rewrite <- Qeq_alt; lra). now rewrite Hc.
  - assert (Hc : Qcompare x z = Lt) by (rewrite <- Qlt_alt; lra). now rewrite Hc.
  - assert (Hc : Qcompare x z = Lt) by (rewrite <- Qlt_alt; lra). now rewrite Hc.
  - assert (Hc : Qcompare x z = Lt) by (rewrite <- Qlt_alt; lra). now rewrite Hc.
Qed.

Lemma num_gtb_false_le x y : x <> NaN -> y <> NaN -> num_gtb x y = false -> num_le x y.
Proof.
  unfold num_le, num_gtb, num_leb.
  destruct x as [| | |x], y as [| | |y]; simpl; try congruence.
  destruct (Qcompare x y); congruence.
Qed.

Lemma num_gtb_true_le x y : num_gtb x y = true -> num_le y x.
Proof.
  unfold num_le, num_gtb, num_leb.
  destruct x as [| | |x], y as [| | |y]; simpl; try congruence.
  rewrite <- (Qcompare_antisym x y). destruct (Qcompare x y); simpl; congruence.
Qed.

Lemma odd_mod2 n : negb (n mod 2 =? 0)%nat = Nat.odd n.
Proof.
  pose proof (Nat.mod_upper_bound n 2 ltac:(lia)) as H.
  rewrite (Nat.div_mod_eq n 2) at 2.
  rewrite Nat.add_comm, Nat.odd_add_mul_2.
  destruct (n mod 2)%nat as [|[|k]]; simpl; try reflexivity; lia.
Qed.

Section Sorting.
Context {A : Type} (cmp : A -> A -> number).

Lemma sort_insert_perm x l : Permutation (sort_insert cmp x l) (x :: l).
Proof.
  induction l as [|y l IH]; simpl; [reflexivity|].
  destruct (num_gtb (cmp x y) (Fin 0)); [|reflexivity].
  rewrite IH. apply perm_swap.
Qed.

Lemma Array_sort_perm l : Permutation (Array_sort cmp l) l.
Proof.
  induction l as [|x l IH]; simpl; [reflexivity|].
  rewrite sort_insert_perm. now constructor.
Qed.

Context (P : A -> Prop) (R : A -> A -> Prop).
Hypothesis R_keep : forall x y, P x -> P y -> num_gtb (cmp x y) (Fin 0) = false -> R x y.
Hypothesis R_swap : forall x y, P x -> P y -> num_gtb (cmp x y) (Fin 0) = true -> R y x.

Lemma sort_insert_sorted x l :
  P x -> Forall P l -> Sorted R l -> Sorted R (sort_insert cmp x l).
Proof.
  intros Hx Hl Hs. induction l as [|y l IH]; simpl.
  - repeat constructor.
  - inversion Hl as [|? ? Hy Hl']; subst. inversion Hs as [|? ? Hs' Hhd]; subst.
    destruct (num_gtb (cmp x y) (Fin 0)) eqn:E.
    + constructor; [now apply IH|].
      destruct l as [|z l]; simpl.
      * constructor. now apply R_swap.
      * destruct (num_gtb (cmp x z) (Fin 0)).
        -- constructor. now inversion Hhd.
        -- constructor. now apply R_swap.
    + constructor; [assumption|]. constructor. now apply R_keep.
Qed.

Lemma Array_sort_sorted l : Forall P l -> Sorted R (Array_sort cmp l).
Proof.
  induction l as [|x l IH]; simpl; intros Hl.
  - constructor.
  - inversion Hl; subst. apply sort_insert_sorted; auto.
    eapply Permutation_Forall; [symmetry; apply Array_sort_perm|assumption].
Qed.

End Sorting.

Lemma Array_sort_num_sorted arr :
  Forall (fun x => x <> NaN) arr -> StronglySorted num_le (Array_sort num_sub arr).
Proof.
  intros H. apply Sorted_StronglySorted.
  - intros a b c. apply num_le_trans.
  - apply (Array_sort_sorted num_sub (fun x => x <> NaN)); [| |assumption].
    + intros x y Hx Hy E. rewrite num_gtb_sub in E by assumption. now apply num_gtb_false_le.
    + intros x y Hx Hy E. rewrite num_gtb_sub in E by assumption. now apply num_gtb_true_le.
Qed.

(** ** Price coercion *)

Lemma remove_chars_filter p s :
  list_ascii_of_string (remove_chars p s) =
  List.filter (fun c => negb (p c)) (list_ascii_of_string s).
Proof.
  induction s as [|c s IH]; simpl; [reflexivity|].
  destruct (p c); simpl; now rewrite IH.
Qed.

Lemma coercePrice_not_NaN v : isNaN (Admin.coercePrice v) = false.
Proof.
  unfold Admin.coercePrice.
  destruct v as [| |b|n|s|t]; try reflexivity.
  - now destruct b.
  - simpl. destruct (isNaN (VNumber n)) eqn:E; [reflexivity|exact E].
  - simpl. destruct (isNaN (VNumber _)) eqn:E; [reflexivity|exact E].
  - simpl. destruct (isNaN (VDate t)) eqn:E; [reflexivity|exact E].
Qed.

Lemma or_zero_not_NaN n : isNaN (js_or (VNumber n) (VNumber (Fin 0))) = false.
Proof.
  unfold js_or. simpl. destruct n; try reflexivity.
  simpl. now destruct (num_eqb _ _).
Qed.

(** ** The filters *)

Lemma includes_allowed arr v : includes arr v = true <-> allowed arr v.
Proof.
  unfold includes, allowed. rewrite existsb_exists, Exists_exists.
  split; intros (x & Hx & Hv); exists x; split; auto; now apply list_elem_of_In.
Qed.

Lemma visible_bool fs d :
  (includes (selectedYears fs) (year d) && includes (selectedCities fs) (city d)
   && includes (selectedNewConstruction fs) (newConstruction d)
   && includes (selectedCityLimits fs) (insideCityLimits d)) = true <-> visible fs d.
Proof.
  unfold visible. rewrite !andb_true_iff, !includes_allowed. tauto.
Qed.

Lemma updateDashboard_filter fs rawData :
  updateDashboard fs rawData = filter (visible fs) rawData.
Proof.
  unfold updateDashboard. induction rawData as [|d l IH]; [reflexivity|].
  rewrite filter_cons. simpl. rewrite IH.
  destruct (decide (visible fs d)) as [Hv|Hv].
  - apply visible_bool in Hv. now rewrite Hv.
  - destruct (_ && _) eqn:Hb; [|reflexivity].
    apply visible_bool in Hb. contradiction.
Qed.

Lemma updateDashboard_empty_selection k fs rawData :
  selected k fs = [] -> updateDashboard fs rawData = [].
Proof.
  intros H. unfold updateDashboard.
  induction rawData as [|d l IH]; simpl; [reflexivity|].
  rewrite IH.
  destruct k; simpl in H; rewrite H; simpl; rewrite ?andb_false_r; reflexivity.
Qed.

(** ** The duplicate filter *)

Section DedupFacts.
Context {host : Host}.

Lemma Forall_of_sublist {A : Type} (P : A -> Prop) (l1 l2 : list A) :
  sublist l1 l2 -> Forall P l2 -> Forall P l1.
Proof.
  induction 1 as [|x l1 l2 Hs IH|x l1 l2 Hs IH]; intros H; [constructor| |];
    apply Forall_cons in H as [Hx H]; auto.
Qed.

Lemma fingerprint_canonical d : canonical d -> fingerprint d = Ok (keyOf d).
Proof.
  intros (a & t & Ha & Ht). unfold keyOf, fingerprint. now rewrite Ha, Ht.
Qed.

Lemma keyOf_canonical d a t :
  address d = VString a -> date d = VDate t ->
  keyOf d = Number_toString (Date_getTime t) +:+ "-" +:+ toLowerCase (trim a)
              +:+ "-" +:+ ToString (price d).
Proof. intros Ha Ht. unfold keyOf, fingerprint. now rewrite Ha, Ht. Qed.

Lemma dedupFrom_canonical seen l :
  Forall canonical l -> dedupFrom seen l = Ok (keepFirst seen l).
Proof.
  intros H. revert seen. induction H as [|d l Hd Hl IH]; intros seen; simpl.
  - reflexivity.
  - rewrite (fingerprint_canonical d Hd). simpl.
    destruct (bool_decide (keyOf d ∈ seen)); [apply IH|].
    now rewrite IH.
Qed.

Lemma keepFirst_snoc seen l d :
  keepFirst seen (l ++ [d]) =
  keepFirst seen l ++
    (if bool_decide (keyOf d ∈ seen \/ keyOf d ∈ map keyOf l) then [] else [d]).
Proof.
  revert seen. induction l as [|x l IH]; intros seen; simpl.
  - rewrite (bool_decide_ext (keyOf d ∈ seen \/ keyOf d ∈ []) (keyOf d ∈ seen)).
    + now destruct (bool_decide (keyOf d ∈ seen)).
    + rewrite elem_of_nil. tauto.
  - destruct (bool_decide (keyOf x ∈ seen)) eqn:E.
    + rewrite IH. apply bool_decide_eq_true in E.
      erewrite bool_decide_ext; [reflexivity|].
      rewrite elem_of_cons. split; [tauto|].
      intros [H|[H|H]]; auto. left. now rewrite H.
    + rewrite IH. simpl.
      erewrite bool_decide_ext; [reflexivity|].
      rewrite elem_of_cons, elem_of_union, elem_of_singleton. tauto.
Qed.

Lemma keepFirst_sublist seen l : sublist (keepFirst seen l) l.
Proof.
  revert seen. induction l as [|x l IH]; intros seen; simpl; [constructor|].
  destruct (bool_decide _); [apply sublist_cons|apply sublist_skip]; apply IH.
Qed.

Lemma keepFirst_keys seen l k :
  k ∈ map keyOf (keepFirst seen l) <-> k ∈ map keyOf l /\ k ∉ seen.
Proof.
  revert seen. induction l as [|x l IH]; intros seen; simpl.
  - rewrite elem_of_nil. tauto.
  - destruct (bool_decide (keyOf x ∈ seen)) eqn:E.
    + apply bool_decide_eq_true in E. rewrite IH, elem_of_cons.
      split; [tauto|]. intros [[->|H] Hn]; [contradiction|tauto].
    + apply bool_decide_eq_false in E. simpl.
      rewrite !elem_of_cons, IH, elem_of_union, elem_of_singleton.
      split; [|destruct (decide (k = keyOf x)); tauto].
      intros [->|(H & Hn)]; [tauto|]. tauto.
Qed.

Lemma keepFirst_NoDup seen l : NoDup (map keyOf (keepFirst seen l)).
Proof.
  revert seen. induction l as [|x l IH]; intros seen; simpl; [constructor|].
  destruct (bool_decide (keyOf x ∈ seen)); [apply IH|].
  simpl. constructor; [|apply IH].
  rewrite keepFirst_keys, elem_of_union, elem_of_singleton. tauto.
Qed.

Lemma keepFirst_fixed seen l :
  NoDup (map keyOf l) -> (forall k, k ∈ map keyOf l -> k ∉ seen) ->
  keepFirst seen l = l.
Proof.
  revert seen. induction l as [|x l IH]; intros seen Hnd Hs; simpl; [reflexivity|].
  simpl in Hnd. apply NoDup_cons in Hnd as [Hx Hnd].
  rewrite bool_decide_eq_false_2 by (apply Hs; simpl; left).
  f_equal. apply IH; [assumption|].
  intros k Hk. rewrite elem_of_union, elem_of_singleton.
  intros [->|Hin]; [contradiction|]. apply (Hs k); [simpl; now right|assumption].
Qed.

Lemma keepFirst_idempotent seen l : keepFirst seen (keepFirst seen l) = keepFirst seen l.
Proof.
  apply keepFirst_fixed; [apply keepFirst_NoDup|].
  intros k Hk. now apply keepFirst_keys in Hk.
Qed.

End DedupFacts.

(** ** The upload *)

Section UploadFacts.
Context {host : Host}.

Lemma plain_fields (a c s nc icl k : string) (p pp sq dm be ba y : number) (t t' : option Z) :
  let plain : Doc :=
    <["date" := VDate t']>
      (JSON_roundtrip (list_to_map [
         ("address", VString a); ("date", VDate t); ("price", VNumber p);
         ("pricePerSqFt", VNumber pp); ("sqFt", VNumber sq); ("daysOnMarket", VNumber dm);
         ("city", VString c); ("subdivision", VString s); ("beds", VNumber be);
         ("baths", VNumber ba); ("year", VNumber y); ("newConstruction", VString nc);
         ("insideCityLimits", VString icl); ("uniqueKey", VString k)])) in
  dom plain = recordFields
  /\ plain !! "uniqueKey" = Some (VString k)
  /\ plain !! "price" = Some (jsonNumber p)
  /\ plain !! "year" = Some (jsonNumber y)
  /\ plain !! "address" = Some (VString a)
  /\ plain !! "sqFt" = Some (jsonNumber sq)
  /\ plain !! "date" = Some (VDate t')
  /\ plain !! "fingerprint" = None.
Proof.
  intros plain. subst plain. repeat split; vm_compute; reflexivity.
Qed.

Lemma toRecord_invalid_date row :
  parseDate (get row "Closed Date") = None -> toRecord row = Ok None.
Proof. intros H. unfold toRecord. now rewrite H. Qed.

Lemma toRecord_throws row t :
  parseDate (get row "Closed Date") = Some t ->
  uniqueKeyOf (Some t) row (coercePrice (get row "Price")) = Throw TypeError ->
  toRecord row = Throw TypeError.
Proof.
  intros H1 H2. unfold toRecord. rewrite H1. simpl isNaN_num. cbv iota. now rewrite H2.
Qed.

Lemma toRecord_valid row t k :
  parseDate (get row "Closed Date") = Some t ->
  uniqueKeyOf (Some t) row (coercePrice (get row "Price")) = Ok k ->
  exists plain, toRecord row = Ok (Some plain)
    /\ dom plain = recordFields
    /\ plain !! "uniqueKey" = Some (VString k)
    /\ plain !! "price" = Some (jsonNumber (ToNumber (coercePrice (get row "Price"))))
    /\ plain !! "year" = Some (VNumber (Date_getFullYear (Some t)))
    /\ plain !! "address" = Some (VString (storedAddress row))
    /\ plain !! "sqFt" =
         Some (jsonNumber (ToNumber (js_or (get row "Apx SQFT") (VNumber (Fin 0)))))
    /\ plain !! "fingerprint" = None.
Proof.
  intros H1 H2. unfold toRecord. rewrite H1. simpl isNaN_num. cbv iota.
  rewrite H2. eexists. split; [reflexivity|].
  remember (ToNumber (coercePrice (get row "Price"))) as p.
  edestruct (plain_fields (storedAddress row)) as (Hd & Hk & Hp & Hy & Ha & Hs & _ & Hf).
  split; [exact Hd|]. split; [exact Hk|]. split; [subst p; exact Hp|].
  split; [exact Hy|]. split; [exact Ha|]. split; [exact Hs|exact Hf].
Qed.


Lemma uniqueKeyOf_Ok t row dimPrice k :
  uniqueKeyOf t row dimPrice = Ok k <->
  exists a, js_or (get row "Address") (VString "") = VString a /\
    k = Number_toString (Date_getTime t) +:+ "-" +:+ toLowerCase (trim a)
          +:+ "-" +:+ ToString dimPrice.
Proof.
  unfold uniqueKeyOf, call_trim.
  destruct (js_or _ _) eqn:E; simpl;
    try solve [split; [intros [=] | intros (a & [=] & _)]].
  split; [intros [= <-]; eauto | intros (a & [= <-] & ->); reflexivity].
Qed.

Lemma toRecord_Some_inv row plain :
  toRecord row = Ok (Some plain) ->
  exists t k,
    parseDate (get row "Closed Date") = Some t
    /\ uniqueKeyOf (Some t) row (coercePrice (get row "Price")) = Ok k
    /\ dom plain = recordFields
    /\ plain !! "uniqueKey" = Some (VString k)
    /\ plain !! "price" = Some (jsonNumber (ToNumber (coercePrice (get row "Price"))))
    /\ plain !! "year" = Some (VNumber (Date_getFullYear (Some t)))
    /\ plain !! "address" = Some (VString (storedAddress row))
    /\ plain !! "sqFt" =
         Some (jsonNumber (ToNumber (js_or (get row "Apx SQFT") (VNumber (Fin 0)))))
    /\ plain !! "fingerprint" = None.
Proof.
  intros H.
  destruct (parseDate (get row "Closed Date")) as [t|] eqn:Ht;
    [|rewrite (toRecord_invalid_date row Ht) in H; discriminate].
  destruct (uniqueKeyOf (Some t) row (coercePrice (get row "Price"))) as [k|[]] eqn:Hk;
    [|rewrite (toRecord_throws row t Ht Hk) in H; discriminate].
  destruct (toRecord_valid row t k Ht Hk) as (plain' & Hp & Hrest).
  rewrite Hp in H. injection H as <-. exists t, k. auto.
Qed.

Lemma js_gt_jsonNumber p :
  js_gt (jsonNumber p) (Fin 0) = isFinite_num p && num_gtb p (Fin 0).
Proof. destruct p; reflexivity. Qed.

Lemma keepRecord_Some plain p y :
  plain !! "price" = Some (jsonNumber p) ->
  plain !! "year" = Some (VNumber y) ->
  keepRecord (Some plain) =
    isFinite_num p && num_gtb p (Fin 0) && num_gtb y (num_of_Z 2000).
Proof.
  intros Hp Hy. unfold keepRecord, get. rewrite Hp, Hy. simpl.
  now rewrite js_gt_jsonNumber.
Qed.

(** The rows that the upload retains. *)
Lemma retained_iff row :
  (exists plain, retainedAs row plain) <->
  exists t a,
    parseDate (get row "Closed Date") = Some t
    /\ js_or (get row "Address") (VString "") = VString a
    /\ isFinite_num (ToNumber (coercePrice (get row "Price"))) = true
    /\ num_gtb (ToNumber (coercePrice (get row "Price"))) (Fin 0) = true
    /\ num_gtb (Date_getFullYear (Some t)) (num_of_Z 2000) = true.
Proof.
  split.
  - intros (plain & Hr & Hk).
    destruct (toRecord_Some_inv row plain Hr)
      as (t & k & Ht & Hu & _ & _ & Hp & Hy & _).
    rewrite (keepRecord_Some plain _ _ Hp Hy) in Hk.
    apply andb_true_iff in Hk as [Hk Hy']. apply andb_true_iff in Hk as [Hf Hg].
    apply uniqueKeyOf_Ok in Hu as (a & Ha & _).
    exists t, a. auto.
  - intros (t & a & Ht & Ha & Hf & Hg & Hy).
    destruct (toRecord_valid row t
                (Number_toString (Date_getTime (Some t)) +:+ "-" +:+ toLowerCase (trim a)
                   +:+ "-" +:+ ToString (coercePrice (get row "Price"))) Ht)
      as (plain & Hr & _ & _ & Hp & Hy' & _).
    { apply uniqueKeyOf_Ok. eauto. }
    exists plain. split; [exact Hr|].
    rewrite (keepRecord_Some plain _ _ Hp Hy'). now rewrite Hf, Hg, Hy.
Qed.

(** The rows on which the callback of [map] throws: those with a valid
    date whose ['Address'] cell is truthy and not a string. *)
Lemma toRecord_throws_iff row :
  toRecord row = Throw TypeError <->
  is_Some (parseDate (get row "Closed Date"))
  /\ forall a, js_or (get row "Address") (VString "") <> VString a.
Proof.
  destruct (parseDate (get row "Closed Date")) as [t|] eqn:Ht.
  - destruct (uniqueKeyOf (Some t) row (coercePrice (get row "Price"))) as [k|[]] eqn:Hk.
    + destruct (toRecord_valid row t k Ht Hk) as (plain & Hp & _).
      apply uniqueKeyOf_Ok in Hk as (a & Ha & _).
      rewrite Hp. split; [discriminate|]. intros [_ H]. now destruct (H a).
    + rewrite (toRecord_throws row t Ht Hk). split; [|reflexivity].
      intros _. split; [eauto|]. intros a Ha.
      assert (E : uniqueKeyOf (Some t) row (coercePrice (get row "Price")) =
                  Ok (Number_toString (Date_getTime (Some t)) +:+ "-" +:+ toLowerCase (trim a)
                        +:+ "-" +:+ ToString (coercePrice (get row "Price"))))
        by (apply uniqueKeyOf_Ok; eauto).
      rewrite Hk in E. discriminate.
  - rewrite (toRecord_invalid_date row Ht). split; [discriminate|].
    intros [[t [=]] _].
Qed.

Lemma cleanRecords_cons row rows :
  cleanRecords (row :: rows) =
  d ← toRecord row;
  recs ← cleanRecords rows;
  mret (if keepRecord d then from_option (fun p => p :: recs) recs d else recs).
Proof.
  unfold cleanRecords. simpl.
  destruct (toRecord row) as [[p|]|e]; simpl; [| |reflexivity];
    destruct (mapM toRecord rows) as [ds|e]; simpl; try reflexivity.
  now destruct (js_gt _ _ && js_gt _ _).
Qed.

Lemma cleanRecords_retained rawData recs :
  cleanRecords rawData = Ok recs ->
  Forall (fun plain => exists row, row ∈ rawData /\ retainedAs row plain) recs.
Proof.
  revert recs. induction rawData as [|row rows IH]; intros recs H.
  - injection H as <-. constructor.
  - rewrite cleanRecords_cons in H.
    destruct (toRecord row) as [d|e] eqn:Hd; [|discriminate].
    destruct (cleanRecords rows) as [recs'|e]; [|discriminate].
    cbv [mbind mret result_bind result_ret] in H. injection H as <-.
    assert (Hrest : Forall (fun plain => exists row0, row0 ∈ row :: rows
                              /\ retainedAs row0 plain) recs').
    { eapply Forall_impl; [apply IH; reflexivity|].
      intros plain (r & Hr & Hp). exists r. split; [now right|assumption]. }
    destruct (keepRecord d) eqn:Hk; [|exact Hrest].
    destruct d as [p|]; [|discriminate Hk].
    constructor; [|exact Hrest]. exists row. split; [left|]. now split.
Qed.

Lemma retained_hasKey row plain :
  retainedAs row plain ->
  exists k, plain !! "uniqueKey" = Some (VString k)
    /\ docId plain = replace_char "/" "_" k
    /\ dom plain = recordFields
    /\ plain !! "fingerprint" = None.
Proof.
  intros [Hr _].
  destruct (toRecord_Some_inv row plain Hr) as (t & k & _ & _ & Hd & Hk & _ & _ & _ & _ & Hf).
  exists k. repeat split; try assumption.
  unfold docId, get. now rewrite Hk.
Qed.

(** *** The loop over the chunks *)

Lemma foldM_app {A S : Type} (f : S -> A -> result S) (s : S) (l1 l2 : list A) :
  foldM f s (l1 ++ l2) = foldM f s l1 ≫= fun s' => foldM f s' l2.
Proof.
  revert s. induction l1 as [|a l1 IH]; intros s; simpl; [reflexivity|].
  destruct (f s a); simpl; [apply IH|reflexivity].
Qed.

Lemma batchSet_all (batch : list (string * Doc)) (chunk : list Doc) :
  Forall hasKey chunk ->
  foldM batchSet batch chunk = Ok (batch ++ map (fun r => (docId r, r)) chunk).
Proof.
  intros H. revert batch. induction H as [|r chunk [k Hk] _ IH]; intros batch.
  - simpl. now rewrite app_nil_r.
  - assert (E : batchSet batch r = Ok (batch ++ [(docId r, r)]))
      by (unfold batchSet, safeKeyOf, docId, get; now rewrite Hk).
    change (foldM batchSet batch (r :: chunk))
      with (batchSet batch r ≫= fun s => foldM batchSet s chunk).
    rewrite E. simpl. rewrite IH, <- app_assoc. reflexivity.
Qed.

Lemma commit_app (b1 b2 : list (string * Doc)) (db : Store) :
  commit (b1 ++ b2) db = commit b2 (commit b1 db).
Proof. apply foldl_app. Qed.

Lemma uploadChunk_ok recs st i :
  Forall hasKey recs ->
  uploadChunk recs st i =
  Ok {| store := commit (map (fun r => (docId r, r)) (take batchSize (drop i recs))) (store st);
        addedCount := (addedCount st + length (take batchSize (drop i recs)))%nat |}.
Proof.
  intros H. unfold uploadChunk.
  rewrite batchSet_all; [reflexivity|].
  apply Forall_take, Forall_drop, H.
Qed.

Lemma uploadChunks_ok recs st n :
  Forall hasKey recs ->
  foldM (uploadChunk recs) st (map (fun j => (j * batchSize)%nat) (seq 0 n)) =
  Ok {| store := commit (map (fun r => (docId r, r)) (take (n * batchSize) recs)) (store st);
        addedCount := (addedCount st + length (take (n * batchSize) recs))%nat |}.
Proof.
  intros H. induction n as [|n IH].
  - simpl. destruct st as [s a]. simpl. now rewrite Nat.add_0_r.
  - rewrite seq_S, map_app, foldM_app, IH, Nat.add_0_l.
    cbn [mbind result_bind map foldM].
    rewrite uploadChunk_ok by assumption.
    cbn [mbind result_bind store addedCount].
    rewrite <- commit_app, <- map_app, take_take_drop.
    rewrite <- Nat.add_assoc, <- length_app, take_take_drop.
    now rewrite Nat.mul_succ_l.
Qed.

Lemma chunkStarts_cover total : (total <= (total + (batchSize - 1)) / batchSize * batchSize)%nat.
Proof.
  change batchSize with 400%nat.
  pose proof (Nat.div_mod_eq (total + (400 - 1)) 400) as E.
  pose proof (Nat.mod_upper_bound (total + (400 - 1)) 400 ltac:(lia)) as B.
  lia.
Qed.

Lemma uploadDataToFirestore_ok rawData db recs :
  cleanRecords rawData = Ok recs ->
  uploadDataToFirestore rawData db =
  Ok {| store := commit (map (fun r => (docId r, r)) recs) db;
        addedCount := length recs |}.
Proof.
  intros H. unfold uploadDataToFirestore. rewrite H. simpl.
  unfold chunkStarts. rewrite uploadChunks_ok.
  - simpl. now rewrite take_ge by apply chunkStarts_cover.
  - eapply Forall_impl; [apply (cleanRecords_retained _ _ H)|].
    intros plain (row & _ & Hr). destruct (retained_hasKey row plain Hr) as (k & Hk & _).
    now exists k.
Qed.

Lemma commit_lookup (batch : list (string * Doc)) (db : Store) id doc :
  commit batch db !! id = Some doc -> db !! id = Some doc \/ (id, doc) ∈ batch.
Proof.
  revert db. induction batch as [|[i r] batch IH]; intros db H; simpl in *; [now left|].
  apply IH in H as [H|H]; [|right; now right].
  destruct (decide (i = id)) as [->|Hne].
  - rewrite lookup_insert_eq in H. injection H as ->. right. left.
  - rewrite lookup_insert_ne in H by assumption. now left.
Qed.

Lemma cleanRecords_pair r1 r2 p1 p2 :
  retainedAs r1 p1 -> retainedAs r2 p2 -> cleanRecords [r1; r2] = Ok [p1; p2].
Proof.
  intros [H1 K1] [H2 K2].
  rewrite !cleanRecords_cons, H1, H2.
  cbn [mbind mret result_bind result_ret cleanRecords mapM fmap result_fmap omap list_omap].
  now rewrite K1, K2.
Qed.

Lemma upload_pair_same_id r1 r2 p1 p2 db :
  retainedAs r1 p1 -> retainedAs r2 p2 -> docId p1 = docId p2 ->
  uploadDataToFirestore [r1; r2] db =
  Ok {| store := <[docId p2 := p2]> db; addedCount := 2 |}.
Proof.
  intros H1 H2 E.
  rewrite (uploadDataToFirestore_ok _ db _ (cleanRecords_pair r1 r2 p1 p2 H1 H2)).
  cbn [map commit foldl fst snd length]. rewrite E, insert_insert_eq. reflexivity.
Qed.

(** The dashboard keeps a row with a [Date] exactly when the date is
    valid, the coerced price is above zero and the year is above 2000. *)
Lemma normalize_acceptance (row : Doc) (t : option Z) :
  get row "date" = VDate t ->
  exists d, toSale row = Ok d
    /\ price d = Dashboard.coercePrice (get row "price")
    /\ year d = VNumber (Date_getFullYear t)
    /\ exists b, keepSale d = Ok b
    /\ normalize [row] = Ok (if b then [d] else [])
    /\ (b = true <->
          is_Some t
          /\ js_gt (Dashboard.coercePrice (get row "price")) (Fin 0) = true
          /\ num_gtb (Date_getFullYear t) (num_of_Z 2000) = true).
Proof.
  intros Hd. unfold toSale. rewrite Hd. simpl. eexists. split; [reflexivity|].
  split; [reflexivity|]. split; [reflexivity|].
  unfold normalize, toSale, keepSale. simpl. rewrite Hd. simpl.
  change (Dashboard.coercePrice (get row "price")) with (Admin.coercePrice (get row "price")).
  rewrite coercePrice_not_NaN. simpl.
  destruct (js_gt (Admin.coercePrice (get row "price")) (Fin 0)) eqn:Hg; simpl.
  - eexists. split; [reflexivity|]. split; [reflexivity|].
    split.
    + intros Hy. split; [|auto]. destruct t; [eauto|discriminate].
    + tauto.
  - exists false. split; [reflexivity|]. split; [reflexivity|].
    split; [discriminate|]. intros (_ & [=] & _).
Qed.

End UploadFacts.

(** A conjunction of closed equations, each settled by evaluation. *)
Ltac compute_conj :=
  cbv zeta;
  repeat match goal with |- _ /\ _ => split end;
  vm_compute; reflexivity.

(** ** The claims *)

Section Claims.
Context {host : Host}.

(** C3.  On canonical records the duplicate filter returns; what it
    returns is a subsequence of its input with one record for each
    fingerprint of the input and no fingerprint twice; scanning in input
    order, a record is kept exactly when no earlier record has its
    fingerprint; the fingerprint is the time value of the date, the
    trimmed and lowercased address and the price, joined by ["-"] in that
    order; and the filter returns its own output unchanged. *)
Theorem dedup_keeps_first (l : list Sale) :
  Forall canonical l ->
  exists out : list Sale,
    dedup l = Ok out
    /\ sublist out l
    /\ NoDup (map keyOf out)
    /\ (forall k, k ∈ map keyOf out <-> k ∈ map keyOf l)
    /\ (forall pre d post, l = pre ++ d :: post ->
          exists kept, dedup pre = Ok kept /\
            dedup (pre ++ [d]) =
              Ok (kept ++ if bool_decide (keyOf d ∈ map keyOf pre) then [] else [d]))
    /\ (forall d a t, d ∈ l -> address d = VString a -> date d = VDate t ->
          keyOf d = Number_toString (Date_getTime t) +:+ "-" +:+ toLowerCase (trim a)
                      +:+ "-" +:+ ToString (price d))
    /\ dedup out = Ok out.
Proof.
  intros Hc. exists (keepFirst ∅ l). unfold dedup.
  split; [now apply dedupFrom_canonical|].
  split; [apply keepFirst_sublist|].
  split; [apply keepFirst_NoDup|].
  split; [intros k; rewrite keepFirst_keys, elem_of_empty; tauto|].
  split.
  { intros pre d post ->. apply Forall_app in Hc as [Hpre Hd].
    apply Forall_cons in Hd as [Hd _].
    exists (keepFirst ∅ pre). split; [now apply dedupFrom_canonical|].
    rewrite dedupFrom_canonical by (apply Forall_app; split; [assumption|now constructor]).
    rewrite keepFirst_snoc.
    erewrite bool_decide_ext; [reflexivity|]. rewrite elem_of_empty. tauto. }
  split; [intros d a t _; apply keyOf_canonical|].
  rewrite dedupFrom_canonical.
  - now rewrite keepFirst_idempotent.
  - eapply Forall_of_sublist; [apply keepFirst_sublist|exact Hc].
Qed.


(** C9.  The key of line 698 reads the ['Address'] cell only, the stored
    address of line 685 falls back to ['Street Name'] and ['Street
    Address'].  Two upload rows without an ['Address'] cell, with the same
    parsed date and the same coerced price, the first of which is
    retained: the second is retained too, both records carry the same
    [uniqueKey], whose address part is empty, each keeps its own stored
    address, and after the upload of the two rows the collection holds
    the record of the second row under their common identifier. *)
Theorem upload_without_address_collapses (r1 r2 p1 : Doc) (db : Store) :
  r1 !! "Address" = None ->
  r2 !! "Address" = None ->
  parseDate (get r1 "Closed Date") = parseDate (get r2 "Closed Date") ->
  Admin.coercePrice (get r1 "Price") = Admin.coercePrice (get r2 "Price") ->
  retainedAs r1 p1 ->
  exists p2 t,
    retainedAs r2 p2
    /\ parseDate (get r2 "Closed Date") = Some t
    /\ p1 !! "uniqueKey" = p2 !! "uniqueKey"
    /\ p2 !! "uniqueKey" =
         Some (VString (Number_toString (num_of_Z t) +:+ "--"
                          +:+ ToString (Admin.coercePrice (get r2 "Price"))))
    /\ p1 !! "address" = Some (VString (storedAddress r1))
    /\ p2 !! "address" = Some (VString (storedAddress r2))
    /\ docId p1 = docId p2
    /\ uploadDataToFirestore [r1; r2] db =
         Ok {| store := <[docId p2 := p2]> db; addedCount := 2 |}.
Proof.
  intros A1 A2 Hd Hp H1.
  destruct (proj1 (retained_iff r1) (ex_intro _ p1 H1)) as (t & a & Ht & Haddr & Hf & Hg & Hy).
  rewrite Hd in Ht. rewrite Hp in Hf, Hg.
  assert (G2 : get r2 "Address" = VUndefined) by (unfold get; now rewrite A2).
  assert (G1 : get r1 "Address" = VUndefined) by (unfold get; now rewrite A1).
  destruct (proj2 (retained_iff r2)) as (p2 & H2).
  { exists t, "". rewrite G2. auto. }
  exists p2, t.
  destruct (toRecord_Some_inv r1 p1 (proj1 H1))
    as (t1 & k1 & Ht1 & Hk1 & _ & Hu1 & _ & _ & Had1 & _).
  destruct (toRecord_Some_inv r2 p2 (proj1 H2))
    as (t2 & k2 & Ht2 & Hk2 & _ & Hu2 & _ & _ & Had2 & _).
  rewrite Hd, Ht2 in Ht1. injection Ht1 as <-.
  rewrite Ht in Ht2. injection Ht2 as <-.
  unfold uniqueKeyOf in Hk1, Hk2. rewrite G1, Hp in Hk1. rewrite G2 in Hk2.
  simpl in Hk1, Hk2. injection Hk1 as <-. injection Hk2 as <-.
  assert (E : docId p1 = docId p2) by (unfold docId, get; now rewrite Hu1, Hu2).
  split; [exact H2|]. split; [exact Ht|]. split; [now rewrite Hu1, Hu2|].
  split; [exact Hu2|]. split; [exact Had1|]. split; [exact Had2|]. split; [exact E|].
  now apply (upload_pair_same_id r1 r2 p1 p2).
Qed.

(** C10.  When no row makes the upload throw, the upload returns; it
    writes each cleaned record under the identifier made of the record's
    own [uniqueKey] field with every ["/"] replaced by ["_"]; each
    written record has the fourteen fields of line 684 to 698, [uniqueKey]
    among them, and no field [fingerprint]; and every document of the
    collection afterwards was there before or is such a record under
    such an identifier. *)
Theorem upload_document_ids (rawData : list Doc) (db : Store) (recs : list Doc) :
  cleanRecords rawData = Ok recs ->
  uploadDataToFirestore rawData db =
    Ok {| store := commit (map (fun record => (docId record, record)) recs) db;
          addedCount := length recs |}
  /\ Forall (fun record =>
       exists k, record !! "uniqueKey" = Some (VString k)
         /\ docId record = replace_char "/" "_" k
         /\ dom record = recordFields
         /\ record !! "fingerprint" = None) recs
  /\ (forall id doc,
        commit (map (fun record => (docId record, record)) recs) db !! id = Some doc ->
        db !! id = Some doc \/ (doc ∈ recs /\ id = docId doc)).
Proof.
  intros H. split; [now apply uploadDataToFirestore_ok|]. split.
  - eapply Forall_impl; [apply (cleanRecords_retained _ _ H)|].
    intros plain (row & _ & Hr). now apply (retained_hasKey row).
  - intros id doc Hl. apply commit_lookup in Hl as [Hl|Hl]; [now left|right].
    apply list_elem_of_fmap in Hl as (r & [= -> ->] & Hr). now split.
Qed.

End Claims.

(** C6.  [filteredData] is the input filtered, in order, by the
    conjunction of the four memberships, hence a subsequence of the
    input; and it is empty as soon as one of the four selections is. *)
Theorem updateDashboard_conjunctive (fs : FilterState) (rawData : list Sale) :
  updateDashboard fs rawData = filter (visible fs) rawData
  /\ sublist (updateDashboard fs rawData) rawData
  /\ (forall d, d ∈ updateDashboard fs rawData <-> d ∈ rawData /\ visible fs d)
  /\ (forall k, selected k fs = [] -> updateDashboard fs rawData = []).
Proof.
  split; [apply updateDashboard_filter|]. split; [|split].
  - rewrite updateDashboard_filter. apply sublist_filter.
  - intros d. rewrite updateDashboard_filter, list_elem_of_filter. tauto.
  - intros k. apply updateDashboard_empty_selection.
Qed.

(** C7.  On numbers none of which is [NaN], [median] is 0 for the empty
    array and otherwise reads an ascending permutation of its input: the
    middle element for an odd length, the mean of the two middle elements
    for an even one.  [median([100]) = 100], [median([100, 300]) = 200]
    and [median([]) = 0]. *)
Theorem median_sorted_middle :
  (forall arr : list number, Forall (fun x => x <> NaN) arr ->
     exists sorted : list number,
       Permutation sorted arr /\ StronglySorted num_le sorted /\
       median arr =
         match arr with
         | [] => Fin 0
         | _ =>
             if Nat.odd (length arr) then nth (length arr / 2) sorted NaN
             else num_div (num_add (nth (length arr / 2 - 1) sorted NaN)
                                   (nth (length arr / 2) sorted NaN)) (Fin 2)
         end)
  /\ median [Fin 100] = Fin 100
  /\ median [Fin 100; Fin 300] = Fin 200
  /\ median [] = Fin 0.
Proof.
  split; [|repeat split; reflexivity].
  intros arr H. exists (Array_sort num_sub arr).
  split; [apply Array_sort_perm|]. split; [now apply Array_sort_num_sorted|].
  destruct arr as [|x arr]; [reflexivity|].
  unfold median.
  rewrite odd_mod2.
  rewrite (Permutation_length (Array_sort_perm num_sub (x :: arr))).
  reflexivity.
Qed.

(** C4, as the code has it.  [parsePrice], in both scripts, returns a
    number unchanged, reads a string with [parseFloat] after removing
    every ["$"] and [","], and returns 0 for a value of any other type.
    It returns [NaN] where [parseFloat] does; the fallback to 0 is made
    where it is called: [parsePrice(x) || 0] is never [NaN], and neither
    is the price after the [isNaN] guard of the price coercion. *)
Theorem parsePrice_fallbacks :
  (forall n, Admin.parsePrice (VNumber n) = n)
  /\ (forall s, Admin.parsePrice (VString s) =
                 parseFloat (remove_chars Admin.is_currency_mark s))
  /\ (forall s, list_ascii_of_string (remove_chars Admin.is_currency_mark s) =
                 List.filter (fun c => negb (Ascii.eqb c "$" || Ascii.eqb c ","))
                             (list_ascii_of_string s))
  /\ Admin.parsePrice VUndefined = Fin 0
  /\ Admin.parsePrice VNull = Fin 0
  /\ (forall b, Admin.parsePrice (VBool b) = Fin 0)
  /\ (forall t, Admin.parsePrice (VDate t) = Fin 0)
  /\ (forall v, Dashboard.parsePrice v = Admin.parsePrice v)
  /\ (forall v, isNaN (js_or (VNumber (Admin.parsePrice v)) (VNumber (Fin 0))) = false)
  /\ (forall v, isNaN (Admin.coercePrice v) = false)
  /\ (forall v, isNaN (Dashboard.coercePrice v) = false).
Proof.
  repeat split; try reflexivity.
  - intros s. apply remove_chars_filter.
  - intros v. apply or_zero_not_NaN.
  - intros v. apply coercePrice_not_NaN.
  - intros v. apply coercePrice_not_NaN.
Qed.

(** C4 fails on a string that holds no number: [parsePrice("N/A")] is
    [NaN], not 0. *)
Lemma parsePrice_unparsable_string :
  Admin.parsePrice (VString "N/A") = NaN
  /\ Admin.parsePrice (VString "N/A") <> Fin 0
  /\ Dashboard.parsePrice (VString "N/A") = NaN.
Proof. repeat split; try reflexivity. discriminate. Qed.

(** C2 fails for a city named ["2020"].  The default selection holds the
    string; [handleFilterChange] turns the value of the checkbox into the
    number 2020, so that unchecking the city removes nothing and the sale
    stays visible, and checking it after [clearFilter] adds the number and
    the sale stays hidden.  For a city named ["Conway"] the same two
    actions hide and show the sale. *)
Theorem handleFilterChange_numeric_city :
  let sale := saleOf (Fin 250000) "2020" 2022 in
  let fs0 := initFilterState [sale] in
  let uncheck := {| cb_value := "2020"; cb_checked := false |} in
  let check := {| cb_value := "2020"; cb_checked := true |} in
  selectedCities fs0 = [VString "2020"]
  /\ updateDashboard fs0 [sale] = [sale]
  /\ selectedCities (handleFilterChange uncheck K_selectedCities fs0) = [VString "2020"]
  /\ updateDashboard (handleFilterChange uncheck K_selectedCities fs0) [sale] = [sale]
  /\ selectedCities (handleFilterChange check K_selectedCities (clearFilter K_selectedCities fs0))
       = [VNumber (Fin 2020)]
  /\ updateDashboard (handleFilterChange check K_selectedCities (clearFilter K_selectedCities fs0))
       [sale] = []
  /\ (let sale' := saleOf (Fin 250000) "Conway" 2022 in
      let fs1 := initFilterState [sale'] in
      let uncheck' := {| cb_value := "Conway"; cb_checked := false |} in
      let check' := {| cb_value := "Conway"; cb_checked := true |} in
      updateDashboard (handleFilterChange uncheck' K_selectedCities fs1) [sale'] = []
      /\ updateDashboard
           (handleFilterChange check' K_selectedCities (clearFilter K_selectedCities fs1))
           [sale'] = [sale']).
Proof. compute_conj. Qed.

(** C8 fails once a label is printed with an exponent.  A sale of
    [10 ^ 24] falls in the bin of lower bound [10 ^ 24], whose label
    starts with ["1e+21k"], and [parseInt] reads 1 from it: the chart puts
    that bin before the bin of lower bound 50000. *)
Theorem renderDistChart_exponent_label :
  let cheap := saleOf (Fin 60000) "Conway" 2022 in
  let dear := saleOf (num_of_Z (10 ^ 24)) "Conway" 2022 in
  binOf cheap = num_of_Z 50000
  /\ binOf dear = num_of_Z (10 ^ 24)
  /\ num_ltb (binOf cheap) (binOf dear) = true
  /\ binLabel (binOf cheap) = "50k-100k"
  /\ before_char "k" (binLabel (binOf dear)) = "1e+21"
  /\ parseInt (before_char "k" (binLabel (binOf dear))) = Fin 1
  /\ map fst (renderDistChart [cheap; dear]) = [binLabel (binOf dear); binLabel (binOf cheap)].
Proof. compute_conj. Qed.

(** The histogram of the prices 10000, 40000 and 60000. *)
Example renderDistChart_three_prices :
  renderDistChart [saleOf (Fin 10000) "Conway" 2022; saleOf (Fin 40000) "Conway" 2022;
                   saleOf (Fin 60000) "Conway" 2022]
  = [("0k-50k", 2%nat); ("50k-100k", 1%nat)].
Proof. vm_compute. reflexivity. Qed.

(** C1 fails on the upload path for a row whose ['Address'] cell holds a
    number.  Its date is valid, its price is above zero and its year is
    2022, yet line 698 calls [trim] on the number: the callback throws,
    and with it the whole upload.  Line 685 reads the same cell through
    [String]. *)
Theorem upload_numeric_address_throws :
  parseDate (host:=utcHost) (get numericAddressRow "Closed Date") = Some 1651363200000
  /\ js_gt (VNumber (ToNumber (Admin.coercePrice (get numericAddressRow "Price")))) (Fin 0) = true
  /\ Date_getFullYear (host:=utcHost) (Some 1651363200000) = num_of_Z 2022
  /\ storedAddress (host:=utcHost) numericAddressRow = "1204"
  /\ toRecord (host:=utcHost) numericAddressRow = Throw TypeError
  /\ uploadDataToFirestore (host:=utcHost) [numericAddressRow] ∅ = Throw TypeError
  /\ uploadDataToFirestore (host:=utcHost) [mainStreetRow 1500; numericAddressRow] ∅
       = Throw TypeError.
Proof. compute_conj. Qed.

(** The year boundary of both paths: a row of 2001-01-01 is kept, a row
    of 2000-12-31 is dropped. *)
Example year_boundary :
  length <$> normalize (host:=utcHost) [fetchedRow 978307200000] = Ok 1%nat
  /\ normalize (host:=utcHost) [fetchedRow 978307199999] = Ok []
  /\ length <$> cleanRecords (host:=utcHost)
        [rowOf [("Address", VString "1 Main St"); ("Closed Date", VString "2001-01-01");
                ("Price", VNumber (Fin 200000))]] = Ok 1%nat
  /\ cleanRecords (host:=utcHost)
       [rowOf [("Address", VString "1 Main St"); ("Closed Date", VString "2000-12-31");
               ("Price", VNumber (Fin 200000))]] = Ok [].
Proof. compute_conj. Qed.

(** ** Witnesses *)

Lemma dedup_keeps_first_witness :
  let l := [saleOf (Fin 250000) "Conway" 2022; saleOf (Fin 250000) "Vilonia" 2022;
            saleOf (Fin 180000) "Conway" 2021] in
  Forall canonical l
  /\ exists out, dedup (host:=utcHost) l = Ok out /\ dedup (host:=utcHost) out = Ok out.
Proof.
  intros l.
  assert (H : Forall canonical l)
    by (repeat constructor; eexists; eexists; split; reflexivity).
  split; [exact H|].
  destruct (dedup_keeps_first (host:=utcHost) l H) as (out & H1 & _ & _ & _ & _ & _ & H2).
  exists out. split; assumption.
Defined.

Lemma recordOf_retained row :
  (exists plain, retainedAs (host:=utcHost) row plain) ->
  retainedAs (host:=utcHost) row (recordOf row).
Proof. intros (plain & H1 & H2). unfold recordOf. rewrite H1. now split. Qed.

Lemma recordsOf_returned rawData :
  returns (cleanRecords (host:=utcHost) rawData) = true ->
  cleanRecords (host:=utcHost) rawData = Ok (recordsOf rawData).
Proof.
  unfold recordsOf. destruct (cleanRecords rawData); [reflexivity|discriminate].
Qed.


Lemma upload_without_address_collapses_witness :
  streetNameRow "12 Oak St" !! "Address" = None
  /\ streetNameRow "98 Elm Ave" !! "Address" = None
  /\ parseDate (host:=utcHost) (get (streetNameRow "12 Oak St") "Closed Date") =
       parseDate (host:=utcHost) (get (streetNameRow "98 Elm Ave") "Closed Date")
  /\ Admin.coercePrice (get (streetNameRow "12 Oak St") "Price") =
       Admin.coercePrice (get (streetNameRow "98 Elm Ave") "Price")
  /\ retainedAs (host:=utcHost) (streetNameRow "12 Oak St")
       (recordOf (streetNameRow "12 Oak St"))
  /\ exists p2,
       recordOf (streetNameRow "12 Oak St") !! "address" = Some (VString "12 Oak St")
       /\ p2 !! "address" = Some (VString "98 Elm Ave")
       /\ p2 !! "uniqueKey" = Some (VString "1651363200000--250000")
       /\ uploadDataToFirestore (host:=utcHost)
            [streetNameRow "12 Oak St"; streetNameRow "98 Elm Ave"] ∅ =
            Ok {| store := {[docId p2 := p2]}; addedCount := 2 |}.
Proof.
  assert (H : retainedAs (host:=utcHost) (streetNameRow "12 Oak St")
                (recordOf (streetNameRow "12 Oak St"))).
  { apply recordOf_retained, retained_iff. exists 1651363200000, "". compute_conj. }
  split; [reflexivity|]. split; [reflexivity|]. split; [reflexivity|].
  split; [reflexivity|]. split; [exact H|].
  destruct (upload_without_address_collapses (host:=utcHost)
              (streetNameRow "12 Oak St") (streetNameRow "98 Elm Ave") _ ∅
              eq_refl eq_refl eq_refl eq_refl H)
    as (p2 & t & _ & Ht & _ & Hk & Ha1 & Ha2 & _ & Hu).
  exists p2. split; [rewrite Ha1; vm_compute; reflexivity|].
  split; [rewrite Ha2; vm_compute; reflexivity|]. split; [|exact Hu].
  vm_compute in Ht. injection Ht as <-. rewrite Hk. vm_compute. reflexivity.
Defined.

Lemma upload_document_ids_witness :
  cleanRecords (host:=utcHost) sampleUpload = Ok (recordsOf sampleUpload)
  /\ uploadDataToFirestore (host:=utcHost) sampleUpload ∅ =
       Ok {| store := commit (map (fun record => (docId record, record))
                                  (recordsOf sampleUpload)) ∅;
             addedCount := length (recordsOf sampleUpload) |}.
Proof.
  assert (H : cleanRecords (host:=utcHost) sampleUpload = Ok (recordsOf sampleUpload))
    by (apply recordsOf_returned; vm_compute; reflexivity).
  split; [exact H|].
  exact (proj1 (upload_document_ids (host:=utcHost) sampleUpload ∅ _ H)).
Defined.

Lemma updateDashboard_conjunctive_witness :
  let sale := saleOf (Fin 250000) "Conway" 2022 in
  let fs := clearFilter K_selectedCityLimits (initFilterState [sale]) in
  selected K_selectedCityLimits fs = [] /\ updateDashboard fs [sale] = [].
Proof.
  intros sale fs. split; [reflexivity|].
  apply (proj2 (proj2 (proj2 (updateDashboard_conjunctive fs [sale]))) K_selectedCityLimits).
  reflexivity.
Defined.

Lemma median_sorted_middle_witness :
  let arr := [Fin 300; Fin 100; Fin 400; Fin 200] in
  Forall (fun x => x <> NaN) arr
  /\ exists sorted, Permutation sorted arr /\ StronglySorted num_le sorted
       /\ median arr = num_div (num_add (nth 1 sorted NaN) (nth 2 sorted NaN)) (Fin 2).
Proof.
  intros arr.
  assert (H : Forall (fun x => x <> NaN) arr) by (repeat constructor; discriminate).
  split; [exact H|].
  destruct (proj1 median_sorted_middle arr H) as (sorted & Hp & Hs & Hm).
  exists sorted. split; [exact Hp|]. split; [exact Hs|exact Hm].
Defined.

(** * Further properties *)

(** ** The histogram *)

Lemma append_cons c (s1 s2 : string) : String c s1 +:+ s2 = String c (s1 +:+ s2).
Proof. reflexivity. Qed.

Lemma append_assoc (s1 s2 s3 : string) : (s1 +:+ s2) +:+ s3 = s1 +:+ (s2 +:+ s3).
Proof.
  induction s1 as [|c s1 IH]; [reflexivity|]. now rewrite !append_cons, IH.
Qed.

Lemma append_nil_r (s : string) : s +:+ "" = s.
Proof. induction s as [|c s IH]; [reflexivity|]. now rewrite append_cons, IH. Qed.

Lemma length_append (s1 s2 : string) :
  String.length (s1 +:+ s2) = (String.length s1 + String.length s2)%nat.
Proof.
  induction s1 as [|c s1 IH]; [reflexivity|]. rewrite append_cons. simpl. now rewrite IH.
Qed.

Lemma digit_cases d : 0 <= d < 10 ->
  d = 0 \/ d = 1 \/ d = 2 \/ d = 3 \/ d = 4 \/ d = 5 \/ d = 6 \/ d = 7 \/ d = 8 \/ d = 9.
Proof. lia. Qed.

Lemma digit_in_digit_char d : 0 <= d < 10 -> digit_in 10 (digit_char d) = Some d.
Proof.
  intros H. destruct (digit_cases d H) as [->|[->|[->|[->|[->|[->|[->|[->|[->| ->]]]]]]]]];
    reflexivity.
Qed.

Lemma is_decimal_digit_char d : 0 <= d < 10 -> is_decimal_digit (digit_char d) = true.
Proof.
  intros H. destruct (digit_cases d H) as [->|[->|[->|[->|[->|[->|[->|[->|[->| ->]]]]]]]]];
    reflexivity.
Qed.

Lemma decimal_digit_plain c :
  is_decimal_digit c = true ->
  is_white_space c = false /\ Ascii.eqb c "k" = false /\ Ascii.eqb c "x" = false
  /\ Ascii.eqb c "X" = false /\ c <> "+"%char /\ c <> "-"%char.
Proof.
  destruct c as [[] [] [] [] [] [] [] []]; intros H; try discriminate H;
    repeat split; try reflexivity; discriminate.
Qed.

Lemma mod10_range n : 0 <= n mod 10 < 10.
Proof. apply Z.mod_pos_bound. lia. Qed.

Lemma digits_from_app fuel n acc :
  digits_from fuel n acc = digits_from fuel n "" +:+ acc.
Proof.
  revert n acc. induction fuel as [|fuel IH]; intros n acc; simpl; [reflexivity|].
  destruct (n <? 10); [reflexivity|].
  rewrite (IH _ (String _ acc)), (IH _ (String _ "")), append_assoc. reflexivity.
Qed.

Lemma digits_from_forall fuel n acc :
  string_forall is_decimal_digit (digits_from fuel n acc) =
  string_forall is_decimal_digit acc.
Proof.
  revert n acc. induction fuel as [|fuel IH]; intros n acc; [reflexivity|].
  cbn [digits_from].
  destruct (n <? 10); [|rewrite IH]; cbn [string_forall];
    now rewrite (is_decimal_digit_char _ (mod10_range n)).
Qed.

Lemma digits_from_nonempty fuel n acc : (1 <= fuel)%nat -> digits_from fuel n acc <> "".
Proof.
  destruct fuel as [|fuel]; [lia|]. intros _. simpl.
  destruct (n <? 10); [discriminate|].
  rewrite digits_from_app. destruct (digits_from fuel (n / 10) ""); discriminate.
Qed.

Lemma digits_from_length fuel n acc :
  (String.length (digits_from fuel n acc) <= fuel + String.length acc)%nat.
Proof.
  revert n acc. induction fuel as [|fuel IH]; intros n acc; simpl; [lia|].
  destruct (n <? 10); simpl; [lia|].
  etransitivity; [apply IH|]. simpl. lia.
Qed.

Lemma digits_from_fuel f1 f2 n acc :
  0 <= n -> (1 <= f1)%nat -> (1 <= f2)%nat ->
  n < 10 ^ Z.of_nat f1 -> n < 10 ^ Z.of_nat f2 ->
  digits_from f1 n acc = digits_from f2 n acc.
Proof.
  revert f2 n acc. induction f1 as [|f1 IH]; intros f2 n acc Hn H1 H2 B1 B2; [lia|].
  destruct f2 as [|f2]; [lia|]. simpl.
  destruct (n <? 10) eqn:E; [reflexivity|]. apply Z.ltb_ge in E.
  assert (P1 : n / 10 < 10 ^ Z.of_nat f1).
  { apply Z.div_lt_upper_bound; [lia|]. rewrite <- Z.pow_succ_r by lia.
    now rewrite <- Nat2Z.inj_succ. }
  assert (P2 : n / 10 < 10 ^ Z.of_nat f2).
  { apply Z.div_lt_upper_bound; [lia|]. rewrite <- Z.pow_succ_r by lia.
    now rewrite <- Nat2Z.inj_succ. }
  assert (0 < n / 10) by (apply Z.div_str_pos; lia).
  apply IH; try assumption; try lia.
  - destruct f1; [simpl in P1; lia|lia].
  - destruct f2; [simpl in P2; lia|lia].
Qed.

Lemma size_fuel_enough n : 0 <= n -> n < 10 ^ Z.of_nat (size_fuel n).
Proof.
  intros Hn. unfold size_fuel. rewrite Z.abs_eq by assumption.
  rewrite Nat2Z.inj_succ, Z2Nat.id by apply Z.log2_nonneg.
  destruct (Z.eq_dec n 0) as [->|Hz]; [reflexivity|].
  apply Z.lt_le_trans with (2 ^ Z.succ (Z.log2 n)).
  - apply Z.log2_spec. lia.
  - apply Z.pow_le_mono_l. split; [lia|lia].
Qed.

Lemma digits_as_from fuel n :
  0 <= n -> (1 <= fuel)%nat -> n < 10 ^ Z.of_nat fuel -> digits n = digits_from fuel n "".
Proof.
  intros Hn Hf B. unfold digits. apply digits_from_fuel; try assumption.
  - unfold size_fuel. lia.
  - now apply size_fuel_enough.
Qed.

Lemma digits_length n k : 0 <= n -> (1 <= k)%nat -> n < 10 ^ Z.of_nat k ->
  (String.length (digits n) <= k)%nat.
Proof.
  intros Hn Hk B. rewrite (digits_as_from k n Hn Hk B).
  etransitivity; [apply digits_from_length|]. simpl. lia.
Qed.

Lemma digits_tenfold m : 0 < m -> digits (10 * m) = digits m +:+ "0".
Proof.
  intros Hm.
  assert (B : 10 * m < 10 ^ Z.of_nat (size_fuel (10 * m))) by (apply size_fuel_enough; lia).
  unfold digits at 1. destruct (size_fuel (10 * m)) as [|f] eqn:Ef; [discriminate|].
  simpl. destruct (10 * m <? 10) eqn:E; [apply Z.ltb_lt in E; lia|].
  replace (10 * m / 10) with m by (rewrite Z.mul_comm, Z.div_mul; lia).
  replace ((10 * m) mod 10) with 0 by (rewrite Z.mul_comm, Z.mod_mul; lia).
  rewrite digits_from_app. f_equal.
  rewrite Nat2Z.inj_succ, Z.pow_succ_r in B by lia.
  symmetry. apply digits_as_from; [lia| |lia].
  destruct f; [simpl in B; lia|lia].
Qed.

Lemma string_repeat_snoc c n : string_repeat c (S n) = string_repeat c n +:+ String c "".
Proof.
  induction n as [|n IH]; [reflexivity|].
  change (string_repeat c (S (S n))) with (String c (string_repeat c (S n))).
  rewrite IH at 1. reflexivity.
Qed.

Lemma digits_pow10 s z : 0 < s ->
  digits (s * 10 ^ Z.of_nat z) = digits s +:+ string_repeat "0" z.
Proof.
  intros Hs. induction z as [|z IH].
  - simpl. now rewrite Z.mul_1_r, append_nil_r.
  - rewrite Nat2Z.inj_succ, Z.pow_succ_r by lia.
    replace (s * (10 * 10 ^ Z.of_nat z)) with (10 * (s * 10 ^ Z.of_nat z)) by lia.
    rewrite digits_tenfold by (apply Z.mul_pos_pos; [lia|apply Z.pow_pos_nonneg; lia]).
    rewrite IH, append_assoc, string_repeat_snoc. reflexivity.
Qed.

Lemma scan_digits_cons radix c s a n :
  scan_digits radix (String c s) a n =
  match digit_in radix c with
  | Some d => scan_digits radix s (a * radix + d) (S n)
  | None => (a, n, String c s)
  end.
Proof. reflexivity. Qed.

Lemma scan_digits_from fuel n :
  0 <= n -> (1 <= fuel)%nat -> n < 10 ^ Z.of_nat fuel ->
  exists k : nat, (1 <= k)%nat /\ forall acc a c,
    scan_digits 10 (digits_from fuel n acc) a c =
    scan_digits 10 acc (a * 10 ^ Z.of_nat k + n) (c + k).
Proof.
  revert n. induction fuel as [|fuel IH]; intros n Hn Hf B; [lia|].
  cbn [digits_from]. destruct (n <? 10) eqn:E.
  - apply Z.ltb_lt in E. exists 1%nat. split; [lia|]. intros acc a c.
    rewrite Z.mod_small by lia.
    rewrite scan_digits_cons, digit_in_digit_char by lia. f_equal; lia.
  - apply Z.ltb_ge in E.
    assert (P : n / 10 < 10 ^ Z.of_nat fuel).
    { apply Z.div_lt_upper_bound; [lia|]. rewrite <- Z.pow_succ_r by lia.
      now rewrite <- Nat2Z.inj_succ. }
    assert (0 < n / 10) by (apply Z.div_str_pos; lia).
    destruct (IH (n / 10)) as (k & Hk & Hscan); [lia| |assumption|].
    { destruct fuel; [change (10 ^ Z.of_nat 0) with 1 in P; lia|lia]. }
    exists (S k). split; [lia|]. intros acc a c.
    rewrite Hscan, scan_digits_cons, digit_in_digit_char by apply mod10_range.
    f_equal; [|lia].
    rewrite Nat2Z.inj_succ, Z.pow_succ_r by lia.
    pose proof (Z.div_mod n 10 ltac:(lia)). lia.
Qed.





Lemma digits_plain_head s :
  string_forall is_decimal_digit s = true -> s <> "" ->
  trimStart s = s /\ scan_sign s = (1, s).
Proof.
  destruct s as [|c s]; intros H Hne; [congruence|].
  cbn [string_forall] in H. apply andb_true_iff in H as [Hc _].
  destruct (decimal_digit_plain c Hc) as (Hw & _ & _ & _ & Hplus & Hminus).
  split.
  - cbn [trimStart]. now rewrite Hw.
  - unfold scan_sign. destruct c as [[] [] [] [] [] [] [] []]; try reflexivity;
      exfalso; [now apply Hplus|now apply Hminus].
Qed.

Lemma digits_all n : string_forall is_decimal_digit (digits n) = true.
Proof. unfold digits. now rewrite digits_from_forall. Qed.

Lemma digits_nonempty n : digits n <> "".
Proof. apply digits_from_nonempty. unfold size_fuel. lia. Qed.

Lemma scan_digits_digits n :
  0 <= n -> exists k, scan_digits 10 (digits n) 0 0 = (n, S k, "").
Proof.
  intros Hn.
  destruct (scan_digits_from (size_fuel n) n Hn ltac:(unfold size_fuel; lia)
              (size_fuel_enough n Hn)) as (k & Hk & Hscan).
  specialize (Hscan "" 0 0%nat). fold (digits n) in Hscan.
  destruct k as [|k]; [lia|]. exists k. rewrite Hscan.
  cbn [scan_digits]. now rewrite Z.mul_0_l, Z.add_0_l.
Qed.


Lemma strip_factor_spec p fuel d :
  1 < p -> 0 < d ->
  0 < snd (strip_factor p fuel d)
  /\ d = snd (strip_factor p fuel d) * p ^ Z.of_nat (fst (strip_factor p fuel d)).
Proof.
  intros Hp. revert d. induction fuel as [|fuel IH]; intros d Hd; cbn [strip_factor].
  - cbn [fst snd]. change (Z.of_nat 0) with 0. rewrite Z.pow_0_r. split; lia.
  - destruct ((d mod p =? 0) && negb (d =? 0)) eqn:E.
    2: { cbn [fst snd]. change (Z.of_nat 0) with 0. rewrite Z.pow_0_r. split; lia. }
    apply andb_true_iff in E as [E _]. apply Z.eqb_eq in E.
    assert (Hdiv : d = p * (d / p)) by (apply Z.div_exact; lia).
    assert (Hq : 0 < d / p) by (apply Z.div_str_pos; split; [lia|];
      destruct (Z.le_gt_cases p d); [assumption|rewrite Z.mod_small in E; lia]).
    destruct (IH (d / p) Hq) as [Hs Hd'].
    destruct (strip_factor p fuel (d / p)) as [k r]. cbn [fst snd] in *.
    split; [assumption|].
    rewrite Nat2Z.inj_succ, Z.pow_succ_r by lia.
    rewrite Hdiv at 1. rewrite Hd' at 1. ring.
Qed.

Lemma Number_toString_integer n :
  0 <= n < 10 ^ 21 -> Number_toString (num_of_Z n) = digits n.
Proof.
  intros [Hn Hb]. unfold Number_toString, num_of_Z. rewrite inject_Z_Qred.
  change (Qnum (inject_Z n)) with n.
  destruct (n =? 0) eqn:E0; [apply Z.eqb_eq in E0; now subst|].
  apply Z.eqb_neq in E0.
  destruct (n <? 0) eqn:E1; [apply Z.ltb_lt in E1; lia|].
  unfold Number_toString_pos.
  change (Qnum (inject_Z n)) with n. change (Zpos (Qden (inject_Z n))) with 1.
  change (strip_factor 2 (size_fuel 1) 1) with (0%nat, 1). cbv iota beta.
  change (strip_factor 5 (size_fuel 1) 1) with (0%nat, 1). cbv iota beta.
  change (1 =? 1) with true. cbv iota.
  change (Nat.max 0 0) with 0%nat. change (Z.of_nat 0) with 0.
  rewrite Z.pow_0_r, Z.mul_1_r, Z.div_1_r.
  destruct (strip_factor_spec 10 (size_fuel n) n ltac:(lia) ltac:(lia)) as [Hs Hd].
  destruct (strip_factor 10 (size_fuel n) n) as [z s]. simpl in Hs, Hd.
  assert (Hdig : digits n = digits s +:+ string_repeat "0" z)
    by (rewrite Hd at 1; now apply digits_pow10).
  assert (Hlen : (String.length (digits s) + z <= 21)%nat).
  { pose proof (digits_length n 21 Hn ltac:(lia) Hb) as L.
    rewrite Hdig, length_append in L.
    replace (String.length (string_repeat "0" z)) with z in L; [exact L|].
    clear. induction z; simpl; congruence. }
  rewrite Z.sub_0_r.
  replace ((Z.of_nat (String.length (digits s)) <=?
            Z.of_nat (String.length (digits s)) + Z.of_nat z) &&
           (Z.of_nat (String.length (digits s)) + Z.of_nat z <=? 21)) with true.
  - rewrite Hdig. do 2 f_equal. lia.
  - symmetry. apply andb_true_iff. split; apply Z.leb_le; lia.
Qed.

(** *** The bins *)

Lemma bins_incr_keys k bins k' :
  k' ∈ map fst (bins_incr k bins) <-> k' = k \/ k' ∈ map fst bins.
Proof.
  induction bins as [|[k0 n0] bins IH]; simpl.
  - rewrite list_elem_of_singleton, elem_of_nil. tauto.
  - destruct (String.eqb k0 k) eqn:E; simpl; rewrite !elem_of_cons.
    + apply String.eqb_eq in E. subst. tauto.
    + rewrite IH. tauto.
Qed.

Lemma bins_incr_NoDup k bins : NoDup (map fst bins) -> NoDup (map fst (bins_incr k bins)).
Proof.
  induction bins as [|[k0 n0] bins IH]; simpl; intros H.
  - repeat constructor. apply not_elem_of_nil.
  - apply NoDup_cons in H as [Hk0 Hnd].
    destruct (String.eqb k0 k) eqn:E; simpl; apply NoDup_cons; [tauto|].
    split; [|now apply IH].
    rewrite bins_incr_keys. intros [->|H]; [|contradiction].
    now rewrite String.eqb_refl in E.
Qed.

Lemma bins_get_incr k bins k' :
  bins_get (bins_incr k bins) k' = (bins_get bins k' + if String.eqb k k' then 1 else 0)%nat.
Proof.
  unfold bins_get. induction bins as [|[k0 n0] bins IH]; simpl.
  - destruct (String.eqb k k'); reflexivity.
  - destruct (String.eqb k0 k) eqn:E; simpl.
    + apply String.eqb_eq in E. subst k0.
      destruct (String.eqb k k'); simpl; lia.
    + destruct (String.eqb k0 k') eqn:E'; simpl; [|exact IH].
      apply String.eqb_eq in E'. subst k0. rewrite String.eqb_sym, E. lia.
Qed.

Lemma countLabels_from bins labels :
  NoDup (map fst bins) ->
  let bins' := foldl (fun bins k => bins_incr k bins) bins labels in
  NoDup (map fst bins')
  /\ (forall k, k ∈ map fst bins' <-> k ∈ map fst bins \/ k ∈ labels)
  /\ (forall k, bins_get bins' k =
                (bins_get bins k + length (filter (fun k' => k' = k) labels))%nat).
Proof.
  revert bins. induction labels as [|k0 labels IH]; intros bins Hnd; cbn [foldl].
  - split; [assumption|]. split; [intros k; rewrite elem_of_nil; tauto|].
    intros k. rewrite filter_nil. cbn [length]. lia.
  - destruct (IH (bins_incr k0 bins) (bins_incr_NoDup k0 bins Hnd)) as (H1 & H2 & H3).
    split; [exact H1|]. split.
    + intros k. rewrite H2, bins_incr_keys, elem_of_cons. tauto.
    + intros k. rewrite H3, bins_get_incr, filter_cons.
      destruct (decide (k0 = k)) as [->|Hne].
      * rewrite String.eqb_refl. cbn [length]. lia.
      * apply String.eqb_neq in Hne. rewrite Hne. lia.
Qed.

Lemma foldl_labels {A : Type} (lab : A -> string) (data : list A) bins :
  foldl (fun bins d => bins_incr (lab d) bins) bins data =
  foldl (fun bins k => bins_incr k bins) bins (map lab data).
Proof.
  revert bins. induction data as [|d data IH]; intros bins; simpl; [reflexivity|apply IH].
Qed.

(** *** Bins and labels of prices below [10 ^ 24] *)


Lemma num_gtb_of_Z x y : num_gtb (num_of_Z x) (num_of_Z y) = (y <? x).
Proof.
  unfold num_gtb, num_of_Z, num_compare, Qcompare. simpl. rewrite !Z.mul_1_r.
  rewrite Z.ltb_compare, (Z.compare_antisym x y). now destruct (x ?= y).
Qed.










Lemma bins_incr_sum k bins :
  sum_list (map snd (bins_incr k bins)) = S (sum_list (map snd bins)).
Proof.
  induction bins as [|[k0 n0] bins IH]; [reflexivity|].
  cbn [bins_incr]. destruct (String.eqb k0 k); cbn [map snd sum_list sum_list_with].
  - reflexivity.
  - cbn [map snd] in IH. rewrite IH. lia.
Qed.

Lemma countLabels_sum bins labels :
  sum_list (map snd (foldl (fun bins k => bins_incr k bins) bins labels)) =
  (sum_list (map snd bins) + length labels)%nat.
Proof.
  revert bins. induction labels as [|k labels IH]; intros bins; cbn [foldl length]; [lia|].
  rewrite IH, bins_incr_sum. lia.
Qed.

Lemma bins_get_own bins k n :
  NoDup (map fst bins) -> (k, n) ∈ bins -> bins_get bins k = n.
Proof.
  unfold bins_get. induction bins as [|[k0 n0] bins IH]; intros Hnd Hin.
  - now apply elem_of_nil in Hin.
  - cbn [map fst] in Hnd. apply NoDup_cons in Hnd as [Hk0 Hnd].
    cbn [find fst]. apply elem_of_cons in Hin as [[= -> ->]|Hin].
    + now rewrite String.eqb_refl.
    + destruct (String.eqb k0 k) eqn:E; [|now apply IH].
      apply String.eqb_eq in E. subst k0. exfalso. apply Hk0.
      apply list_elem_of_fmap. now exists (k, n).
Qed.

Lemma bins_get_keys bins :
  NoDup (map fst bins) -> map (bins_get bins) (map fst bins) = map snd bins.
Proof.
  intros Hnd. rewrite map_map. apply map_ext_in. intros [k n] Hin.
  apply (bins_get_own bins k n Hnd). now apply list_elem_of_In.
Qed.

Lemma sum_list_perm (l1 l2 : list nat) : Permutation l1 l2 -> sum_list l1 = sum_list l2.
Proof. induction 1; cbn [sum_list sum_list_with] in *; lia. Qed.

(** X2.  The histogram of any sales, whatever their prices.  No label is shown
    twice; a label is shown, with a count, exactly when it is the label
    of the bin of some sale, and the count is the number of sales whose
    bin has that label; the counts add up to the number of sales. *)
Theorem renderDistChart_counts (data : list Sale) :
  NoDup (map fst (renderDistChart data))
  /\ (forall k n, (k, n) ∈ renderDistChart data <->
        (exists d, d ∈ data /\ binLabel (binOf d) = k)
        /\ n = length (filter (fun d => binLabel (binOf d) = k) data))
  /\ sum_list (map snd (renderDistChart data)) = length data.
Proof.
  set (lab := fun d : Sale => binLabel (binOf d)).
  unfold renderDistChart.
  set (bins := foldl (fun bins d => bins_incr (binLabel (binOf d)) bins) [] data).
  set (keys := Array_sort compareLabels (map fst bins)).
  assert (Ebins : bins = foldl (fun bins k => bins_incr k bins) [] (map lab data))
    by apply (foldl_labels lab).
  destruct (countLabels_from [] (map lab data) (NoDup_nil_2 (A:=string))) as (Hnd & Hkeys & Hget).
  cbv zeta in Hnd, Hkeys, Hget. rewrite <- Ebins in Hnd, Hkeys, Hget.
  assert (Hperm : Permutation keys (map fst bins)) by apply Array_sort_perm.
  assert (Hfst : map fst (map (fun k => (k, bins_get bins k)) keys) = keys).
  { rewrite map_map. cbn [fst]. apply map_id. }
  assert (Hcount : forall k,
            length (filter (fun k' => k' = k) (map lab data)) =
            length (filter (fun d => binLabel (binOf d) = k) data)).
  { intros k. clear. induction data as [|d data IH]; [reflexivity|].
    cbn [map]. rewrite !filter_cons. unfold lab at 1.
    destruct (decide (binLabel (binOf d) = k)); cbn [length]; now rewrite IH. }
  split; [|split].
  - rewrite Hfst, Hperm. exact Hnd.
  - intros k n. rewrite list_elem_of_fmap. split.
    + intros (k' & [= -> ->] & Hk). rewrite Hperm in Hk. apply Hkeys in Hk as [Hk|Hk].
      { now apply elem_of_nil in Hk. }
      apply list_elem_of_fmap in Hk as (d & -> & Hd).
      split; [now exists d|]. rewrite Hget. cbn [bins_get find]. now rewrite Hcount.
    + intros [(d & Hd & <-) ->]. exists (lab d). split.
      * rewrite Hget. cbn [bins_get find]. now rewrite Hcount.
      * rewrite Hperm. apply Hkeys. right. apply list_elem_of_fmap. now exists d.
  - rewrite map_map. cbn [snd].
    rewrite (sum_list_perm _ (map (bins_get bins) (map fst bins)))
      by (now apply Permutation_map).
    rewrite bins_get_keys by exact Hnd.
    rewrite Ebins, countLabels_sum. cbn [map snd sum_list sum_list_with].
    now rewrite length_map.
Qed.

(** ** The default filter state *)

Lemma num_eqb_refl x : x <> NaN -> num_eqb x x = true.
Proof.
  destruct x as [| | |q]; intros H; try congruence; try reflexivity.
  unfold num_eqb, num_compare. now rewrite (proj1 (Qeq_alt q q) (Qeq_refl q)).
Qed.

Lemma num_eqb_Qeq x y : num_eqb (Fin x) (Fin y) = true <-> (x == y)%Q.
Proof.
  unfold num_eqb, num_compare. rewrite Qeq_alt.
  destruct (Qcompare x y); split; congruence.
Qed.

Lemma num_eqb_sym x y : num_eqb x y = num_eqb y x.
Proof.
  destruct x as [| | |x], y as [| | |y]; try reflexivity.
  apply eq_true_iff_eq. rewrite !num_eqb_Qeq. split; intros H; now symmetry.
Qed.

Lemma num_eqb_trans x y z : num_eqb x y = true -> num_eqb y z = true -> num_eqb x z = true.
Proof.
  destruct x as [| | |x], y as [| | |y], z as [| | |z]; try discriminate; try reflexivity.
  rewrite !num_eqb_Qeq. intros H1 H2. now rewrite H1.
Qed.

Lemma num_eqb_NaN_l y : num_eqb NaN y = false.
Proof. reflexivity. Qed.

Lemma num_eqb_NaN_r x : num_eqb x NaN = false.
Proof. now destruct x. Qed.

Lemma sameValue_refl a : sameValue a a.
Proof.
  unfold sameValue. destruct a as [| |b|n|s|t]; cbn [SameValueZero]; try reflexivity.
  - now destruct b.
  - destruct n as [| | |q]; try reflexivity.
    apply orb_true_iff. right. now apply num_eqb_refl.
  - apply String.eqb_refl.
  - now apply bool_decide_eq_true.
Qed.

Lemma SameValueZero_sym a b : SameValueZero a b = SameValueZero b a.
Proof.
  destruct a as [| |x|x|x|x], b as [| |y|y|y|y]; cbn [SameValueZero]; try reflexivity.
  - now destruct x, y.
  - now rewrite (andb_comm (isNaN_num x)), num_eqb_sym.
  - apply String.eqb_sym.
  - apply bool_decide_ext. split; congruence.
Qed.

Lemma sameValue_trans a b c : sameValue a b -> sameValue b c -> sameValue a c.
Proof.
  unfold sameValue. intros H1 H2.
  destruct a as [| |x|x|x|x], b as [| |y|y|y|y]; cbn [SameValueZero] in H1;
    try discriminate H1;
    destruct c as [| |z|z|z|z]; cbn [SameValueZero] in H2 |- *;
    try discriminate H2; try reflexivity.
  - destruct x, y, z; simpl in *; congruence.
  - apply orb_true_iff in H1, H2. apply orb_true_iff.
    destruct H1 as [H1|H1], H2 as [H2|H2].
    + apply andb_true_iff in H1 as [Hx _]. apply andb_true_iff in H2 as [_ Hz].
      left. now rewrite Hx, Hz.
    + apply andb_true_iff in H1 as [_ Hy]. destruct y; try discriminate;
        now rewrite num_eqb_NaN_l in H2.
    + apply andb_true_iff in H2 as [Hy _]. destruct y; try discriminate;
        now rewrite num_eqb_NaN_r in H1.
    + right. now apply (num_eqb_trans x y z).
  - apply String.eqb_eq in H1, H2. apply String.eqb_eq. congruence.
  - apply bool_decide_eq_true in H1, H2. apply bool_decide_eq_true. congruence.
Qed.

Lemma allowed_app arr1 arr2 v : allowed (arr1 ++ arr2) v <-> allowed arr1 v \/ allowed arr2 v.
Proof. unfold allowed. apply Exists_app. Qed.

Lemma allowed_singleton x v : allowed [x] v <-> sameValue x v.
Proof.
  unfold allowed, sameValue. rewrite Exists_cons, Exists_nil. tauto.
Qed.

Lemma allowed_nil v : ~ allowed [] v.
Proof. unfold allowed. now rewrite Exists_nil. Qed.

(** A value that is same as one that the selection allows is allowed. *)
Lemma allowed_same arr v w : allowed arr v -> sameValue v w -> allowed arr w.
Proof.
  unfold allowed. rewrite !Exists_exists. intros (x & Hx & Hv) Hw.
  exists x. split; [exact Hx|]. now apply (sameValue_trans x v w).
Qed.

(** [[...new Set(arr)]] allows what [arr] allows. *)
Lemma uniqueValues_from_allowed acc arr v :
  allowed (foldl (fun acc v => if includes acc v then acc else acc ++ [v]) acc arr) v
  <-> allowed acc v \/ allowed arr v.
Proof.
  revert acc. induction arr as [|x arr IH]; intros acc; cbn [foldl].
  - pose proof (allowed_nil v). tauto.
  - rewrite IH. unfold allowed at 4. rewrite Exists_cons. fold (allowed arr v).
    destruct (includes acc x) eqn:E.
    + apply includes_allowed in E. split; [tauto|].
      intros [H|[H|H]]; [tauto| |tauto]. left. now apply (allowed_same acc x v).
    + rewrite allowed_app, allowed_singleton. unfold sameValue. tauto.
Qed.

Lemma uniqueValues_allowed arr v : allowed (uniqueValues arr) v <-> allowed arr v.
Proof.
  unfold uniqueValues. rewrite uniqueValues_from_allowed.
  pose proof (allowed_nil v). tauto.
Qed.

Lemma allowed_member (arr : list value) v : v ∈ arr -> allowed arr v.
Proof.
  intros H. unfold allowed. apply Exists_exists. exists v. split; [exact H|apply sameValue_refl].
Qed.

(** With the default selections every sale is allowed in three of the
    four dimensions. *)
Lemma visible_default rawData d :
  d ∈ rawData ->
  (visible (initFilterState rawData) d
   <-> newConstruction d = VString "Yes" \/ newConstruction d = VString "No").
Proof.
  intros Hd. unfold visible, initFilterState.
  cbn [selectedYears selectedCities selectedNewConstruction selectedCityLimits].
  rewrite !uniqueValues_allowed.
  assert (Hy : allowed (map year rawData) (year d))
    by (apply allowed_member, list_elem_of_fmap; eauto).
  assert (Hc : allowed (map city rawData) (city d))
    by (apply allowed_member, list_elem_of_fmap; eauto).
  assert (Hl : allowed (map insideCityLimits rawData) (insideCityLimits d))
    by (apply allowed_member, list_elem_of_fmap; eauto).
  assert (Hn : allowed [VString "Yes"; VString "No"] (newConstruction d)
               <-> newConstruction d = VString "Yes" \/ newConstruction d = VString "No").
  { unfold allowed. rewrite !Exists_cons, Exists_nil.
    destruct (newConstruction d) as [| |b|n|s|t]; cbn [SameValueZero];
      try (split; [intros [|[|[]]]; discriminate|intros [|]; discriminate]).
    rewrite !String.eqb_eq. split.
    - intros [<-|[<-|[]]]; auto.
    - intros [[= <-]|[= <-]]; auto. }
  tauto.
Qed.

Lemma filter_iff_in {A : Type} (P Q : A -> Prop) `{!forall x, Decision (P x)}
    `{!forall x, Decision (Q x)} (l : list A) :
  (forall x, x ∈ l -> (P x <-> Q x)) -> filter P l = filter Q l.
Proof.
  induction l as [|x l IH]; intros Hl; [reflexivity|].
  rewrite !filter_cons, IH by (intros y Hy; apply Hl; now right).
  destruct (decide (P x)) as [Hp|Hp], (decide (Q x)) as [Hq|Hq]; try reflexivity; exfalso.
  - apply Hq, (Hl x); [left|exact Hp].
  - apply Hp, (Hl x); [left|exact Hq].
Qed.

Lemma filter_all {A : Type} (P : A -> Prop) `{!forall x, Decision (P x)} (l : list A) :
  Forall P l -> filter P l = l.
Proof.
  intros Hall. induction Hall as [|x l Hx Hl IH]; [reflexivity|].
  rewrite filter_cons, decide_True by exact Hx. now rewrite IH.
Qed.

(** X5.  The default filter state of lines 194-198, applied to the records it
    was built from: [updateDashboard] shows the records whose
    [newConstruction] is ['Yes'] or ['No'], in order, and no other; it
    shows all records when each has one of the two values. *)
Theorem default_filter_shows_yes_no (rawData : list Sale) :
  updateDashboard (initFilterState rawData) rawData =
    filter (fun d => newConstruction d = VString "Yes" \/ newConstruction d = VString "No")
           rawData
  /\ (Forall (fun d => newConstruction d = VString "Yes" \/ newConstruction d = VString "No")
        rawData ->
      updateDashboard (initFilterState rawData) rawData = rawData).
Proof.
  assert (E : updateDashboard (initFilterState rawData) rawData =
    filter (fun d => newConstruction d = VString "Yes" \/ newConstruction d = VString "No")
           rawData).
  { rewrite updateDashboard_filter. apply filter_iff_in.
    intros d Hd. now apply visible_default. }
  split; [exact E|]. intros H. rewrite E. now apply filter_all.
Qed.

(** ** A click on a checkbox *)

Lemma selected_set_same k arr fs : selected k (set_selected k arr fs) = arr.
Proof. now destruct k. Qed.

Lemma selected_set_other k k' arr fs :
  k' <> k -> selected k' (set_selected k arr fs) = selected k' fs.
Proof. destruct k, k'; intros H; try reflexivity; congruence. Qed.

Lemma handleFilterChange_unfold checkbox stateKey fs :
  handleFilterChange checkbox stateKey fs =
  let val := checkboxValue (cb_value checkbox) in
  if cb_checked checkbox then
    if negb (includes (selected stateKey fs) val)
    then set_selected stateKey (selected stateKey fs ++ [val]) fs
    else fs
  else
    set_selected stateKey
      (List.filter (fun item => negb (strict_eq item val)) (selected stateKey fs)) fs.
Proof. reflexivity. Qed.

(** The value of a checkbox is a string or a number other than [NaN]. *)
Lemma checkboxValue_cases s :
  checkboxValue s = VString s
  \/ exists n, checkboxValue s = VNumber n /\ n <> NaN.
Proof.
  unfold checkboxValue. destruct (isNaN_num (parseFloat s)) eqn:E; [now left|].
  cbn [negb andb]. destruct (isFinite (VString s)); [|now left].
  right. eexists. split; [reflexivity|]. intros H. now rewrite H in E.
Qed.

Lemma strict_eq_checkboxValue item s :
  strict_eq item (checkboxValue s) = SameValueZero item (checkboxValue s).
Proof.
  destruct (checkboxValue_cases s) as [->|(n & -> & Hn)].
  - now destruct item.
  - destruct item as [| |x|x|x|x]; try reflexivity.
    cbn [strict_eq SameValueZero]. destruct n; [congruence| | |];
      now rewrite andb_false_r.
Qed.

Lemma allowed_filter_out arr val v :
  allowed (List.filter (fun item => negb (SameValueZero item val)) arr) v
  <-> allowed arr v /\ ~ sameValue val v.
Proof.
  unfold allowed. rewrite !Exists_exists. split.
  - intros (x & Hx & Hv). apply list_elem_of_In, filter_In in Hx as [Hx Hne].
    apply list_elem_of_In in Hx. split; [eauto|].
    intros Hs. apply negb_true_iff in Hne.
    assert (sameValue x val); [|unfold sameValue in *; congruence].
    apply (sameValue_trans x v val); [exact Hv|].
    unfold sameValue. now rewrite SameValueZero_sym.
  - intros [(x & Hx & Hv) Hn]. exists x. split; [|exact Hv].
    apply list_elem_of_In, filter_In. split; [now apply list_elem_of_In|].
    apply negb_true_iff. destruct (SameValueZero x val) eqn:E; [|reflexivity].
    exfalso. apply Hn. apply (sameValue_trans val x v); [|exact Hv].
    unfold sameValue. now rewrite SameValueZero_sym.
Qed.

Lemma filter_strict_checkboxValue arr s :
  List.filter (fun item => negb (strict_eq item (checkboxValue s))) arr =
  List.filter (fun item => negb (SameValueZero item (checkboxValue s))) arr.
Proof.
  apply filter_ext. intros item. now rewrite strict_eq_checkboxValue.
Qed.

Lemma handleFilterChange_other checkbox stateKey fs k :
  k <> stateKey -> selected k (handleFilterChange checkbox stateKey fs) = selected k fs.
Proof.
  intros Hk. rewrite handleFilterChange_unfold. cbv zeta.
  destruct (cb_checked checkbox); [destruct (negb _); [|reflexivity]|];
    now apply selected_set_other.
Qed.

Lemma handleFilterChange_allowed checkbox stateKey fs v :
  allowed (selected stateKey (handleFilterChange checkbox stateKey fs)) v <->
  if cb_checked checkbox
  then allowed (selected stateKey fs) v \/ sameValue (checkboxValue (cb_value checkbox)) v
  else allowed (selected stateKey fs) v /\ ~ sameValue (checkboxValue (cb_value checkbox)) v.
Proof.
  rewrite handleFilterChange_unfold. cbv zeta.
  destruct (cb_checked checkbox).
  - destruct (includes _ _) eqn:E; cbn [negb].
    + split; [tauto|]. intros [H|H]; [exact H|].
      apply includes_allowed in E. now apply (allowed_same _ _ v E).
    + now rewrite selected_set_same, allowed_app, allowed_singleton.
  - rewrite selected_set_same, filter_strict_checkboxValue. apply allowed_filter_out.
Qed.

Lemma handleFilterChange_shape checkbox stateKey fs :
  if cb_checked checkbox
  then selected stateKey (handleFilterChange checkbox stateKey fs) = selected stateKey fs
       \/ selected stateKey (handleFilterChange checkbox stateKey fs) =
            selected stateKey fs ++ [checkboxValue (cb_value checkbox)]
  else sublist (selected stateKey (handleFilterChange checkbox stateKey fs))
               (selected stateKey fs).
Proof.
  rewrite handleFilterChange_unfold. cbv zeta.
  destruct (cb_checked checkbox).
  - destruct (negb _); [right; apply selected_set_same|now left].
  - rewrite selected_set_same.
    induction (selected stateKey fs) as [|x l IH]; [constructor|].
    cbn [List.filter]. destruct (negb _); [now apply sublist_skip|now apply sublist_cons].
Qed.

(** X6.  What a click on a checkbox does to the selections, with [val] the
    value that lines 290-292 make of the checkbox.  The selections of the
    other three filters stay as they are.  After a click that checks the
    box, the selection allows what it allowed before and what is the same
    as [val], and it is the old selection or the old selection with [val]
    at its end; after a click that unchecks the box, it allows what it
    allowed before and is not the same as [val], and it is a subsequence
    of the old selection. *)
Theorem handleFilterChange_selection (checkbox : Checkbox) (stateKey : StateKey)
    (fs : FilterState) :
  let val := checkboxValue (cb_value checkbox) in
  let fs' := handleFilterChange checkbox stateKey fs in
  (forall k, k <> stateKey -> selected k fs' = selected k fs)
  /\ (forall v, allowed (selected stateKey fs') v <->
        if cb_checked checkbox
        then allowed (selected stateKey fs) v \/ sameValue val v
        else allowed (selected stateKey fs) v /\ ~ sameValue val v)
  /\ (if cb_checked checkbox
      then selected stateKey fs' = selected stateKey fs
           \/ selected stateKey fs' = selected stateKey fs ++ [val]
      else sublist (selected stateKey fs') (selected stateKey fs)).
Proof.
  cbv zeta. split; [intros k; apply handleFilterChange_other|].
  split; [intros v; apply handleFilterChange_allowed|apply handleFilterChange_shape].
Qed.

(** ** Trimming, and reading a printed integer *)

(** *** Reversal and trimming *)

Lemma string_rev_onto_app s acc : string_rev_onto s acc = string_rev s +:+ acc.
Proof.
  unfold string_rev. revert acc. induction s as [|c s IH]; intros acc; [reflexivity|].
  cbn [string_rev_onto]. rewrite IH, (IH (String c "")), append_assoc. reflexivity.
Qed.

Lemma string_rev_cons c s : string_rev (String c s) = string_rev s +:+ String c "".
Proof. unfold string_rev at 1. cbn [string_rev_onto]. apply string_rev_onto_app. Qed.

Lemma string_rev_append s1 s2 : string_rev (s1 +:+ s2) = string_rev s2 +:+ string_rev s1.
Proof.
  induction s1 as [|c s1 IH].
  - now rewrite append_nil_r.
  - now rewrite append_cons, !string_rev_cons, IH, append_assoc.
Qed.

Lemma string_rev_involutive s : string_rev (string_rev s) = s.
Proof.
  induction s as [|c s IH]; [reflexivity|].
  now rewrite string_rev_cons, string_rev_append, IH.
Qed.

Lemma trimStart_plain s : starts_plain s -> trimStart s = s.
Proof. destruct s as [|c s]; [reflexivity|]. cbn. now intros ->. Qed.

Lemma trimStart_starts_plain s : starts_plain (trimStart s).
Proof.
  induction s as [|c s IH]; [exact I|]. cbn [trimStart].
  destruct (is_white_space c) eqn:E; [exact IH|exact E].
Qed.

Lemma trimStart_suffix s : exists w, s = w +:+ trimStart s.
Proof.
  induction s as [|c s [w IH]]; [now exists ""|]. cbn [trimStart].
  destruct (is_white_space c); [|now exists ""].
  exists (String c w). now rewrite append_cons, <- IH.
Qed.

Lemma trimEnd_prefix s : exists w, s = trimEnd s +:+ w.
Proof.
  unfold trimEnd. destruct (trimStart_suffix (string_rev s)) as [w E].
  exists (string_rev w). rewrite <- string_rev_append, <- E.
  now rewrite string_rev_involutive.
Qed.

Lemma trimEnd_starts_plain s : starts_plain s -> starts_plain (trimEnd s).
Proof.
  intros H. destruct (trimEnd_prefix s) as [w E].
  destruct (trimEnd s) as [|c t]; [exact I|].
  rewrite E in H. exact H.
Qed.

Lemma trimEnd_idempotent s : trimEnd (trimEnd s) = trimEnd s.
Proof.
  unfold trimEnd. rewrite string_rev_involutive.
  now rewrite (trimStart_plain _ (trimStart_starts_plain _)).
Qed.

Lemma trim_idempotent s : trim (trim s) = trim s.
Proof.
  unfold trim.
  rewrite (trimStart_plain (trimEnd (trimStart s)))
    by apply trimEnd_starts_plain, trimStart_starts_plain.
  apply trimEnd_idempotent.
Qed.

Lemma string_forall_append p s1 s2 :
  string_forall p (s1 +:+ s2) = string_forall p s1 && string_forall p s2.
Proof.
  induction s1 as [|c s1 IH]; [reflexivity|].
  rewrite append_cons. cbn [string_forall]. now rewrite IH, andb_assoc.
Qed.

Lemma string_forall_rev p s : string_forall p (string_rev s) = string_forall p s.
Proof.
  induction s as [|c s IH]; [reflexivity|].
  rewrite string_rev_cons, string_forall_append, IH. cbn [string_forall].
  now rewrite andb_true_r, andb_comm.
Qed.

Lemma string_forall_starts_plain s :
  string_forall (fun c => negb (is_white_space c)) s = true -> starts_plain s.
Proof.
  destruct s as [|c s]; [intros; exact I|]. cbn [string_forall starts_plain].
  intros H. apply andb_true_iff in H as [H _]. now apply negb_true_iff in H.
Qed.

(** A string without white space is its own trimming. *)
Lemma trim_plain s :
  string_forall (fun c => negb (is_white_space c)) s = true -> trim s = s.
Proof.
  intros H. unfold trim, trimEnd.
  rewrite (trimStart_plain s) by now apply string_forall_starts_plain.
  rewrite trimStart_plain by (apply string_forall_starts_plain; now rewrite string_forall_rev).
  apply string_rev_involutive.
Qed.

Lemma string_forall_impl (p q : ascii -> bool) s :
  (forall c, p c = true -> q c = true) ->
  string_forall p s = true -> string_forall q s = true.
Proof.
  intros Hpq. induction s as [|c s IH]; [reflexivity|]. cbn [string_forall].
  intros H. apply andb_true_iff in H as [Hc Hs]. now rewrite (Hpq c Hc), IH.
Qed.

Lemma trim_digits n : trim (digits n) = digits n.
Proof.
  apply trim_plain. apply (string_forall_impl is_decimal_digit); [|apply digits_all].
  intros c Hc. now rewrite (proj1 (decimal_digit_plain c Hc)).
Qed.

(** *** Reading a printed integer *)

Lemma prefix_cons a s1 b s2 :
  String.prefix (String a s1) (String b s2) =
  if ascii_dec a b then String.prefix s1 s2 else false.
Proof. reflexivity. Qed.

Lemma digits_no_marker c s :
  is_decimal_digit c = false -> string_forall is_decimal_digit s = true ->
  String.prefix (String "0" (String c "")) s = false.
Proof.
  intros Hc H. destruct s as [|c1 [|c2 s]]; [reflexivity| |].
  - rewrite prefix_cons. now destruct (ascii_dec "0" c1).
  - cbn [string_forall] in H. apply andb_true_iff in H as [_ H].
    apply andb_true_iff in H as [Hc2 _].
    rewrite !prefix_cons. destruct (ascii_dec "0" c1); [|reflexivity].
    destruct (ascii_dec c c2) as [->|]; [congruence|reflexivity].
Qed.

Lemma digits_not_Infinity s :
  string_forall is_decimal_digit s = true -> String.prefix "Infinity" s = false.
Proof.
  intros H. destruct s as [|c1 s]; [reflexivity|].
  cbn [string_forall] in H. apply andb_true_iff in H as [Hc _].
  rewrite prefix_cons. destruct (ascii_dec "I" c1) as [<-|]; [discriminate Hc|reflexivity].
Qed.

Lemma pow10_zero n : pow10 n 0 = num_of_Z n.
Proof.
  unfold pow10, fin, num_of_Z. f_equal.
  transitivity (Qred (inject_Z n)); [|apply inject_Z_Qred].
  apply Qred_complete. change (Qpower (inject_Z 10) 0) with 1%Q. apply Qmult_1_r.
Qed.

Lemma scan_decimal_digits n :
  0 <= n -> scan_decimal (digits n) = Some (num_of_Z n, "").
Proof.
  intros Hn. unfold scan_decimal.
  destruct (digits_plain_head _ (digits_all n) (digits_nonempty n)) as [_ Hs].
  rewrite Hs. unfold scan_unsigned_decimal.
  rewrite (digits_not_Infinity _ (digits_all n)).
  destruct (scan_digits_digits n Hn) as [k Hk]. rewrite Hk.
  cbn [scan_exponent]. change (1 <? 0) with false. cbv iota.
  now rewrite pow10_zero.
Qed.

Lemma parseFloat_digits n : 0 <= n -> parseFloat (digits n) = num_of_Z n.
Proof.
  intros Hn. unfold parseFloat.
  destruct (digits_plain_head _ (digits_all n) (digits_nonempty n)) as [Ht _].
  now rewrite Ht, scan_decimal_digits.
Qed.

Lemma StringToNumber_digits n : 0 <= n -> StringToNumber (digits n) = num_of_Z n.
Proof.
  intros Hn. unfold StringToNumber. rewrite trim_digits.
  destruct (digits n) as [|c s] eqn:E; [now destruct (digits_nonempty n)|].
  rewrite <- E.
  rewrite (digits_no_marker "x" _ eq_refl (digits_all n)),
    (digits_no_marker "X" _ eq_refl (digits_all n)),
    (digits_no_marker "o" _ eq_refl (digits_all n)),
    (digits_no_marker "O" _ eq_refl (digits_all n)),
    (digits_no_marker "b" _ eq_refl (digits_all n)),
    (digits_no_marker "B" _ eq_refl (digits_all n)).
  cbn [orb]. now rewrite scan_decimal_digits.
Qed.

(** The checkbox of a year holds the year. *)
Lemma checkboxValue_year y :
  0 <= y < 10 ^ 21 -> checkboxValue (Number_toString (num_of_Z y)) = VNumber (num_of_Z y).
Proof.
  intros Hy. rewrite Number_toString_integer by exact Hy.
  unfold checkboxValue, isFinite. cbn [ToNumber].
  now rewrite parseFloat_digits, StringToNumber_digits by lia.
Qed.

Lemma checkboxValue_text s : parseFloat s = NaN -> checkboxValue s = VString s.
Proof. intros H. unfold checkboxValue. now rewrite H. Qed.

(** ** The checkbox of an option *)

Lemma visible_selected fs d :
  visible fs d <-> forall k, allowed (selected k fs) (dimension k d).
Proof.
  unfold visible. split.
  - intros (H1 & H2 & H3 & H4) []; assumption.
  - intros H. exact (conj (H K_selectedYears) (conj (H K_selectedCities)
      (conj (H K_selectedNewConstruction) (H K_selectedCityLimits)))).
Qed.

Lemma visible_unchecked checkbox stateKey fs d :
  cb_checked checkbox = false ->
  visible (handleFilterChange checkbox stateKey fs) d <->
  ~ sameValue (checkboxValue (cb_value checkbox)) (dimension stateKey d) /\ visible fs d.
Proof.
  intros Hc. rewrite !visible_selected. split.
  - intros H. split.
    + pose proof (H stateKey) as Hk. rewrite handleFilterChange_allowed, Hc in Hk. tauto.
    + intros k. destruct (decide (k = stateKey)) as [->|Hne].
      * pose proof (H stateKey) as Hk. rewrite handleFilterChange_allowed, Hc in Hk. tauto.
      * rewrite <- (handleFilterChange_other checkbox stateKey fs k Hne). apply H.
  - intros [Hn H] k. destruct (decide (k = stateKey)) as [->|Hne].
    + rewrite handleFilterChange_allowed, Hc. auto.
    + rewrite (handleFilterChange_other checkbox stateKey fs k Hne). apply H.
Qed.

Lemma visible_checked checkbox stateKey fs d :
  cb_checked checkbox = true ->
  visible (handleFilterChange checkbox stateKey fs) d <->
  (allowed (selected stateKey fs) (dimension stateKey d)
   \/ sameValue (checkboxValue (cb_value checkbox)) (dimension stateKey d))
  /\ forall k, k <> stateKey -> allowed (selected k fs) (dimension k d).
Proof.
  intros Hc. rewrite !visible_selected. split.
  - intros H. split.
    + pose proof (H stateKey) as Hk. now rewrite handleFilterChange_allowed, Hc in Hk.
    + intros k Hne. rewrite <- (handleFilterChange_other checkbox stateKey fs k Hne). apply H.
  - intros [Hn H] k. destruct (decide (k = stateKey)) as [->|Hne].
    + now rewrite handleFilterChange_allowed, Hc.
    + rewrite (handleFilterChange_other checkbox stateKey fs k Hne). now apply H.
Qed.

Lemma uncheck_dashboard checkbox stateKey fs rawData :
  cb_checked checkbox = false ->
  updateDashboard (handleFilterChange checkbox stateKey fs) rawData =
  filter (fun d => ~ sameValue (checkboxValue (cb_value checkbox)) (dimension stateKey d))
         (updateDashboard fs rawData).
Proof.
  intros Hc. rewrite !updateDashboard_filter, list_filter_filter.
  apply filter_iff_in. intros d _. now apply visible_unchecked.
Qed.

Lemma check_dashboard checkbox stateKey fs rawData d :
  cb_checked checkbox = true ->
  d ∈ updateDashboard (handleFilterChange checkbox stateKey fs) rawData <->
  d ∈ rawData
  /\ (allowed (selected stateKey fs) (dimension stateKey d)
      \/ sameValue (checkboxValue (cb_value checkbox)) (dimension stateKey d))
  /\ forall k, k <> stateKey -> allowed (selected k fs) (dimension k d).
Proof.
  intros Hc. rewrite updateDashboard_filter, list_elem_of_filter.
  rewrite visible_checked by exact Hc. tauto.
Qed.

Lemma sameValue_integers y z :
  sameValue (VNumber (num_of_Z y)) (VNumber (num_of_Z z)) <-> z = y.
Proof.
  unfold sameValue, num_of_Z. cbn [SameValueZero isNaN_num andb orb].
  rewrite num_eqb_Qeq. unfold Qeq, inject_Z. cbn [Qnum Qden]. lia.
Qed.

Lemma sameValue_strings s v : sameValue (VString s) v <-> v = VString s.
Proof.
  unfold sameValue. destruct v as [| |x|x|x|x]; cbn [SameValueZero];
    try (split; discriminate).
  rewrite String.eqb_eq. split; congruence.
Qed.

(** X7.  The checkbox of a year, whose value is the year as line 269 prints
    it.  Unchecking it takes the sales of that year, and no other, out of
    what the dashboard shows; checking it shows, of the sales that the
    other three selections allow, those whose year was allowed before and
    those of that year. *)
Theorem year_checkbox_toggles (y : Z) (fs : FilterState) (rawData : list Sale) :
  0 <= y < 10 ^ 21 ->
  let box := fun c => {| cb_value := Number_toString (num_of_Z y); cb_checked := c |} in
  let ofYear := fun d : Sale => sameValue (VNumber (num_of_Z y)) (year d) in
  updateDashboard (handleFilterChange (box false) K_selectedYears fs) rawData
    = filter (fun d => ~ ofYear d) (updateDashboard fs rawData)
  /\ (forall d,
        d ∈ updateDashboard (handleFilterChange (box true) K_selectedYears fs) rawData <->
        d ∈ rawData
        /\ (allowed (selectedYears fs) (year d) \/ ofYear d)
        /\ allowed (selectedCities fs) (city d)
        /\ allowed (selectedNewConstruction fs) (newConstruction d)
        /\ allowed (selectedCityLimits fs) (insideCityLimits d))
  /\ (forall d z, year d = VNumber (num_of_Z z) -> (ofYear d <-> z = y)).
Proof.
  intros Hy box ofYear. split; [|split].
  - rewrite uncheck_dashboard by reflexivity. cbn [box cb_value dimension].
    now rewrite checkboxValue_year.
  - intros d. rewrite check_dashboard by reflexivity. cbn [box cb_value dimension selected].
    rewrite checkboxValue_year by exact Hy. fold (ofYear d). split.
    + intros (Hd & Hyr & H). split; [exact Hd|]. split; [exact Hyr|].
      exact (conj (H K_selectedCities ltac:(discriminate))
               (conj (H K_selectedNewConstruction ltac:(discriminate))
                     (H K_selectedCityLimits ltac:(discriminate)))).
    + intros (Hd & Hyr & H1 & H2 & H3). split; [exact Hd|]. split; [exact Hyr|].
      intros [] Hk; try assumption. congruence.
  - intros d z E. unfold ofYear. rewrite E. apply sameValue_integers.
Qed.

(** X8.  The checkbox of an option whose text does not start with a number.
    Unchecking it takes the sales with that text in the dimension of the
    filter, and no other, out of what the dashboard shows; checking it
    shows, of the sales that the other three selections allow, those
    whose value in that dimension was allowed before and those with that
    text. *)
Theorem text_checkbox_toggles (s : string) (stateKey : StateKey) (fs : FilterState)
    (rawData : list Sale) :
  parseFloat s = NaN ->
  let box := fun c => {| cb_value := s; cb_checked := c |} in
  updateDashboard (handleFilterChange (box false) stateKey fs) rawData
    = filter (fun d => dimension stateKey d <> VString s) (updateDashboard fs rawData)
  /\ (forall d,
        d ∈ updateDashboard (handleFilterChange (box true) stateKey fs) rawData <->
        d ∈ rawData
        /\ (allowed (selected stateKey fs) (dimension stateKey d)
            \/ dimension stateKey d = VString s)
        /\ forall k, k <> stateKey -> allowed (selected k fs) (dimension k d)).
Proof.
  intros Hs box. split.
  - rewrite uncheck_dashboard by reflexivity. cbn [box cb_value].
    rewrite checkboxValue_text by exact Hs.
    apply filter_iff_in. intros d _. now rewrite sameValue_strings.
  - intros d. rewrite check_dashboard by reflexivity. cbn [box cb_value].
    rewrite checkboxValue_text by exact Hs. now rewrite sameValue_strings.
Qed.

(** ** The collection after an upload *)

Section UploadStore.
Context {host : Host}.

Lemma commit_cons (w : string * Doc) (batch : list (string * Doc)) (db : Store) :
  commit (w :: batch) db = commit batch (<[fst w := snd w]> db).
Proof. reflexivity. Qed.

Lemma commit_snoc (batch : list (string * Doc)) (w : string * Doc) (db : Store) :
  commit (batch ++ [w]) db = <[fst w := snd w]> (commit batch db).
Proof. now rewrite commit_app. Qed.

Lemma commit_untouched (batch : list (string * Doc)) (db : Store) id :
  id ∉ map fst batch -> commit batch db !! id = db !! id.
Proof.
  revert db. induction batch as [|[k r] batch IH]; intros db H; [reflexivity|].
  cbn [map fst] in H. apply not_elem_of_cons in H as [Hne H].
  rewrite commit_cons, IH by exact H. cbn [fst snd]. now rewrite lookup_insert_ne.
Qed.

Lemma commit_last (pre post : list (string * Doc)) (db : Store) id doc :
  id ∉ map fst post -> commit (pre ++ (id, doc) :: post) db !! id = Some doc.
Proof.
  intros H. rewrite commit_app, commit_cons, commit_untouched by exact H.
  cbn [fst snd]. apply lookup_insert_eq.
Qed.

Lemma commit_dom (batch : list (string * Doc)) (db : Store) :
  dom (commit batch db) = dom db ∪ list_to_set (map fst batch).
Proof.
  revert db. induction batch as [|[k r] batch IH]; intros db.
  - cbn [commit foldl map list_to_set]. now rewrite (right_id_L ∅ (∪)).
  - rewrite commit_cons, IH, dom_insert_L. cbn [map fst snd list_to_set].
    rewrite (assoc_L (∪)). f_equal. apply (comm_L (∪)).
Qed.

Lemma commit_union (batch : list (string * Doc)) (db : Store) :
  commit batch db = list_to_map (reverse batch) ∪ db.
Proof.
  revert db. induction batch as [|[k r] batch IH]; intros db.
  - cbn. now rewrite (left_id_L ∅ (∪)).
  - rewrite commit_cons, IH, reverse_cons, list_to_map_app. cbn [fst snd list_to_map].
    rewrite <- (assoc_L (∪)). f_equal.
    change (list_to_map [(k, r)] : Store) with (<[k:=r]> (∅ : Store)).
    now rewrite <- insert_union_l, (left_id_L ∅ (∪)).
Qed.

Lemma commit_twice (batch : list (string * Doc)) (db : Store) :
  commit batch (commit batch db) = commit batch db.
Proof.
  rewrite !commit_union, (assoc_L (∪)). now rewrite (idemp_L (∪)).
Qed.

Lemma cleanRecords_hasKey rawData recs :
  cleanRecords rawData = Ok recs -> Forall hasKey recs.
Proof.
  intros H. eapply Forall_impl; [apply (cleanRecords_retained _ _ H)|].
  intros plain (row & _ & Hr). destruct (retained_hasKey row plain Hr) as (k & Hk & _).
  now exists k.
Qed.

Lemma upload_inv rawData db st :
  uploadDataToFirestore rawData db = Ok st ->
  exists recs, cleanRecords rawData = Ok recs
    /\ st = {| store := commit (writesOf recs) db; addedCount := length recs |}.
Proof.
  intros H. destruct (cleanRecords rawData) as [recs|e] eqn:E.
  - exists recs. split; [reflexivity|].
    rewrite (uploadDataToFirestore_ok rawData db recs E) in H. now injection H as <-.
  - unfold uploadDataToFirestore in H. rewrite E in H. discriminate H.
Qed.

Lemma chunks_concat (recs : list Doc) n :
  concat (map (fun j => chunkAt recs (j * batchSize)) (seq 0 n)) = take (n * batchSize) recs.
Proof.
  induction n as [|n IH]; [reflexivity|].
  rewrite seq_S, map_app, concat_app, IH, Nat.add_0_l.
  cbn [map concat]. rewrite app_nil_r. unfold chunkAt.
  now rewrite take_take_drop, Nat.mul_succ_l.
Qed.

Lemma chunkStart_below total j :
  (j < (total + (batchSize - 1)) / batchSize -> j * batchSize < total)%nat.
Proof.
  change batchSize with 400%nat. intros H.
  pose proof (Nat.div_mod_eq (total + (400 - 1)) 400) as E.
  pose proof (Nat.mod_upper_bound (total + (400 - 1)) 400 ltac:(lia)) as B.
  nia.
Qed.

Lemma chunkAt_length (recs : list Doc) i :
  (i < length recs -> 1 <= length (chunkAt recs i) <= batchSize)%nat.
Proof.
  intros H. unfold chunkAt. rewrite length_take, length_drop.
  change batchSize with 400%nat. lia.
Qed.

End UploadStore.

Section UploadTheorems.
Context {host : Host}.

(** X18.  Uploading a file again, on top of its own result, changes nothing. *)
Theorem upload_idempotent (rawData : list Doc) (db : Store) (st : UploadState) :
  uploadDataToFirestore rawData db = Ok st ->
  uploadDataToFirestore rawData (store st) = Ok st.
Proof.
  intros H. destruct (upload_inv rawData db st H) as (recs & E & ->).
  rewrite (uploadDataToFirestore_ok rawData _ recs E). cbn [store].
  fold (writesOf recs). now rewrite commit_twice.
Qed.

(** X17.  After an upload a document is the last cleaned record with its
    identifier; documents under other identifiers are as they were, and
    no document is deleted. *)
Theorem upload_last_write_wins (rawData : list Doc) (db : Store) (st : UploadState) :
  uploadDataToFirestore rawData db = Ok st ->
  exists recs,
    cleanRecords rawData = Ok recs
    /\ (forall pre record post, recs = pre ++ record :: post ->
          docId record ∉ map docId post -> store st !! docId record = Some record)
    /\ (forall id, id ∉ map docId recs -> store st !! id = db !! id)
    /\ dom (store st) = dom db ∪ list_to_set (map docId recs).
Proof.
  intros H. destruct (upload_inv rawData db st H) as (recs & E & ->).
  exists recs. cbn [store]. split; [exact E|]. split; [|split].
  - intros pre record post -> Hn. unfold writesOf. rewrite map_app. cbn [map].
    apply commit_last. now rewrite map_map.
  - intros id Hn. apply commit_untouched. unfold writesOf. now rewrite map_map.
  - rewrite commit_dom. unfold writesOf. now rewrite map_map.
Qed.

(** X15.  The batches of an upload are the cleaned records cut, in order, into
    chunks of 400, the last one shorter when the count is no multiple of
    400; no batch is empty, and each turn of the loop commits the writes
    of its chunk and counts them. *)
Theorem upload_batches (rawData : list Doc) (recs : list Doc) :
  cleanRecords rawData = Ok recs ->
  concat (map (chunkAt recs) (chunkStarts (length recs))) = recs
  /\ Forall (fun i =>
        (1 <= length (chunkAt recs i) <= 400)%nat
        /\ forall st, uploadChunk recs st i =
             Ok {| store := commit (writesOf (chunkAt recs i)) (store st);
                   addedCount := (addedCount st + length (chunkAt recs i))%nat |})
       (chunkStarts (length recs))
  /\ length (chunkStarts (length recs)) = ((length recs + 399) / 400)%nat.
Proof.
  intros H. split; [|split].
  - unfold chunkStarts. rewrite map_map, chunks_concat.
    apply take_ge, chunkStarts_cover.
  - apply Forall_forall. intros i Hi. unfold chunkStarts in Hi.
    apply list_elem_of_fmap in Hi as (j & -> & Hj).
    apply list_elem_of_In, in_seq in Hj. split.
    + apply chunkAt_length, chunkStart_below. lia.
    + intros st. apply uploadChunk_ok. now apply (cleanRecords_hasKey rawData).
  - unfold chunkStarts. now rewrite length_map, length_seq.
Qed.

End UploadTheorems.

Lemma replace_char_spec c d s :
  String.length (replace_char c d s) = String.length s
  /\ (c <> d -> string_forall (fun x => negb (Ascii.eqb x c)) (replace_char c d s) = true)
  /\ (string_forall (fun x => negb (Ascii.eqb x c)) s = true -> replace_char c d s = s).
Proof.
  unfold replace_char. induction s as [|x s (IH1 & IH2 & IH3)]; [now repeat split|].
  cbn [string_map String.length string_forall]. split; [now rewrite IH1|]. split.
  - intros Hne. rewrite (IH2 Hne), andb_true_r.
    destruct (Ascii.eqb x c) eqn:E; [|now rewrite E].
    apply negb_true_iff, Ascii.eqb_neq. congruence.
  - intros H. apply andb_true_iff in H as [Hx Hs]. apply negb_true_iff in Hx.
    now rewrite Hx, (IH3 Hs).
Qed.

(** X16.  The identifier of line 726 exists when [uniqueKey] is a string; it
    holds no ["/"], is as long as the key, and is the key itself when the
    key holds no ["/"]. *)
Theorem safeKeyOf_no_slash (record : Doc) (k : string) :
  get record "uniqueKey" = VString k ->
  exists id,
    safeKeyOf record = Ok id
    /\ id = docId record
    /\ string_forall (fun c => negb (Ascii.eqb c "/")) id = true
    /\ String.length id = String.length k
    /\ (string_forall (fun c => negb (Ascii.eqb c "/")) k = true -> id = k).
Proof.
  intros H. exists (replace_char "/" "_" k). unfold safeKeyOf, docId. rewrite H.
  destruct (replace_char_spec "/" "_" k) as (H1 & H2 & H3).
  split; [reflexivity|]. split; [reflexivity|]. split; [now apply H2|]. split; assumption.
Qed.

(** ** The rows of a file *)

Section RowFacts.
Context {host : Host}.

Lemma rowThrows_iff row : rowThrows row = true <-> toRecord row = Throw TypeError.
Proof.
  rewrite toRecord_throws_iff. unfold rowThrows.
  destruct (parseDate (get row "Closed Date")) as [t|].
  - destruct (js_or (get row "Address") (VString "")) as [| |b|n|s|t'] eqn:E;
      try (split; [intros _; split; [eauto|discriminate] | reflexivity]).
    split; [discriminate|]. intros [_ H]. now destruct (H s).
  - split; [discriminate|]. intros [[t [=]] _].
Qed.

Lemma toRecord_kept row d :
  toRecord row = Ok d ->
  keepRecord d = rowKept row
  /\ (rowKept row = true -> exists plain, d = Some plain /\ retainedAs row plain).
Proof.
  intros H. unfold rowKept. destruct d as [plain|].
  - destruct (toRecord_Some_inv row plain H) as (t & k & Ht & _ & _ & _ & Hp & Hy & _).
    rewrite Ht. cbv zeta. rewrite (keepRecord_Some plain _ _ Hp Hy).
    split; [reflexivity|]. intros Hk. exists plain. split; [reflexivity|].
    split; [exact H|]. now rewrite (keepRecord_Some plain _ _ Hp Hy).
  - destruct (parseDate (get row "Closed Date")) as [t|] eqn:Ht.
    + exfalso.
      destruct (uniqueKeyOf (Some t) row (coercePrice (get row "Price"))) as [k|[]] eqn:Hk.
      * destruct (toRecord_valid row t k Ht Hk) as (plain & Hp & _). congruence.
      * rewrite (toRecord_throws row t Ht Hk) in H. discriminate.
    + split; [reflexivity|discriminate].
Qed.

Lemma cleanRecords_throws rawData :
  cleanRecords rawData = Throw TypeError <-> Exists (fun row => rowThrows row = true) rawData.
Proof.
  induction rawData as [|row rows IH].
  - rewrite Exists_nil. split; [discriminate|tauto].
  - rewrite Exists_cons, rowThrows_iff, <- IH, cleanRecords_cons.
    destruct (toRecord row) as [d|[]]; cbn [mbind result_bind].
    + destruct (cleanRecords rows) as [recs|[]]; cbn [mbind mret result_bind result_ret].
      * split; [discriminate|]. intros [|]; discriminate.
      * tauto.
    + tauto.
Qed.

Lemma cleanRecords_kept rawData recs :
  cleanRecords rawData = Ok recs -> Forall2 retainedAs (List.filter rowKept rawData) recs.
Proof.
  revert recs. induction rawData as [|row rows IH]; intros recs H.
  - injection H as <-. constructor.
  - rewrite cleanRecords_cons in H.
    destruct (toRecord row) as [d|e] eqn:Hd; [|discriminate].
    destruct (cleanRecords rows) as [recs'|e]; [|discriminate].
    cbv [mbind mret result_bind result_ret] in H. injection H as <-.
    destruct (toRecord_kept row d Hd) as [Hk Hr]. cbn [List.filter]. rewrite Hk.
    destruct (rowKept row); [|now apply IH].
    destruct (Hr eq_refl) as (plain & -> & Hp). cbn [from_option].
    constructor; [exact Hp|now apply IH].
Qed.

End RowFacts.

Section RowTheorems.
Context {host : Host}.

(** X11.  The upload throws exactly when some row with a valid date has an
    ['Address'] cell that is truthy and no string; otherwise it returns,
    and its cleaned records are, in the order of the rows and one for
    each, the records of the rows with a valid date, a finite price above
    zero and a year above 2000. *)
Theorem upload_outcome (rawData : list Doc) (db : Store) :
  (uploadDataToFirestore rawData db = Throw TypeError
   <-> Exists (fun row => rowThrows row = true) rawData)
  /\ (Forall (fun row => rowThrows row = false) rawData ->
      exists recs,
        cleanRecords rawData = Ok recs
        /\ Forall2 retainedAs (List.filter rowKept rawData) recs
        /\ uploadDataToFirestore rawData db =
             Ok {| store := commit (writesOf recs) db; addedCount := length recs |}).
Proof.
  split.
  - rewrite <- cleanRecords_throws. destruct (cleanRecords rawData) as [recs|[]] eqn:E.
    + rewrite (uploadDataToFirestore_ok rawData db recs E). split; discriminate.
    + unfold uploadDataToFirestore. rewrite E. tauto.
  - intros H. destruct (cleanRecords rawData) as [recs|[]] eqn:E.
    + exists recs. split; [reflexivity|]. split; [now apply cleanRecords_kept|].
      now apply uploadDataToFirestore_ok.
    + apply cleanRecords_throws, Exists_exists in E as (row & Hrow & Ht).
      rewrite Forall_forall in H. rewrite (H row Hrow) in Ht. discriminate.
Qed.

End RowTheorems.

(** ** Stored records *)

Lemma Qtrunc_Z z : Qtrunc (inject_Z z) = z.
Proof. unfold Qtrunc. destruct (_ <? _); [apply Qceiling_Z|apply Qfloor_Z]. Qed.

Lemma Qtrunc_bounds q m :
  0 <= m -> (Qabs q <= inject_Z m)%Q -> - m <= Qtrunc q <= m.
Proof.
  intros Hm H. apply Qabs_Qle_condition in H as [H1 H2]. unfold Qtrunc.
  destruct (Qsgn q <? 0) eqn:E.
  - apply Z.ltb_lt in E. unfold Qsgn in E.
    assert (Hq : (q <= 0)%Q) by (unfold Qle; cbn; destruct (Qnum q); cbn in *; lia).
    split.
    + rewrite <- (Qceiling_Z (- m)). apply Qceiling_resp_le.
      now rewrite inject_Z_opp.
    + transitivity 0; [|exact Hm].
      rewrite <- (Qceiling_Z 0). now apply Qceiling_resp_le.
  - apply Z.ltb_ge in E. unfold Qsgn in E.
    assert (Hq : (0 <= q)%Q) by (unfold Qle; cbn; destruct (Qnum q); cbn in *; lia).
    split.
    + transitivity 0; [lia|].
      rewrite <- (Qfloor_Z 0). now apply Qfloor_resp_le.
    + rewrite <- (Qfloor_Z m). now apply Qfloor_resp_le.
Qed.

Lemma TimeClip_bounds x t : TimeClip x = Some t -> - maxTime <= t <= maxTime.
Proof.
  destruct x as [| | |q]; try discriminate. cbn [TimeClip].
  destruct (Qle_bool (Qabs q) (inject_Z maxTime)) eqn:E; [|discriminate].
  intros [= <-]. apply Qle_bool_iff in E. now apply Qtrunc_bounds.
Qed.

Lemma TimeClip_of_Z t : - maxTime <= t <= maxTime -> TimeClip (num_of_Z t) = Some t.
Proof.
  intros H. unfold num_of_Z. cbn [TimeClip].
  assert (E : Qle_bool (Qabs (inject_Z t)) (inject_Z maxTime) = true).
  { apply Qle_bool_iff, Qabs_Qle_condition.
    rewrite <- inject_Z_opp, <- !Zle_Qle. exact H. }
  now rewrite E, Qtrunc_Z.
Qed.

Section RecordFacts.
Context {host : Host}.

Lemma parseDate_bounds v t : parseDate v = Some t -> - maxTime <= t <= maxTime.
Proof.
  unfold parseDate, Date_new.
  destruct v as [| |b|n|s|t0]; try discriminate; apply TimeClip_bounds.
Qed.

(** Line 705 restores the date that line 678 parsed. *)
Lemma restored_date v t :
  parseDate v = Some t -> Date_new (VNumber (Date_getTime (Some t))) = Some t.
Proof.
  intros H. cbn [Date_new Date_getTime ToNumber].
  now apply TimeClip_of_Z, (parseDate_bounds v).
Qed.

Lemma parseDate_again v : parseDate (VDate (parseDate v)) = parseDate v.
Proof.
  destruct (parseDate v) as [t|] eqn:E; [|reflexivity].
  cbn [parseDate]. now apply (restored_date v).
Qed.

Lemma plain_more_fields (a c s nc icl k : string) (p pp sq dm be ba y : number)
    (t t' : option Z) :
  let plain : Doc :=
    <["date" := VDate t']>
      (JSON_roundtrip (list_to_map [
         ("address", VString a); ("date", VDate t); ("price", VNumber p);
         ("pricePerSqFt", VNumber pp); ("sqFt", VNumber sq); ("daysOnMarket", VNumber dm);
         ("city", VString c); ("subdivision", VString s); ("beds", VNumber be);
         ("baths", VNumber ba); ("year", VNumber y); ("newConstruction", VString nc);
         ("insideCityLimits", VString icl); ("uniqueKey", VString k)])) in
  plain !! "pricePerSqFt" = Some (jsonNumber pp)
  /\ plain !! "daysOnMarket" = Some (jsonNumber dm)
  /\ plain !! "beds" = Some (jsonNumber be)
  /\ plain !! "baths" = Some (jsonNumber ba)
  /\ plain !! "city" = Some (VString c)
  /\ plain !! "subdivision" = Some (VString s)
  /\ plain !! "newConstruction" = Some (VString nc)
  /\ plain !! "insideCityLimits" = Some (VString icl).
Proof.
  intros plain. subst plain. repeat split; vm_compute; reflexivity.
Qed.

Lemma toRecord_more_fields row plain :
  toRecord row = Ok (Some plain) ->
  exists t,
    parseDate (get row "Closed Date") = Some t
    /\ plain !! "date" = Some (VDate (Some t))
    /\ plain !! "pricePerSqFt" =
         Some (jsonNumber (ToNumber (js_or (VNumber (parsePrice (get row "Price Per SQFT")))
                                           (VNumber (Fin 0)))))
    /\ plain !! "daysOnMarket" =
         Some (jsonNumber (ToNumber (js_or (get row "Days On Market") (VNumber (Fin 0)))))
    /\ plain !! "beds" = Some (jsonNumber (ToNumber (js_or (get row "Beds") (VNumber (Fin 0)))))
    /\ plain !! "baths" =
         Some (jsonNumber (ToNumber (js_or (get row "Full Baths") (VNumber (Fin 0)))))
    /\ plain !! "city" =
         Some (VString (trim (ToString (js_or (get row "City") (VString "Unknown")))))
    /\ plain !! "subdivision" =
         Some (VString (trim (ToString (js_or (get row "Subdivision") (VString "")))))
    /\ plain !! "newConstruction" =
         Some (VString (normalizeYesNo (get row "New Construction?")))
    /\ plain !! "insideCityLimits" =
         Some (VString (normalizeCityLimits
                 (js_or (get row "Inside City Limits") (get row "Inside City Limit")))).
Proof.
  intros H.
  destruct (toRecord_Some_inv row plain H) as (t & k & Ht & Hk & _).
  exists t. split; [exact Ht|].
  unfold toRecord in H. rewrite Ht in H. simpl isNaN_num in H. cbv iota in H.
  rewrite Hk in H. cbn [mbind mret result_bind result_ret] in H.
  rewrite (restored_date _ t Ht) in H. injection H as <-.
  split; [apply lookup_insert_eq|].
  edestruct (plain_more_fields (storedAddress row)) as (H1 & H2 & H3 & H4 & H5 & H6 & H7 & H8).
  split; [exact H1|]. split; [exact H2|]. split; [exact H3|]. split; [exact H4|].
  split; [exact H5|]. split; [exact H6|]. split; [exact H7|exact H8].
Qed.

Lemma normalizeYesNo_range v : normalizeYesNo v = "Yes" \/ normalizeYesNo v = "No".
Proof.
  unfold normalizeYesNo. destruct (negb (ToBoolean v)); [now right|].
  destruct (_ || _); [now left|now right].
Qed.

Lemma normalizeCityLimits_range v :
  normalizeCityLimits v = "Yes" \/ normalizeCityLimits v = "No"
  \/ normalizeCityLimits v = "Unknown".
Proof.
  unfold normalizeCityLimits. destruct (negb (ToBoolean v)); [now right; right|].
  destruct (_ || _); [now left|]. destruct (_ || _); [now right; left|now right; right].
Qed.

End RecordFacts.

Section RecordCore.
Context {host : Host}.

Lemma toRecord_dated row plain :
  toRecord row = Ok (Some plain) ->
  exists t, parseDate (get row "Closed Date") = Some t
    /\ plain !! "date" = Some (VDate (Some t)).
Proof.
  intros H. destruct (toRecord_more_fields row plain H) as (t & Ht & Hd & _). eauto.
Qed.

Lemma retained_core row plain :
  retainedAs row plain ->
  exists (t : Z) (p : Q),
    parseDate (get row "Closed Date") = Some t
    /\ plain !! "date" = Some (VDate (Some t))
    /\ ToNumber (coercePrice (get row "Price")) = Fin p
    /\ plain !! "price" = Some (VNumber (Fin p))
    /\ (0 < p)%Q
    /\ plain !! "year" = Some (VNumber (num_of_Z (YearFromTime (t + LocalTZA t))))
    /\ 2000 < YearFromTime (t + LocalTZA t).
Proof.
  intros [Hr Hk].
  destruct (toRecord_Some_inv row plain Hr) as (t & k & Ht & _ & _ & _ & Hp & Hy & _).
  destruct (toRecord_dated row plain Hr) as (t' & Ht' & Hd).
  rewrite Ht in Ht'. injection Ht' as <-.
  rewrite (keepRecord_Some plain _ _ Hp Hy) in Hk.
  apply andb_true_iff in Hk as [Hk Hyr]. apply andb_true_iff in Hk as [Hfin Hpos].
  destruct (ToNumber (coercePrice (get row "Price"))) as [| | |p] eqn:Ep; try discriminate.
  exists t, p. split; [exact Ht|]. split; [exact Hd|]. split; [reflexivity|].
  split; [exact Hp|]. split.
  { unfold num_gtb, num_compare in Hpos. apply (proj2 (Qgt_alt p 0)).
    now destruct (Qcompare p 0). }
  split; [exact Hy|].
  cbn [Date_getFullYear] in Hyr. rewrite num_gtb_of_Z in Hyr. now apply Z.ltb_lt.
Qed.

End RecordCore.

Section RecordTheorems.
Context {host : Host}.

(** X13.  What the upload stores for a row that it retains: the parsed date as
    a valid [Date], a finite price above zero, the local year of the date,
    above 2000, the two flags in their normal forms, a trimmed address and
    city, and in each other number field a finite number or [null]. *)
Theorem stored_record_fields (row plain : Doc) :
  retainedAs row plain ->
  exists (t : Z) (p : Q),
    parseDate (get row "Closed Date") = Some t
    /\ plain !! "date" = Some (VDate (Some t))
    /\ ToNumber (coercePrice (get row "Price")) = Fin p
    /\ plain !! "price" = Some (VNumber (Fin p))
    /\ (0 < p)%Q
    /\ plain !! "year" = Some (VNumber (num_of_Z (YearFromTime (t + LocalTZA t))))
    /\ 2000 < YearFromTime (t + LocalTZA t)
    /\ (plain !! "newConstruction" = Some (VString "Yes")
        \/ plain !! "newConstruction" = Some (VString "No"))
    /\ (plain !! "insideCityLimits" = Some (VString "Yes")
        \/ plain !! "insideCityLimits" = Some (VString "No")
        \/ plain !! "insideCityLimits" = Some (VString "Unknown"))
    /\ (exists a, plain !! "address" = Some (VString a) /\ trim a = a)
    /\ (exists c, plain !! "city" = Some (VString c) /\ trim c = c)
    /\ (forall f, f ∈ measureFields ->
          plain !! f = Some VNull \/ exists q, plain !! f = Some (VNumber (Fin q))).
Proof.
  intros Hr.
  destruct (retained_core row plain Hr) as (t & p & Ht & Hd & Ep & Hp & Hpos & Hy & Hyr).
  destruct (toRecord_Some_inv row plain (proj1 Hr))
    as (_ & _ & _ & _ & _ & _ & _ & _ & Ha & Hs & _).
  destruct (toRecord_more_fields row plain (proj1 Hr))
    as (_ & _ & _ & Hpp & Hdm & Hbe & Hba & Hc & _ & Hnc & Hicl).
  exists t, p. split; [exact Ht|]. split; [exact Hd|]. split; [exact Ep|].
  split; [exact Hp|]. split; [exact Hpos|]. split; [exact Hy|]. split; [exact Hyr|].
  split. { rewrite Hnc. destruct (normalizeYesNo_range (get row "New Construction?")) as [->| ->]; auto. }
  split.
  { rewrite Hicl.
    destruct (normalizeCityLimits_range
                (js_or (get row "Inside City Limits") (get row "Inside City Limit")))
      as [->|[->| ->]]; auto. }
  split; [eexists; split; [exact Ha|apply trim_idempotent]|].
  split; [eexists; split; [exact Hc|apply trim_idempotent]|].
  intros f Hf.
  assert (J : forall n, jsonNumber n = VNull \/ exists q, jsonNumber n = VNumber (Fin q))
    by (intros [| | |q]; cbn; eauto).
  unfold measureFields in Hf.
  repeat (apply elem_of_cons in Hf as [->|Hf]);
    [rewrite Hpp|rewrite Hs|rewrite Hdm|rewrite Hbe|rewrite Hba|now apply elem_of_nil in Hf];
    match goal with |- context [jsonNumber ?n] =>
      destruct (J n) as [->|[q ->]]; eauto end.
Qed.

End RecordTheorems.

(** ** Loading the dashboard *)

Lemma mapM_Ok {A B : Type} (f : A -> result B) (l : list A) :
  Forall (fun a => exists b, f a = Ok b) l ->
  exists bs, mapM f l = Ok bs /\ Forall2 (fun a b => f a = Ok b) l bs.
Proof.
  induction 1 as [|a l [b Hb] _ (bs & Hbs & IH)]; [exists []; split; [reflexivity|constructor]|].
  exists (b :: bs). cbn [mapM]. rewrite Hb, Hbs. split; [reflexivity|now constructor].
Qed.

Lemma filterM_Ok {A : Type} (f : A -> result bool) (l : list A) :
  Forall (fun a => exists b, f a = Ok b) l ->
  exists r, filterM f l = Ok r
    /\ sublist r l
    /\ Forall (fun a => f a = Ok true) r.
Proof.
  induction 1 as [|a l [b Hb] _ (r & Hr & Hs & IH)];
    [exists []; split; [reflexivity|split; constructor]|].
  cbn [filterM]. rewrite Hb, Hr. cbn [mbind mret result_bind result_ret].
  destruct b.
  - exists (a :: r). split; [reflexivity|]. split; [now apply sublist_skip|now constructor].
  - exists r. split; [reflexivity|]. split; [now apply sublist_cons|assumption].
Qed.

Section FetchFacts.
Context {host : Host}.

Lemma fetchDoc_dated d row :
  fetchDoc d = Some row -> exists t, get row "date" = VDate (Some t).
Proof.
  unfold fetchDoc.
  set (dateObj := match get d "date" with VDate t => t | v => Date_new v end).
  destruct dateObj as [t|]; [|discriminate]. cbn. intros [= <-].
  exists t. unfold get. now rewrite lookup_insert_eq.
Qed.

Lemma fetchData_dated docs :
  Forall (fun row => exists t, get row "date" = VDate (Some t)) (fetchData docs).
Proof.
  apply Forall_forall. intros row Hrow. unfold fetchData in Hrow.
  apply list_elem_of_omap in Hrow as (d & _ & Hd). now apply (fetchDoc_dated d).
Qed.

Lemma fetchData_length docs : (length (fetchData docs) <= length docs)%nat.
Proof.
  unfold fetchData. induction docs as [|d docs IH]; [reflexivity|].
  cbn [omap list_omap]. destruct (fetchDoc d); cbn [length]; lia.
Qed.

Lemma toSale_dated row t :
  get row "date" = VDate (Some t) ->
  exists d, toSale row = Ok d
    /\ date d = VDate (Some t)
    /\ year d = VNumber (num_of_Z (YearFromTime (t + LocalTZA t)))
    /\ price d = Dashboard.coercePrice (get row "price")
    /\ address d = js_or (get row "address") (VString "").
Proof.
  intros H. unfold toSale. rewrite H. cbn [call_getFullYear mbind mret result_bind result_ret].
  eexists. split; [reflexivity|]. cbn [date year price address Date_getFullYear].
  repeat split.
Qed.

Lemma keepSale_dated d t :
  date d = VDate (Some t) ->
  keepSale d = Ok (negb (isNaN (price d)) && js_gt (price d) (Fin 0)
                   && (2000 <? YearFromTime (t + LocalTZA t))).
Proof.
  intros H. unfold keepSale. rewrite H.
  destruct (negb (isNaN (price d)) && js_gt (price d) (Fin 0)); [|reflexivity].
  cbn [call_getFullYear mbind mret result_bind result_ret Date_getFullYear andb].
  now rewrite num_gtb_of_Z.
Qed.

Lemma normalize_dated data :
  Forall (fun row => exists t, get row "date" = VDate (Some t)) data ->
  exists sales, normalize data = Ok sales
    /\ Forall validSale sales
    /\ (length sales <= length data)%nat.
Proof.
  intros H. unfold normalize.
  destruct (mapM_Ok toSale data) as (ds & Hds & H2).
  { eapply Forall_impl; [exact H|]. intros row [t Ht].
    destruct (toSale_dated row t Ht) as (d & Hd & _). eauto. }
  rewrite Hds. cbn [mbind result_bind].
  assert (Hdated : Forall (fun d => exists t, date d = VDate (Some t)
                     /\ year d = VNumber (num_of_Z (YearFromTime (t + LocalTZA t)))) ds).
  { clear Hds. induction H2 as [|row d data ds Hd _ IH]; [constructor|].
    apply Forall_cons in H as [[t Ht] H]. constructor; [|now apply IH].
    destruct (toSale_dated row t Ht) as (d' & Hd' & H1 & H3 & _).
    rewrite Hd in Hd'. injection Hd' as <-. eauto. }
  destruct (filterM_Ok keepSale ds) as (sales & Hsales & Hsub & Hkept).
  { eapply Forall_impl; [exact Hdated|]. intros d (t & Ht & _).
    rewrite (keepSale_dated d t Ht). eauto. }
  exists sales. split; [exact Hsales|]. split.
  - apply Forall_forall. intros d Hd.
    rewrite Forall_forall in Hkept, Hdated.
    destruct (Hdated d) as (t & Ht & Hy); [eapply elem_of_sublist; eassumption|].
    pose proof (Hkept d Hd) as Hk. rewrite (keepSale_dated d t Ht) in Hk.
    injection Hk as Hk. apply andb_true_iff in Hk as [Hk Hyr].
    apply andb_true_iff in Hk as [Hn Hg].
    exists t. split; [exact Ht|]. split; [exact Hy|]. split; [now apply Z.ltb_lt|].
    split; [now apply negb_true_iff|exact Hg].
  - apply sublist_length in Hsub. rewrite Hsub.
    apply Forall2_length in H2. lia.
Qed.

Lemma dedupFrom_text seen l :
  Forall (fun d => exists t, date d = VDate t) l ->
  (Forall textAddress l -> dedupFrom seen l = Ok (keepFirst seen l))
  /\ (~ Forall textAddress l -> dedupFrom seen l = Throw TypeError).
Proof.
  intros Hd. split.
  - intros Ha. apply dedupFrom_canonical.
    apply Forall_forall. intros d Hin. rewrite Forall_forall in Hd, Ha.
    destruct (Hd d Hin) as [t Ht]. destruct (Ha d Hin) as [a Haddr]. now exists a, t.
  - revert seen. induction Hd as [|d l [t Ht] Hl IH]; intros seen Hn.
    + destruct Hn. constructor.
    + cbn [dedupFrom]. unfold fingerprint. rewrite Ht.
      cbn [call_getTime mbind mret result_bind result_ret].
      destruct (address d) as [| |b|n|a|t'] eqn:Ea; try reflexivity.
      cbn [call_trim mbind mret result_bind result_ret].
      assert (Hn' : ~ Forall textAddress l).
      { intros Hall. apply Hn. constructor; [now exists a|exact Hall]. }
      destruct (bool_decide _); [now apply IH|]. now rewrite IH.
Qed.

End FetchFacts.

Section FetchTheorems.
Context {host : Host}.

(** X10.  Loading the dashboard.  Every fetched row has a valid [Date], so that
    lines 144-172 return for whatever the collection holds, with sales
    that each have a valid date, its local year, above 2000, and a price
    above zero, and no more sales than documents.  The duplicate filter
    then returns exactly when the address of each of them is a string;
    the records it keeps are a subsequence of those sales with no
    fingerprint twice, and the default filter state is built from them. *)
Theorem dashboard_load (docs : list Doc) :
  Forall (fun row => exists t, get row "date" = VDate (Some t)) (fetchData docs)
  /\ exists sales,
       normalize (fetchData docs) = Ok sales
       /\ Forall validSale sales
       /\ (length sales <= length docs)%nat
       /\ (Forall textAddress sales ->
           exists rawData,
             processData (fetchData docs) = Ok (rawData, initFilterState rawData)
             /\ sublist rawData sales
             /\ NoDup (map keyOf rawData)
             /\ (forall k, k ∈ map keyOf rawData <-> k ∈ map keyOf sales))
       /\ (~ Forall textAddress sales -> processData (fetchData docs) = Throw TypeError).
Proof.
  split; [apply fetchData_dated|].
  destruct (normalize_dated (fetchData docs) (fetchData_dated docs)) as (sales & Hn & Hv & Hl).
  exists sales. split; [exact Hn|]. split; [exact Hv|].
  split; [pose proof (fetchData_length docs); lia|].
  assert (Hd : Forall (fun d => exists t, date d = VDate t) sales).
  { eapply Forall_impl; [exact Hv|]. intros d (t & Ht & _). eauto. }
  unfold processData. rewrite Hn. cbn [mbind result_bind]. unfold dedup. split.
  - intros Ha. exists (keepFirst ∅ sales).
    rewrite (proj1 (dedupFrom_text ∅ sales Hd) Ha). split; [reflexivity|].
    split; [apply keepFirst_sublist|]. split; [apply keepFirst_NoDup|].
    intros k. rewrite keepFirst_keys, elem_of_empty. tauto.
  - intros Ha. now rewrite (proj2 (dedupFrom_text ∅ sales Hd) Ha).
Qed.

End FetchTheorems.

(** ** From the upload to the dashboard *)

Section RoundTrip.
Context {host : Host}.

Lemma coercePrice_number v :
  typeof v = TNumber \/ typeof v = TString ->
  Admin.coercePrice v = VNumber (ToNumber (Admin.coercePrice v)).
Proof.
  unfold Admin.coercePrice.
  destruct v as [| |b|n|s|t]; intros [H|H]; try discriminate H.
  - cbn [eq_null orb]. now destruct (isNaN (VNumber n)).
  - cbn [eq_null orb]. now destruct (isNaN (VNumber _)).
Qed.

Lemma js_or_text a v : a <> "" -> js_or (VString a) v = VString a.
Proof.
  intros Hne. unfold js_or. cbn [ToBoolean].
  now rewrite (proj2 (String.eqb_neq a "") Hne).
Qed.

Lemma storedAddress_text row a :
  get row "Address" = VString a -> a <> "" -> storedAddress row = trim a.
Proof.
  intros Ha Hne. unfold storedAddress. rewrite Ha.
  now rewrite !(js_or_text a _ Hne).
Qed.

Lemma js_or_empty s : js_or (VString s) (VString "") = VString s.
Proof.
  unfold js_or. cbn [ToBoolean]. destruct (String.eqb s "") eqn:E; [|reflexivity].
  apply String.eqb_eq in E. now rewrite E.
Qed.

Lemma fetchDoc_stored plain t :
  plain !! "date" = Some (VDate (Some t)) -> fetchDoc plain = Some plain.
Proof.
  intros H. unfold fetchDoc, get. rewrite H. cbn. now rewrite insert_id.
Qed.

(** X19.  The dashboard on a record of the upload.  For a row that is retained,
    whose ['Address'] cell is a string that is not empty and whose price
    cell is a number or a string, the stored record is fetched as it is
    and kept by lines 144-172; its sale has the stored address and price,
    and the key of line 181 is the [uniqueKey] of line 698. *)
Theorem upload_then_dashboard (row plain : Doc) (a : string) :
  retainedAs row plain ->
  get row "Address" = VString a -> a <> "" ->
  typeof (get row "Price") = TNumber \/ typeof (get row "Price") = TString ->
  exists sale k,
    fetchData [plain] = [plain]
    /\ normalize [plain] = Ok [sale]
    /\ address sale = VString (trim a)
    /\ price sale = VNumber (ToNumber (Admin.coercePrice (get row "Price")))
    /\ plain !! "uniqueKey" = Some (VString k)
    /\ fingerprint sale = Ok k.
Proof.
  intros Hr Ha Hne Hp.
  destruct (retained_core row plain Hr) as (t & p & Ht & Hd & Ep & Hpr & Hpos & Hy & Hyr).
  destruct (toRecord_Some_inv row plain (proj1 Hr))
    as (t' & k & Ht' & Hk & _ & Hu & _ & _ & Hsa & _).
  rewrite Ht in Ht'. injection Ht' as <-.
  assert (Gd : get plain "date" = VDate (Some t)) by (unfold get; now rewrite Hd).
  destruct (toSale_dated plain t Gd) as (sale & Hs & Sd & Sy & Sp & Sa).
  assert (Sp' : price sale = VNumber (Fin p)).
  { rewrite Sp. unfold get. rewrite Hpr. reflexivity. }
  assert (Sa' : address sale = VString (trim a)).
  { assert (Ga : get plain "address" = VString (storedAddress row))
      by (unfold get; now rewrite Hsa).
    now rewrite Sa, Ga, js_or_empty, (storedAddress_text row a Ha Hne). }
  exists sale, k.
  split. { unfold fetchData. cbn [omap list_omap]. now rewrite (fetchDoc_stored plain t Hd). }
  split.
  { unfold normalize. cbn [mapM]. rewrite Hs. cbn [mbind mret result_bind result_ret filterM].
    rewrite (keepSale_dated sale t Sd), Sp'.
    assert (E1 : js_gt (VNumber (Fin p)) (Fin 0) = true).
    { unfold js_gt, num_gtb, num_compare. cbn [ToNumber].
      now rewrite (proj1 (Qgt_alt p 0) Hpos). }
    rewrite E1. cbn [isNaN ToNumber isNaN_num negb andb].
    now rewrite (proj2 (Z.ltb_lt _ _) Hyr). }
  split; [exact Sa'|]. split; [now rewrite Sp', Ep|]. split; [exact Hu|].
  unfold fingerprint. rewrite Sd, Sa', Sp'.
  cbn [call_getTime call_trim mbind mret result_bind result_ret].
  rewrite trim_idempotent.
  apply uniqueKeyOf_Ok in Hk as (a' & Ha' & ->).
  rewrite Ha, js_or_empty in Ha'. injection Ha' as <-.
  rewrite (coercePrice_number _ Hp), Ep. reflexivity.
Qed.

End RoundTrip.

(** ** The two flags *)

Lemma starts_numeric_append s1 s2 : starts_numeric s1 -> starts_numeric (s1 +:+ s2).
Proof. destruct s1 as [|c s1]; [intros []|]. now rewrite append_cons. Qed.

Lemma digits_starts_numeric n : starts_numeric (digits n).
Proof.
  pose proof (digits_all n) as H. pose proof (digits_nonempty n) as Hne.
  destruct (digits n) as [|c s]; [congruence|].
  cbn [string_forall] in H. apply andb_true_iff in H as [H _]. now left.
Qed.

Lemma string_take_starts_numeric n s :
  (0 < n)%nat -> starts_numeric s -> starts_numeric (string_take n s).
Proof. destruct n as [|n]; [lia|]. destruct s as [|c s]; [intros _ []|]. now intros _ H. Qed.

Lemma Number_toString_pos_starts_numeric x : starts_numeric (Number_toString_pos x).
Proof.
  unfold Number_toString_pos.
  destruct (strip_factor 2 _ _) as [a D2]. destruct (strip_factor 5 _ _) as [b D5].
  destruct (D5 =? 1); [|apply starts_numeric_append, digits_starts_numeric].
  destruct (strip_factor 10 _ _) as [z s]. cbv zeta.
  set (ds := digits s). set (k := Z.of_nat (String.length ds)).
  set (n := k + Z.of_nat z - Z.of_nat (Nat.max a b)).
  pose proof (digits_starts_numeric s) as Hds. fold ds in Hds.
  destruct ((k <=? n) && (n <=? 21)); [now apply starts_numeric_append|].
  destruct ((0 <? n) && (n <=? 21)) eqn:E1.
  { apply andb_true_iff in E1 as [E1 _]. apply Z.ltb_lt in E1.
    apply starts_numeric_append, string_take_starts_numeric; [lia|exact Hds]. }
  destruct ((-6 <? n) && (n <=? 0)); [now left|].
  apply starts_numeric_append.
  destruct (k =? 1); [exact Hds|].
  apply starts_numeric_append, string_take_starts_numeric; [lia|exact Hds].
Qed.

Lemma Number_toString_starts_numeric q : starts_numeric (Number_toString (Fin q)).
Proof.
  cbn [Number_toString]. cbv zeta.
  destruct (Qnum (Qred q) =? 0); [now left|].
  destruct (Qnum (Qred q) <? 0); [now right|apply Number_toString_pos_starts_numeric].
Qed.

(** The trimmed, upper-cased text of a string that starts with a digit or
    with ["-"] starts with that character, if it is not empty. *)
Lemma upper_trim_numeric s :
  starts_numeric s ->
  match toUpperCase (trim s) with
  | String c _ => is_decimal_digit c = true \/ c = "-"%char
  | EmptyString => True
  end.
Proof.
  intros H. unfold trim.
  assert (Hp : starts_plain s).
  { destruct s as [|c s]; [exact I|]. destruct H as [H| ->]; [|reflexivity].
    exact (proj1 (decimal_digit_plain c H)). }
  rewrite (trimStart_plain s Hp).
  destruct (trimEnd_prefix s) as [w E].
  destruct (trimEnd s) as [|c t]; [exact I|].
  rewrite E in H. cbn [starts_numeric append] in H. cbn [toUpperCase string_map].
  destruct H as [H| ->]; [left|now right].
  destruct c as [[] [] [] [] [] [] [] []]; try discriminate H; reflexivity.
Qed.

Lemma numeric_not_flag s :
  starts_numeric s ->
  String.eqb (toUpperCase (trim s)) "Y" = false
  /\ String.eqb (toUpperCase (trim s)) "YES" = false
  /\ String.eqb (toUpperCase (trim s)) "N" = false
  /\ String.eqb (toUpperCase (trim s)) "NO" = false.
Proof.
  intros H. pose proof (upper_trim_numeric s H) as Hu.
  destruct (toUpperCase (trim s)) as [|c t]; [now repeat split|].
  repeat split; apply String.eqb_neq; intros [= -> _]; destruct Hu; discriminate.
Qed.

Section FlagFacts.
Context {host : Host}.

Lemma number_not_flag n :
  normalizeYesNo (VNumber n) = "No" /\ normalizeCityLimits (VNumber n) = "Unknown".
Proof.
  unfold normalizeYesNo, normalizeCityLimits.
  destruct (negb (ToBoolean (VNumber n))) eqn:E; [now split|].
  cbn [ToString]. destruct n as [| | |q]; [discriminate E|now split|now split|].
  destruct (numeric_not_flag _ (Number_toString_starts_numeric q)) as (H1 & H2 & H3 & H4).
  now rewrite H1, H2, H3, H4.
Qed.

Lemma normalizeYesNo_Yes v :
  normalizeYesNo v = "Yes" <-> normalizeCityLimits v = "Yes".
Proof.
  unfold normalizeYesNo, normalizeCityLimits.
  destruct (negb (ToBoolean v)); [split; discriminate|].
  destruct (_ || _); [tauto|]. destruct (_ || _); split; discriminate.
Qed.

(** X14.  The two normalizers.  [normalizeYesNo] returns ['Yes'] or ['No'] and
    [normalizeCityLimits] returns ['Yes'], ['No'] or ['Unknown']; one
    returns ['Yes'] exactly when the other does; each leaves its own
    result as it is; and a number, a boolean, [undefined], [null] or the
    empty string is read as ['No'] and as ['Unknown']. *)
Theorem normalized_flags :
  (forall v, normalizeYesNo v = "Yes" \/ normalizeYesNo v = "No")
  /\ (forall v, normalizeCityLimits v = "Yes" \/ normalizeCityLimits v = "No"
                \/ normalizeCityLimits v = "Unknown")
  /\ (forall v, normalizeYesNo v = "Yes" <-> normalizeCityLimits v = "Yes")
  /\ (forall v, normalizeYesNo (VString (normalizeYesNo v)) = normalizeYesNo v)
  /\ (forall v, normalizeCityLimits (VString (normalizeCityLimits v)) = normalizeCityLimits v)
  /\ (forall v, typeof v = TNumber \/ typeof v = TBoolean \/ v = VUndefined \/ v = VNull
                \/ v = VString "" ->
                normalizeYesNo v = "No" /\ normalizeCityLimits v = "Unknown").
Proof.
  split; [apply normalizeYesNo_range|]. split; [apply normalizeCityLimits_range|].
  split; [apply normalizeYesNo_Yes|]. split; [|split].
  - intros v. destruct (normalizeYesNo_range v) as [-> | ->]; reflexivity.
  - intros v. destruct (normalizeCityLimits_range v) as [-> |[-> | ->]]; reflexivity.
  - intros v H. destruct v as [| |b|n|s|t];
      try (destruct H as [H|[H|[H|[H|H]]]]; discriminate H); try (now split).
    + now destruct b.
    + apply number_not_flag.
    + destruct H as [H|[H|[H|[H|H]]]]; try discriminate H. injection H as ->. now split.
Qed.

End FlagFacts.

(** ** Rows without a date *)

Section DatedFacts.
Context {host : Host}.

Lemma cleanRecords_undated row rows :
  rowDated row = false -> cleanRecords (row :: rows) = cleanRecords rows.
Proof.
  unfold rowDated. intros H. rewrite cleanRecords_cons.
  destruct (parseDate (get row "Closed Date")) eqn:E; [discriminate|].
  rewrite (toRecord_invalid_date row E). cbn [mbind result_bind keepRecord].
  now destruct (cleanRecords rows).
Qed.

Lemma cleanRecords_dated rawData :
  cleanRecords rawData = cleanRecords (List.filter rowDated rawData).
Proof.
  induction rawData as [|row rows IH]; [reflexivity|].
  cbn [List.filter]. destruct (rowDated row) eqn:E.
  - now rewrite !cleanRecords_cons, IH.
  - now rewrite cleanRecords_undated.
Qed.

(** X12.  Rows without a valid date are skipped before anything else is read
    from them: the upload of a file is the upload of its dated rows, a
    cell that is missing, [null] or a boolean is no date, and a date that
    was parsed is parsed to itself. *)
Theorem upload_skips_undated (rawData : list Doc) (db : Store) :
  uploadDataToFirestore rawData db = uploadDataToFirestore (List.filter rowDated rawData) db
  /\ cleanRecords rawData = cleanRecords (List.filter rowDated rawData)
  /\ (forall row, row !! "Closed Date" = None -> rowDated row = false)
  /\ (forall row b, get row "Closed Date" = VNull \/ get row "Closed Date" = VBool b ->
        rowDated row = false)
  /\ (forall row t, parseDate (get row "Closed Date") = Some t ->
        parseDate (VDate (Some t)) = Some t /\ - maxTime <= t <= maxTime).
Proof.
  split; [|split; [|split; [|split]]].
  - unfold uploadDataToFirestore. now rewrite <- cleanRecords_dated.
  - apply cleanRecords_dated.
  - intros row H. unfold rowDated, get. now rewrite H.
  - intros row b [H|H]; unfold rowDated; now rewrite H.
  - intros row t H. split; [|now apply (parseDate_bounds _ t H)].
    pose proof (parseDate_again (get row "Closed Date")) as E. now rewrite H in E.
Qed.

End DatedFacts.

(** ** The trend chart *)

(** *** Groups *)

Lemma group_push_keys key v grouped k :
  k ∈ map fst (group_push key v grouped) <-> k = key \/ k ∈ map fst grouped.
Proof.
  induction grouped as [|[k0 vs] grouped IH]; cbn [group_push map fst].
  - rewrite list_elem_of_singleton, elem_of_nil. tauto.
  - destruct (String.eqb k0 key) eqn:E; cbn [map fst]; rewrite !elem_of_cons.
    + apply String.eqb_eq in E. subst. tauto.
    + rewrite IH. tauto.
Qed.

Lemma group_push_NoDup key v grouped :
  NoDup (map fst grouped) -> NoDup (map fst (group_push key v grouped)).
Proof.
  induction grouped as [|[k0 vs] grouped IH]; cbn [group_push map fst]; intros H.
  - repeat constructor. apply not_elem_of_nil.
  - apply NoDup_cons in H as [Hk0 Hnd].
    destruct (String.eqb k0 key) eqn:E; cbn [map fst]; apply NoDup_cons; [tauto|].
    split; [|now apply IH].
    rewrite group_push_keys. intros [->|H]; [|contradiction].
    now rewrite String.eqb_refl in E.
Qed.

Lemma group_get_push key v grouped k :
  group_get (group_push key v grouped) k =
  group_get grouped k ++ (if String.eqb key k then [v] else []).
Proof.
  unfold group_get. induction grouped as [|[k0 vs] grouped IH]; cbn [group_push find fst snd].
  - destruct (String.eqb key k); reflexivity.
  - destruct (String.eqb k0 key) eqn:E; cbn [find fst snd].
    + apply String.eqb_eq in E. subst k0.
      destruct (String.eqb key k); cbn [snd]; [reflexivity|].
      destruct (find _ grouped); now rewrite app_nil_r.
    + destruct (String.eqb k0 k) eqn:E'; cbn [snd]; [|exact IH].
      apply String.eqb_eq in E'. subst k0. rewrite String.eqb_sym, E. now rewrite app_nil_r.
Qed.

(** *** The order of strings *)

Lemma ascii_compare_trans a b c :
  Ascii.compare a b = Lt -> Ascii.compare b c = Lt -> Ascii.compare a c = Lt.
Proof.
  unfold Ascii.compare. rewrite !N.compare_lt_iff. apply N.lt_trans.
Qed.

Lemma string_compare_refl s : String.compare s s = Eq.
Proof.
  induction s as [|c s IH]; [reflexivity|]. cbn [String.compare].
  unfold Ascii.compare. now rewrite N.compare_refl.
Qed.

Lemma string_compare_trans s1 s2 s3 :
  String.compare s1 s2 = Lt -> String.compare s2 s3 = Lt -> String.compare s1 s3 = Lt.
Proof.
  revert s2 s3. induction s1 as [|a s1 IH]; intros [|b s2] [|c s3]; cbn [String.compare];
    try discriminate; try reflexivity.
  destruct (Ascii.compare a b) eqn:Eab; try discriminate;
    destruct (Ascii.compare b c) eqn:Ebc; try discriminate; intros H1 H2.
  - apply Ascii.compare_eq_iff in Eab, Ebc. subst.
    unfold Ascii.compare. rewrite N.compare_refl. now apply (IH s2).
  - apply Ascii.compare_eq_iff in Eab. subst. now rewrite Ebc.
  - apply Ascii.compare_eq_iff in Ebc. subst. now rewrite Eab.
  - now rewrite (ascii_compare_trans a b c Eab Ebc).
Qed.

Lemma groupPrices_spec (key : Sale -> option string) grouped data :
  NoDup (map fst grouped) ->
  Forall (fun d => is_Some (key d)) data ->
  exists g,
    groupPrices key grouped data = Some g
    /\ NoDup (map fst g)
    /\ (forall k, k ∈ map fst g <-> k ∈ map fst grouped \/ exists d, d ∈ data /\ key d = Some k)
    /\ (forall k, group_get g k =
                  group_get grouped k ++ map price (filter (fun d => key d = Some k) data)).
Proof.
  intros Hnd H. revert grouped Hnd.
  induction H as [|d data [kd Hkd] _ IH]; intros grouped Hnd.
  - exists grouped. split; [reflexivity|]. split; [exact Hnd|]. split.
    + intros k. split; [tauto|]. intros [H|(d & Hd & _)]; [exact H|].
      now apply elem_of_nil in Hd.
    + intros k. rewrite filter_nil. cbn [map]. now rewrite app_nil_r.
  - cbn [groupPrices]. rewrite Hkd.
    destruct (IH (group_push kd (price d) grouped) (group_push_NoDup _ _ _ Hnd))
      as (g & Hg & Hn & Hk & Hv).
    exists g. split; [exact Hg|]. split; [exact Hn|]. split.
    + intros k. rewrite Hk, group_push_keys. split.
      * intros [[->|H]|(x & Hx & Hm)]; [right|now left|right].
        -- exists d. split; [left|exact Hkd].
        -- exists x. split; [now right|exact Hm].
      * intros [H|(x & Hx & Hm)]; [now left; right|].
        apply elem_of_cons in Hx as [->|Hx]; [left; left; congruence|].
        right. now exists x.
    + intros k. rewrite Hv, group_get_push, filter_cons, <- app_assoc. f_equal.
      destruct (decide (key d = Some k)) as [Hm|Hm].
      * rewrite Hkd in Hm. injection Hm as ->. now rewrite String.eqb_refl.
      * destruct (String.eqb kd k) eqn:E; [|reflexivity].
        apply String.eqb_eq in E. subst k. contradiction.
Qed.

Lemma groupPrices_None (key : Sale -> option string) grouped data :
  groupPrices key grouped data = None <-> Exists (fun d => key d = None) data.
Proof.
  revert grouped. induction data as [|d data IH]; intros grouped; cbn [groupPrices].
  - rewrite Exists_nil. split; [discriminate|tauto].
  - rewrite Exists_cons. destruct (key d) as [k|].
    + rewrite IH. split; [tauto|]. intros [H|H]; [discriminate|exact H].
    + tauto.
Qed.

Lemma compareStrings_gt a b :
  num_gtb (compareStrings a b) (Fin 0) = true <-> String.compare a b = Gt.
Proof. unfold compareStrings. destruct (String.compare a b); split; discriminate || reflexivity. Qed.

Lemma Array_sort_strings (l : list string) :
  NoDup l -> StronglySorted string_lt (Array_sort compareStrings l).
Proof.
  intros Hnd.
  assert (Hs : Sorted (fun a b => String.compare a b <> Gt) (Array_sort compareStrings l)).
  { apply (Array_sort_sorted compareStrings (fun _ => True)).
    - intros x y _ _ E Hgt. apply compareStrings_gt in Hgt. congruence.
    - intros x y _ _ E. apply compareStrings_gt in E.
      rewrite String.compare_antisym, E. discriminate.
    - now apply Forall_forall. }
  assert (Hnd' : NoDup (Array_sort compareStrings l))
    by (now rewrite (Array_sort_perm compareStrings l)).
  apply Sorted_StronglySorted; [intros a b c; apply string_compare_trans|].
  induction Hs as [|a s Hs IH Hhd]; [constructor|].
  apply NoDup_cons in Hnd' as [Ha Hnd']. constructor; [now apply IH|].
  destruct Hhd as [|b s Hab]; constructor. unfold string_lt.
  destruct (String.compare a b) eqn:E; [|reflexivity|congruence].
  apply String.compare_eq_iff in E. subst b. destruct Ha. left.
Qed.

Lemma sort_insert_map {A B : Type} (f : A -> B) (cmpA : A -> A -> number)
    (cmpB : B -> B -> number) x l :
  (forall a b, cmpB (f a) (f b) = cmpA a b) ->
  sort_insert cmpB (f x) (map f l) = map f (sort_insert cmpA x l).
Proof.
  intros H. induction l as [|y l IH]; [reflexivity|].
  cbn [map sort_insert]. rewrite H. destruct (num_gtb _ _); cbn [map]; [now rewrite IH|reflexivity].
Qed.

Lemma Array_sort_map {A B : Type} (f : A -> B) (cmpA : A -> A -> number)
    (cmpB : B -> B -> number) l :
  (forall a b, cmpB (f a) (f b) = cmpA a b) ->
  Array_sort cmpB (map f l) = map f (Array_sort cmpA l).
Proof.
  intros H. unfold Array_sort. induction l as [|x l IH]; [reflexivity|].
  cbn [map foldr]. rewrite IH. now apply sort_insert_map.
Qed.

Lemma sortByNumber_numbers arr :
  sortByNumber (map VNumber arr) = map VNumber (Array_sort num_sub arr).
Proof.
  unfold sortByNumber, sortValues.
  assert (E1 : List.filter (fun v => negb (is_undefined v)) (map VNumber arr) = map VNumber arr).
  { induction arr as [|x arr IH]; [reflexivity|]. cbn. now rewrite IH. }
  assert (E2 : List.filter is_undefined (map VNumber arr) = []).
  { clear E1. induction arr as [|x arr IH]; [reflexivity|]. cbn. exact IH. }
  rewrite E1, E2, app_nil_r. now apply Array_sort_map.
Qed.

Lemma nth_numbers (l : list number) i :
  (i < length l)%nat -> nth i (map VNumber l) VUndefined = VNumber (nth i l NaN).
Proof.
  revert i. induction l as [|x l IH]; intros i H; [cbn in H; lia|].
  destruct i as [|i]; [reflexivity|]. cbn [map nth]. apply IH. cbn in H. lia.
Qed.

Section TrendFacts.
Context {host : Host}.

Lemma medianValues_numbers arr : medianValues (map VNumber arr) = VNumber (median arr).
Proof.
  destruct arr as [|x arr]; [reflexivity|].
  unfold medianValues, median. cbn [map]. change (VNumber x :: map VNumber arr)
    with (map VNumber (x :: arr)).
  rewrite sortByNumber_numbers, length_map.
  set (sorted := Array_sort num_sub (x :: arr)).
  assert (Hlen : (0 < length sorted)%nat).
  { unfold sorted. rewrite (Permutation_length (Array_sort_perm num_sub (x :: arr))).
    cbn [length]. lia. }
  assert (Hmid : (length sorted / 2 < length sorted)%nat)
    by (apply Nat.div_lt; lia).
  destruct (negb (length sorted mod 2 =? 0)%nat).
  - now rewrite nth_numbers.
  - rewrite !nth_numbers by lia. reflexivity.
Qed.

End TrendFacts.

Section TrendTheorems.
Context {host : Host}.

(** X3.  The trend chart.  [renderTrendChart] throws exactly when line 388
    throws for some sale, which it does when the date is no valid [Date].
    On sales with valid dates it shows the months of the sales, each
    once, in the ascending order of their keys as strings, and for each
    month the median of the prices of its sales, taken in the order of
    the data.  The median of an array of numbers is the number that
    [median] computes. *)
Theorem renderTrendChart_months (data : list Sale) :
  (renderTrendChart data = None <-> Exists (fun d => monthKey (date d) = None) data)
  /\ (forall v, monthKey v = None <-> forall t, v <> VDate (Some t))
  /\ (Forall (fun d => exists t, date d = VDate (Some t)) data ->
      exists months,
        StronglySorted string_lt months
        /\ (forall k, k ∈ months <-> exists d, d ∈ data /\ inMonth k d)
        /\ renderTrendChart data =
             Some (map (fun k => (k, medianValues (map price (filter (inMonth k) data))))
                       months))
  /\ (forall arr, medianValues (map VNumber arr) = VNumber (median arr)).
Proof.
  split; [|split; [|split]].
  - unfold renderTrendChart. rewrite <- (groupPrices_None _ [] data).
    destruct (groupPrices _ [] data); split; discriminate || reflexivity.
  - intros v. destruct v as [| |b|n|s|[t|]]; cbn [monthKey];
      try (split; [intros _ t; discriminate|reflexivity]).
    split; [discriminate|]. intros H. now destruct (H t).
  - intros H.
    destruct (groupPrices_spec (fun d => monthKey (date d)) [] data (NoDup_nil_2 (A:=string)))
      as (g & Hg & Hn & Hk & Hv).
    { eapply Forall_impl; [exact H|]. intros d [t Ht]. rewrite Ht. cbn [monthKey]. eauto. }
    unfold renderTrendChart. rewrite Hg.
    exists (Array_sort compareStrings (map fst g)).
    split; [now apply Array_sort_strings|]. split.
    + intros k. rewrite (Array_sort_perm compareStrings (map fst g)), Hk. cbn [map].
      rewrite elem_of_nil. tauto.
    + f_equal. apply map_ext. intros k. now rewrite Hv.
  - apply medianValues_numbers.
Qed.

End TrendTheorems.

(** ** The options of the filters *)

Section FirstOccurrences.
Context {A : Type} `{EqDecision A}.

Lemma firstOccurrences_elem (l : list A) x : x ∈ firstOccurrences l <-> x ∈ l.
Proof.
  induction l as [|y l IH]; [reflexivity|]. cbn [firstOccurrences].
  rewrite !elem_of_cons, list_elem_of_filter, IH.
  destruct (decide (x = y)); tauto.
Qed.

Lemma firstOccurrences_NoDup (l : list A) : NoDup (firstOccurrences l).
Proof.
  induction l as [|y l IH]; [constructor|]. cbn [firstOccurrences].
  apply NoDup_cons. split; [|now apply NoDup_filter].
  rewrite list_elem_of_filter. tauto.
Qed.

Lemma firstOccurrences_from (acc l : list A) :
  foldl (fun acc x => if decide (x ∈ acc) then acc else acc ++ [x]) acc l =
  acc ++ filter (fun y => y ∉ acc) (firstOccurrences l).
Proof.
  revert acc. induction l as [|x l IH]; intros acc; cbn [foldl firstOccurrences].
  - now rewrite filter_nil, app_nil_r.
  - destruct (decide (x ∈ acc)) as [Hx|Hx]; rewrite IH.
    + rewrite filter_cons_False by tauto. rewrite list_filter_filter. f_equal.
      apply list_filter_iff. intros y. split; [|tauto].
      intros Hy. split; [exact Hy|]. congruence.
    + rewrite filter_cons_True by exact Hx. rewrite list_filter_filter, <- app_assoc.
      cbn [app]. do 2 f_equal.
      apply list_filter_iff. intros y. rewrite elem_of_app, list_elem_of_singleton. tauto.
Qed.

Lemma uniqueValues_map (f : A -> value) (l : list A) :
  (forall a b, sameValue (f a) (f b) <-> a = b) ->
  uniqueValues (map f l) = map f (firstOccurrences l).
Proof.
  intros Hf. unfold uniqueValues.
  assert (G : forall acc,
            foldl (fun acc v => if includes acc v then acc else acc ++ [v]) (map f acc) (map f l) =
            map f (foldl (fun acc x => if decide (x ∈ acc) then acc else acc ++ [x]) acc l)).
  { induction l as [|x l IH]; intros acc; [reflexivity|]. cbn [map foldl].
    assert (E : includes (map f acc) (f x) = bool_decide (x ∈ acc)).
    { apply eq_true_iff_eq. rewrite includes_allowed, bool_decide_eq_true.
      unfold allowed. rewrite Exists_exists. split.
      - intros (v & Hv & Hs). apply list_elem_of_fmap in Hv as (a & -> & Ha).
        apply Hf in Hs. now subst.
      - intros Hx. exists (f x). split; [now apply list_elem_of_fmap_2|apply sameValue_refl]. }
    rewrite E. destruct (decide (x ∈ acc)) as [Hx|Hx].
    - rewrite bool_decide_eq_true_2 by exact Hx. apply IH.
    - rewrite bool_decide_eq_false_2 by exact Hx.
      rewrite <- IH, map_app. reflexivity. }
  transitivity (map f (foldl (fun acc x => if decide (x ∈ acc) then acc else acc ++ [x]) [] l));
    [exact (G [])|].
  rewrite firstOccurrences_from. cbn [app]. f_equal.
  apply filter_all, Forall_forall. intros y _. apply not_elem_of_nil.
Qed.

End FirstOccurrences.

Section OptionFacts.
Context {host : Host}.

Lemma sortValues_defined cmp arr :
  Forall (fun v => is_undefined v = false) arr -> sortValues cmp arr = Array_sort cmp arr.
Proof.
  intros H. unfold sortValues.
  assert (E1 : List.filter (fun v => negb (is_undefined v)) arr = arr).
  { induction H as [|v arr Hv _ IH]; [reflexivity|]. cbn [List.filter]. now rewrite Hv, IH. }
  assert (E2 : List.filter is_undefined arr = []).
  { clear E1. induction H as [|v arr Hv _ IH]; [reflexivity|]. cbn [List.filter]. now rewrite Hv. }
  now rewrite E1, E2, app_nil_r.
Qed.

Lemma Array_sort_descending (l : list Z) :
  NoDup l ->
  StronglySorted (fun a b => b < a)
    (Array_sort (fun a b => num_sub (num_of_Z b) (num_of_Z a)) l).
Proof.
  intros Hnd. set (cmp := fun a b : Z => num_sub (num_of_Z b) (num_of_Z a)).
  assert (Hc : forall a b, num_gtb (cmp a b) (Fin 0) = (a <? b)).
  { intros a b. unfold cmp. rewrite num_gtb_sub by discriminate. apply num_gtb_of_Z. }
  assert (Hs : Sorted (fun a b => b <= a) (Array_sort cmp l)).
  { apply (Array_sort_sorted cmp (fun _ => True)).
    - intros x y _ _ E. rewrite Hc in E. now apply Z.ltb_ge in E.
    - intros x y _ _ E. rewrite Hc in E. apply Z.ltb_lt in E. lia.
    - now apply Forall_forall. }
  assert (Hnd' : NoDup (Array_sort cmp l)) by (now rewrite (Array_sort_perm cmp l)).
  apply Sorted_StronglySorted; [intros a b c; lia|].
  induction Hs as [|a s Hs IH Hhd]; [constructor|].
  apply NoDup_cons in Hnd' as [Ha Hnd']. constructor; [now apply IH|].
  destruct Hhd as [|b s Hab]; constructor.
  assert (a <> b) by (intros ->; apply Ha; left). lia.
Qed.

Lemma sortOptions_years (ys : list Z) :
  NoDup ys ->
  exists sorted,
    sortOptions (map yearValue ys) = map yearValue sorted
    /\ Permutation sorted ys
    /\ StronglySorted (fun a b => b < a) sorted.
Proof.
  intros Hnd. unfold sortOptions.
  assert (Hdef : forall l : list Z, Forall (fun v => is_undefined v = false) (map yearValue l))
    by (intros l; apply Forall_forall; intros v Hv;
        apply list_elem_of_fmap in Hv as (y & -> & _); reflexivity).
  rewrite (sortValues_defined _ _ (Hdef ys)).
  rewrite (Array_sort_map yearValue
             (fun a b => compareStrings (ToString (yearValue a)) (ToString (yearValue b))))
    by reflexivity.
  set (first := Array_sort _ ys).
  assert (Hp : Permutation first ys) by apply Array_sort_perm.
  cbv zeta. destruct first as [|y rest] eqn:E.
  - exists []. apply Permutation_nil_l in Hp. subst ys.
    split; [reflexivity|]. split; constructor.
  - cbn [map]. unfold yearValue at 1.
    change (VNumber (num_of_Z y) :: map yearValue rest) with (map yearValue (y :: rest)).
    rewrite (sortValues_defined _ _ (Hdef (y :: rest))).
    rewrite (Array_sort_map yearValue (fun a b => num_sub (num_of_Z b) (num_of_Z a)))
      by reflexivity.
    eexists. split; [reflexivity|]. split.
    + now rewrite Array_sort_perm.
    + apply Array_sort_descending. now rewrite Hp.
Qed.

Lemma sortOptions_texts (ss : list string) :
  NoDup ss ->
  sortOptions (map VString ss) = map VString (Array_sort compareStrings ss).
Proof.
  intros Hnd. unfold sortOptions.
  assert (Hdef : Forall (fun v => is_undefined v = false) (map VString ss))
    by (apply Forall_forall; intros v Hv;
        apply list_elem_of_fmap in Hv as (y & -> & _); reflexivity).
  rewrite (sortValues_defined _ _ Hdef).
  rewrite (Array_sort_map VString compareStrings) by reflexivity.
  cbv zeta. now destruct (Array_sort compareStrings ss).
Qed.

End OptionFacts.

Section OptionTheorems.
Context {host : Host}.

(** X9.  The options of the year and of the city filter.  When the years of
    the records are integers, the year filter lists each of them once, in
    descending order; when the cities are strings, the city filter lists
    each of them once, in the ascending order of their code units. *)
Theorem populateFilters_order (rawData : list Sale) (ys : list Z) (cs : list string) :
  map year rawData = map yearValue ys ->
  map city rawData = map VString cs ->
  exists years cities rest1 rest2,
    populateFilters rawData = (map yearValue years, map VString cities, rest1, rest2)
    /\ StronglySorted (fun a b => b < a) years
    /\ (forall y, y ∈ years <-> y ∈ ys)
    /\ StronglySorted string_lt cities
    /\ (forall c, c ∈ cities <-> c ∈ cs).
Proof.
  intros Hy Hc. unfold populateFilters. rewrite Hy, Hc.
  rewrite (uniqueValues_map yearValue ys)
    by (intros a b; unfold yearValue; rewrite sameValue_integers; split; congruence).
  rewrite (uniqueValues_map VString cs)
    by (intros a b; rewrite sameValue_strings; split; congruence).
  destruct (sortOptions_years (firstOccurrences ys) (firstOccurrences_NoDup ys))
    as (years & Ey & Hp & Hs).
  rewrite Ey, (sortOptions_texts _ (firstOccurrences_NoDup cs)).
  exists years, (Array_sort compareStrings (firstOccurrences cs)). eexists. eexists.
  split; [reflexivity|]. split; [exact Hs|]. split.
  { intros y. now rewrite Hp, firstOccurrences_elem. }
  split; [apply Array_sort_strings, firstOccurrences_NoDup|].
  intros c. now rewrite (Array_sort_perm compareStrings), firstOccurrences_elem.
Qed.

End OptionTheorems.

(** ** The city chart *)

Lemma group_push_order key v grouped :
  map fst (group_push key v grouped) =
  if decide (key ∈ map fst grouped) then map fst grouped else map fst grouped ++ [key].
Proof.
  induction grouped as [|[k0 vs] grouped IH]; cbn [group_push map fst].
  - rewrite decide_False by apply not_elem_of_nil. reflexivity.
  - destruct (String.eqb k0 key) eqn:E; cbn [map fst].
    + apply String.eqb_eq in E. subst k0. rewrite decide_True by left. reflexivity.
    + apply String.eqb_neq in E. rewrite IH.
      destruct (decide (key ∈ map fst grouped)) as [H|H].
      * rewrite decide_True by (now right). reflexivity.
      * rewrite decide_False; [reflexivity|].
        rewrite elem_of_cons. intros [->|H']; [congruence|contradiction].
Qed.

Lemma groupPrices_order (key : Sale -> option string) grouped data g keys :
  groupPrices key grouped data = Some g ->
  map key data = map Some keys ->
  map fst g =
  foldl (fun acc k => if decide (k ∈ acc) then acc else acc ++ [k]) (map fst grouped) keys.
Proof.
  revert grouped keys. induction data as [|d data IH]; intros grouped keys Hg Hk.
  - destruct keys; [|discriminate]. injection Hg as <-. reflexivity.
  - destruct keys as [|k keys]; [discriminate|]. cbn [map] in Hk. injection Hk as Hd Hk.
    cbn [groupPrices] in Hg. rewrite Hd in Hg. cbn [foldl].
    rewrite (IH _ keys Hg Hk), group_push_order. reflexivity.
Qed.

Lemma ownKeys_plain keys : Forall (fun k => arrayIndex k = None) keys -> ownKeys keys = keys.
Proof.
  intros H. unfold ownKeys.
  assert (E1 : List.filter (fun k => bool_decide (is_Some (arrayIndex k))) keys = []).
  { induction H as [|k keys Hk _ IH]; [reflexivity|]. cbn [List.filter]. now rewrite Hk. }
  assert (E2 : List.filter (fun k => negb (bool_decide (is_Some (arrayIndex k)))) keys = keys).
  { clear E1. induction H as [|k keys Hk _ IH]; [reflexivity|]. cbn [List.filter].
    rewrite Hk. cbn. now rewrite IH. }
  now rewrite E1, E2.
Qed.

Lemma existsb_eqb_elem (k : string) (l : list string) :
  existsb (String.eqb k) l = true <-> k ∈ l.
Proof.
  rewrite existsb_exists. split.
  - intros (x & Hx & E). apply String.eqb_eq in E. subst. now apply list_elem_of_In.
  - intros H. exists k. split; [now apply list_elem_of_In|apply String.eqb_refl].
Qed.

Section CityFacts.
Context {host : Host}.

Lemma cityKey_text d c :
  city d = VString c -> c ∉ inheritedNames -> cityKey d = Some c.
Proof.
  intros Hc Hn. unfold cityKey. rewrite Hc. cbn [ToString].
  destruct (existsb (String.eqb c) inheritedNames) eqn:E; [|reflexivity].
  apply existsb_eqb_elem in E. contradiction.
Qed.

Lemma cityKey_None d : cityKey d = None <-> ToString (city d) ∈ inheritedNames.
Proof.
  unfold cityKey. rewrite <- existsb_eqb_elem.
  destruct (existsb _ _); split; discriminate || reflexivity.
Qed.

(** X4.  The city chart.  [renderCityChart] throws exactly when the text of
    the city of some sale is a name that an object inherits.  When the
    cities are strings, none of them such a name or an array index, it
    shows the cities, each once, in the order of their first occurrence
    in the data, and for each city the median of the prices of its sales,
    taken in the order of the data. *)
Theorem renderCityChart_cities (data : list Sale) (cs : list string) :
  (renderCityChart data = None <-> Exists (fun d => ToString (city d) ∈ inheritedNames) data)
  /\ (map city data = map VString cs -> Forall plainName cs ->
      renderCityChart data =
        Some (map (fun c => (c, medianValues
                                  (map price (filter (fun d => city d = VString c) data))))
                  (firstOccurrences cs))).
Proof.
  split.
  - unfold renderCityChart.
    assert (E : Exists (fun d => cityKey d = None) data
                <-> Exists (fun d => ToString (city d) ∈ inheritedNames) data).
    { rewrite !Exists_exists.
      split; intros (d & Hd & H); exists d; (split; [exact Hd|]); now apply cityKey_None. }
    rewrite <- E, <- (groupPrices_None cityKey [] data).
    destruct (groupPrices cityKey [] data); split; discriminate || reflexivity.
  - intros Hc Hp.
    assert (Hkeys : map cityKey data = map Some cs).
    { clear - Hc Hp. revert cs Hc Hp. induction data as [|d data IH]; intros cs Hc Hp.
      - destruct cs; [reflexivity|discriminate].
      - destruct cs as [|c cs]; [discriminate|]. cbn [map] in Hc. injection Hc as Hd Hc.
        apply Forall_cons in Hp as [[_ Hn] Hp]. cbn [map].
        now rewrite (cityKey_text d c Hd Hn), (IH cs Hc Hp). }
    destruct (groupPrices_spec cityKey [] data (NoDup_nil_2 (A:=string))) as (g & Hg & Hn & Hk & Hv).
    { apply Forall_forall. intros d Hd.
      apply list_elem_of_In, (in_map cityKey) in Hd. rewrite Hkeys in Hd.
      apply in_map_iff in Hd as (c & <- & _). eauto. }
    unfold renderCityChart. rewrite Hg.
    assert (Ho : map fst g = firstOccurrences cs).
    { rewrite (groupPrices_order cityKey [] data g cs Hg Hkeys), firstOccurrences_from.
      cbn [map app]. apply filter_all, Forall_forall. intros y _. apply not_elem_of_nil. }
    rewrite Ho, ownKeys_plain.
    2: { apply Forall_forall. intros c Hin.
         apply (proj1 (firstOccurrences_elem cs c)) in Hin.
         rewrite Forall_forall in Hp. exact (proj1 (Hp c Hin)). }
    f_equal. apply map_ext_in. intros c Hin. f_equal. rewrite Hv. cbn [group_get find app].
    do 2 f_equal. apply filter_iff_in. intros d Hd.
    apply list_elem_of_In in Hin. apply (proj1 (firstOccurrences_elem cs c)) in Hin.
    assert (Hdc : exists c', city d = VString c' /\ c' ∈ cs).
    { apply list_elem_of_In, (in_map city) in Hd. rewrite Hc in Hd.
      apply in_map_iff in Hd as (c' & E & Hc'). apply list_elem_of_In in Hc'. eauto. }
    destruct Hdc as (c' & Ec & Hc'). rewrite Forall_forall in Hp.
    rewrite (cityKey_text d c' Ec (proj2 (Hp c' Hc'))), Ec. split; congruence.
Qed.

End CityFacts.

(** ** The figures *)

Section KPIFacts.
Context {host : Host}.

Lemma map_numbers (f : Sale -> value) (data : list Sale) :
  Forall (fun d => exists n, f d = VNumber n) data ->
  map f data = map VNumber (map (fun d => ToNumber (f d)) data).
Proof.
  induction 1 as [|d data [n Hn] _ IH]; [reflexivity|].
  cbn [map]. now rewrite IH, Hn.
Qed.

Lemma totalVolume_numbers (data : list Sale) (acc : number) :
  Forall (fun d => exists n, price d = VNumber n) data ->
  foldl (fun sum d => js_add sum (price d)) (VNumber acc) data =
  VNumber (foldl (fun sum d => num_add sum (ToNumber (price d))) acc data).
Proof.
  intros H. revert acc. induction H as [|d data [n Hn] _ IH]; intros acc; [reflexivity|].
  cbn [foldl]. rewrite Hn. cbn [js_add ToNumber]. apply IH.
Qed.

Lemma js_or_jsonNumber n : exists q, js_or (jsonNumber n) (VNumber (Fin 0)) = VNumber q.
Proof.
  destruct n as [| | |q]; try (now eexists).
  unfold jsonNumber, js_or. cbn [isFinite_num]. destruct (ToBoolean _); eauto.
Qed.

Lemma fromUpload_measured d : fromUpload d -> measured d.
Proof.
  intros (row & plain & Hr & Hs).
  destruct (retained_core row plain Hr) as (t & p & _ & Hd & _ & Hp & _).
  destruct (toRecord_more_fields row plain (proj1 Hr)) as (_ & _ & _ & Hpp & _).
  assert (Gd : get plain "date" = VDate (Some t)) by (unfold get; now rewrite Hd).
  assert (Gp : get plain "price" = VNumber (Fin p)) by (unfold get; now rewrite Hp).
  pose (n := ToNumber (js_or (VNumber (parsePrice (get row "Price Per SQFT")))
                             (VNumber (Fin 0)))).
  assert (Gq : get plain "pricePerSqFt" = jsonNumber n) by (unfold get; now rewrite Hpp).
  unfold toSale in Hs. rewrite Gd, Gp, Gq in Hs.
  cbn [call_getFullYear mbind mret result_bind result_ret] in Hs. injection Hs as <-.
  unfold measured. cbn [price pricePerSqFt].
  destruct (js_or_jsonNumber n) as [q Hq]. exists (Fin p), q. split; [reflexivity|exact Hq].
Qed.

(** X20.  The figures of the dashboard.  On sales whose price and price per
    square foot are numbers, [updateKPIs] returns: the count is the number
    of sales, the volume is the sum of the prices, added up from zero in
    the order of the data, and the two medians are those that [median]
    computes of the numbers.  The sales that the dashboard makes of
    records of the upload are of that kind, so that [updateKPIs] does not
    throw on them.  On a single sale it throws exactly when the price per
    square foot of the sale is no number. *)
Theorem updateKPIs_numbers (data : list Sale) :
  (Forall measured data ->
   updateKPIs data =
     Ok {| homesSold := length data;
           totalVolume :=
             VNumber (foldl (fun sum d => num_add sum (ToNumber (price d))) (Fin 0) data);
           medianPrice := VNumber (median (map (fun d => ToNumber (price d)) data));
           medianPpsf := VNumber (median (map (fun d => ToNumber (pricePerSqFt d)) data)) |})
  /\ (Forall fromUpload data -> Forall measured data)
  /\ (forall d, updateKPIs [d] = Throw TypeError <-> typeof (pricePerSqFt d) <> TNumber).
Proof.
  split; [|split].
  - intros H.
    assert (Hp : Forall (fun d => exists n, price d = VNumber n) data)
      by (eapply Forall_impl; [exact H|]; intros d (p & q & Hp & _); eauto).
    assert (Hq : Forall (fun d => exists n, pricePerSqFt d = VNumber n) data)
      by (eapply Forall_impl; [exact H|]; intros d (p & q & _ & Hq); eauto).
    unfold updateKPIs.
    rewrite (totalVolume_numbers data (Fin 0) Hp), (map_numbers price data Hp),
      (map_numbers pricePerSqFt data Hq), !medianValues_numbers.
    reflexivity.
  - intros H. eapply Forall_impl; [exact H|]. apply fromUpload_measured.
  - intros d. unfold updateKPIs. cbn [map].
    assert (E : medianValues [pricePerSqFt d] = pricePerSqFt d)
      by (destruct (pricePerSqFt d); reflexivity).
    rewrite E. destruct (pricePerSqFt d); cbn [typeof]; split; congruence.
Qed.

End KPIFacts.

(** ** Clear All *)

Lemma clearFilter_selected stateKey fs k :
  selected k (clearFilter stateKey fs) = if decide (k = stateKey) then [] else selected k fs.
Proof.
  unfold clearFilter. destruct (decide (k = stateKey)) as [->|Hne].
  - apply selected_set_same.
  - now apply selected_set_other.
Qed.

(** X21.  "Clear All" and the first box checked after it.  After [clearFilter]
    the dashboard shows no sale, and the other three selections are as
    they were; checking, after that, the box of a text on which
    [parseFloat] gives [NaN] shows the sales that have this text in the
    dimension of the filter and that the other three selections allow,
    and no other. *)
Theorem clearFilter_then_check (s : string) (stateKey : StateKey) (fs : FilterState)
    (rawData : list Sale) :
  parseFloat s = NaN ->
  let box := {| cb_value := s; cb_checked := true |} in
  updateDashboard (clearFilter stateKey fs) rawData = []
  /\ (forall k, k <> stateKey -> selected k (clearFilter stateKey fs) = selected k fs)
  /\ selected stateKey (handleFilterChange box stateKey (clearFilter stateKey fs)) = [VString s]
  /\ (forall d,
        d ∈ updateDashboard (handleFilterChange box stateKey (clearFilter stateKey fs)) rawData
        <-> d ∈ rawData
            /\ dimension stateKey d = VString s
            /\ forall k, k <> stateKey -> allowed (selected k fs) (dimension k d)).
Proof.
  intros Hs box.
  assert (Hsel : selected stateKey (clearFilter stateKey fs) = [])
    by (rewrite clearFilter_selected; now rewrite decide_True).
  split; [now apply (updateDashboard_empty_selection stateKey)|].
  split; [intros k Hk; rewrite clearFilter_selected; now rewrite decide_False|].
  split.
  - rewrite handleFilterChange_unfold. cbn [box cb_value cb_checked]. cbv zeta.
    rewrite Hsel, (checkboxValue_text s Hs). cbn [includes existsb negb app].
    apply selected_set_same.
  - intros d. rewrite check_dashboard by reflexivity. cbn [box cb_value].
    rewrite Hsel, (checkboxValue_text s Hs), sameValue_strings.
    pose proof (allowed_nil (dimension stateKey d)) as Hnil.
    split.
    + intros (Hd & [H|H] & Hk); [contradiction|].
      split; [exact Hd|]. split; [exact H|].
      intros k Hne. specialize (Hk k Hne).
      now rewrite clearFilter_selected, decide_False in Hk.
    + intros (Hd & H & Hk). split; [exact Hd|]. split; [now right|].
      intros k Hne. rewrite clearFilter_selected, decide_False by exact Hne. now apply Hk.
Qed.

Lemma clearFilter_then_check_witness :
  let rawData := [saleOf (Fin 250000) "Conway" 2022; saleOf (Fin 180000) "Vilonia" 2021] in
  let fs := initFilterState rawData in
  let box := {| cb_value := "Conway"; cb_checked := true |} in
  parseFloat "Conway" = NaN
  /\ updateDashboard (clearFilter K_selectedCities fs) rawData = []
  /\ selectedCities (handleFilterChange box K_selectedCities (clearFilter K_selectedCities fs))
       = [VString "Conway"].
Proof.
  intros rawData fs box. split; [reflexivity|].
  destruct (clearFilter_then_check "Conway" K_selectedCities fs rawData eq_refl)
    as (H1 & _ & H2 & _).
  split; [exact H1|exact H2].
Defined.

(** ** Repeated clicks, price texts and date numbers *)

Lemma includes_snoc arr val : includes (arr ++ [val]) val = true.
Proof.
  apply includes_allowed, allowed_app. right. apply allowed_singleton, sameValue_refl.
Qed.

Lemma filter_twice {A : Type} (p : A -> bool) (l : list A) :
  List.filter p (List.filter p l) = List.filter p l.
Proof.
  induction l as [|x l IH]; [reflexivity|]. cbn [List.filter].
  destruct (p x) eqn:E; [|exact IH]. cbn [List.filter]. now rewrite E, IH.
Qed.

Lemma set_selected_twice k a b fs : set_selected k a (set_selected k b fs) = set_selected k a fs.
Proof. now destruct k. Qed.

(** X22.  A click that repeats the last one changes nothing: [handleFilterChange]
    with the same checkbox, in the same state, a second time returns the
    filter state of the first time. *)
Theorem handleFilterChange_twice (checkbox : Checkbox) (stateKey : StateKey)
    (fs : FilterState) :
  handleFilterChange checkbox stateKey (handleFilterChange checkbox stateKey fs) =
  handleFilterChange checkbox stateKey fs.
Proof.
  rewrite (handleFilterChange_unfold checkbox stateKey (handleFilterChange _ _ _)).
  rewrite (handleFilterChange_unfold checkbox stateKey fs). cbv zeta.
  set (val := checkboxValue (cb_value checkbox)).
  destruct (cb_checked checkbox).
  - destruct (includes (selected stateKey fs) val) eqn:E; cbn [negb].
    + now rewrite E.
    + now rewrite selected_set_same, includes_snoc.
  - now rewrite selected_set_same, filter_twice, set_selected_twice.
Qed.

Section PriceTexts.
Context {host : Host}.

(** X23.  A price text of digits, dollar signs and commas.  When what is left
    of the text without its ["$"] and [","] is the decimal numeral of an
    integer, both scripts read the price as that integer. *)
Theorem formatted_price_read (s : string) (n : Z) :
  0 <= n ->
  remove_chars Admin.is_currency_mark s = digits n ->
  Admin.parsePrice (VString s) = num_of_Z n
  /\ Admin.coercePrice (VString s) = VNumber (num_of_Z n)
  /\ Dashboard.coercePrice (VString s) = VNumber (num_of_Z n).
Proof.
  intros Hn Hs.
  assert (E : parseFloat (remove_chars Admin.is_currency_mark s) = num_of_Z n)
    by (rewrite Hs; now apply parseFloat_digits).
  split; [exact E|].
  assert (C : Admin.coercePrice (VString s) = VNumber (num_of_Z n))
    by (unfold Admin.coercePrice; now rewrite E).
  split; [exact C|exact C].
Qed.

Lemma serial_day x :
  - msPerDay <= x <= 2958465 + msPerDay ->
  x / msPerDay = -1 \/ x / msPerDay = 0 \/ x / msPerDay = 1.
Proof.
  unfold msPerDay. intros H.
  pose proof (Z.div_mod x 86400000 ltac:(lia)) as E.
  pose proof (Z.mod_pos_bound x 86400000 ltac:(lia)) as B.
  lia.
Qed.

Lemma serial_year x :
  - msPerDay <= x <= 2958465 + msPerDay -> 1969 <= YearFromTime x <= 1970.
Proof.
  intros H. unfold YearFromTime.
  destruct (serial_day x H) as [->|[->| ->]]; vm_compute; split; discriminate.
Qed.

(** X24.  A date cell that holds a number is read as milliseconds since 1970.
    For a serial day number of a spreadsheet, from 0 to 2958465, on a host
    whose offset from UTC is at most a day, the date is valid, its year is
    1969 or 1970, and the upload does not retain the row. *)
Theorem serial_date_dropped (row : Doc) (n : Z) :
  get row "Closed Date" = VNumber (num_of_Z n) ->
  0 <= n <= 2958465 ->
  - msPerDay <= LocalTZA n <= msPerDay ->
  parseDate (get row "Closed Date") = Some n
  /\ 1969 <= YearFromTime (n + LocalTZA n) <= 1970
  /\ rowKept row = false
  /\ forall plain, ~ retainedAs row plain.
Proof.
  intros Hd Hn Htz.
  assert (Hp : parseDate (get row "Closed Date") = Some n).
  { rewrite Hd. cbn [parseDate Date_new ToNumber]. apply TimeClip_of_Z.
    unfold maxTime. lia. }
  assert (Hy : 1969 <= YearFromTime (n + LocalTZA n) <= 1970)
    by (apply serial_year; unfold msPerDay in *; lia).
  assert (Hk : rowKept row = false).
  { unfold rowKept. rewrite Hp. cbv zeta. cbn [Date_getFullYear].
    rewrite num_gtb_of_Z. rewrite (proj2 (Z.ltb_ge _ _)) by lia. apply andb_false_r. }
  split; [exact Hp|]. split; [exact Hy|]. split; [exact Hk|].
  intros plain [Hr Hkeep].
  destruct (toRecord_kept row (Some plain) Hr) as [E _]. congruence.
Qed.

End PriceTexts.

Lemma formatted_price_read_witness :
  0 <= 250000
  /\ remove_chars Admin.is_currency_mark "$250,000" = digits 250000
  /\ Admin.coercePrice (VString "$250,000") = VNumber (num_of_Z 250000).
Proof.
  assert (Hn : 0 <= 250000) by discriminate.
  assert (Hs : remove_chars Admin.is_currency_mark "$250,000" = digits 250000)
    by (vm_compute; reflexivity).
  split; [exact Hn|]. split; [exact Hs|].
  exact (proj1 (proj2 (formatted_price_read "$250,000" 250000 Hn Hs))).
Defined.

Lemma serial_date_dropped_witness :
  let row := rowOf [("Address", VString "1 Main St"); ("Closed Date", VNumber (num_of_Z 44682));
                    ("Price", VNumber (Fin 250000))] in
  get row "Closed Date" = VNumber (num_of_Z 44682)
  /\ 0 <= 44682 <= 2958465
  /\ - msPerDay <= LocalTZA (Host:=utcHost) 44682 <= msPerDay
  /\ rowKept (host:=utcHost) row = false.
Proof.
  intros row.
  assert (Hd : get row "Closed Date" = VNumber (num_of_Z 44682)) by (vm_compute; reflexivity).
  assert (Hn : 0 <= 44682 <= 2958465) by (split; discriminate).
  assert (Htz : - msPerDay <= LocalTZA (Host:=utcHost) 44682 <= msPerDay)
    by (split; discriminate).
  split; [exact Hd|]. split; [exact Hn|]. split; [exact Htz|].
  exact (proj1 (proj2 (proj2 (serial_date_dropped (host:=utcHost) row 44682 Hd Hn Htz)))).
Defined.

(** ** Instances of the further properties *)


Lemma year_checkbox_toggles_witness :
  let rawData := [saleOf (Fin 250000) "Conway" 2022; saleOf (Fin 180000) "Conway" 2021] in
  let fs := initFilterState rawData in
  let box := {| cb_value := Number_toString (num_of_Z 2022); cb_checked := false |} in
  0 <= 2022 < 10 ^ 21
  /\ updateDashboard (handleFilterChange box K_selectedYears fs) rawData =
       filter (fun d => ~ sameValue (VNumber (num_of_Z 2022)) (year d))
              (updateDashboard fs rawData).
Proof.
  intros rawData fs box.
  assert (H : 0 <= 2022 < 10 ^ 21) by (split; [discriminate|reflexivity]).
  split; [exact H|]. exact (proj1 (year_checkbox_toggles 2022 fs rawData H)).
Defined.

Lemma text_checkbox_toggles_witness :
  let rawData := [saleOf (Fin 250000) "Conway" 2022; saleOf (Fin 180000) "Vilonia" 2021] in
  let fs := initFilterState rawData in
  let box := {| cb_value := "Conway"; cb_checked := false |} in
  parseFloat "Conway" = NaN
  /\ updateDashboard (handleFilterChange box K_selectedCities fs) rawData =
       filter (fun d => city d <> VString "Conway") (updateDashboard fs rawData).
Proof.
  intros rawData fs box. split; [reflexivity|].
  exact (proj1 (text_checkbox_toggles "Conway" K_selectedCities fs rawData eq_refl)).
Defined.

Lemma sampleUpload_cleaned :
  cleanRecords (host:=utcHost) sampleUpload = Ok (recordsOf sampleUpload).
Proof. apply recordsOf_returned. vm_compute. reflexivity. Qed.

Lemma sampleUpload_uploaded :
  uploadDataToFirestore (host:=utcHost) sampleUpload ∅ =
    Ok {| store := commit (writesOf (recordsOf sampleUpload)) ∅;
          addedCount := length (recordsOf sampleUpload) |}.
Proof. apply uploadDataToFirestore_ok, sampleUpload_cleaned. Qed.

Lemma upload_idempotent_witness :
  let st := {| store := commit (writesOf (recordsOf sampleUpload)) ∅;
               addedCount := length (recordsOf sampleUpload) |} in
  uploadDataToFirestore (host:=utcHost) sampleUpload ∅ = Ok st
  /\ uploadDataToFirestore (host:=utcHost) sampleUpload (store st) = Ok st.
Proof.
  intros st. split; [exact sampleUpload_uploaded|].
  exact (upload_idempotent (host:=utcHost) sampleUpload ∅ st sampleUpload_uploaded).
Defined.

Lemma upload_last_write_wins_witness :
  let st := {| store := commit (writesOf (recordsOf sampleUpload)) ∅;
               addedCount := length (recordsOf sampleUpload) |} in
  uploadDataToFirestore (host:=utcHost) sampleUpload ∅ = Ok st
  /\ exists recs,
       cleanRecords (host:=utcHost) sampleUpload = Ok recs
       /\ dom (store st) = dom (∅ : Store) ∪ list_to_set (map docId recs).
Proof.
  intros st. split; [exact sampleUpload_uploaded|].
  destruct (upload_last_write_wins (host:=utcHost) sampleUpload ∅ st sampleUpload_uploaded)
    as (recs & Hc & _ & _ & Hd).
  exists recs. split; assumption.
Defined.

Lemma upload_batches_witness :
  cleanRecords (host:=utcHost) sampleUpload = Ok (recordsOf sampleUpload)
  /\ concat (map (chunkAt (recordsOf sampleUpload))
                 (chunkStarts (length (recordsOf sampleUpload)))) = recordsOf sampleUpload.
Proof.
  split; [exact sampleUpload_cleaned|].
  exact (proj1 (upload_batches (host:=utcHost) sampleUpload _ sampleUpload_cleaned)).
Defined.

Lemma safeKeyOf_no_slash_witness :
  let record : Doc := {[ "uniqueKey" := VString "1651363200000-1/2 main st-200000" ]} in
  get record "uniqueKey" = VString "1651363200000-1/2 main st-200000"
  /\ exists id, safeKeyOf record = Ok id
       /\ string_forall (fun c => negb (Ascii.eqb c "/")) id = true.
Proof.
  intros record.
  assert (H : get record "uniqueKey" = VString "1651363200000-1/2 main st-200000")
    by (vm_compute; reflexivity).
  split; [exact H|].
  destruct (safeKeyOf_no_slash record _ H) as (id & H1 & _ & H2 & _).
  exists id. split; assumption.
Defined.

Lemma mainStreetRow_retained :
  retainedAs (host:=utcHost) (mainStreetRow 1500) (recordOf (mainStreetRow 1500)).
Proof.
  apply recordOf_retained, retained_iff. exists 1651363200000, "1 Main St". compute_conj.
Qed.

Lemma stored_record_fields_witness :
  retainedAs (host:=utcHost) (mainStreetRow 1500) (recordOf (mainStreetRow 1500))
  /\ exists t p,
       recordOf (mainStreetRow 1500) !! "date" = Some (VDate (Some t))
       /\ recordOf (mainStreetRow 1500) !! "price" = Some (VNumber (Fin p))
       /\ (0 < p)%Q.
Proof.
  split; [exact mainStreetRow_retained|].
  destruct (stored_record_fields (host:=utcHost) _ _ mainStreetRow_retained)
    as (t & p & _ & Hd & _ & Hp & Hpos & _).
  exists t, p. split; [exact Hd|]. split; assumption.
Defined.

Lemma upload_then_dashboard_witness :
  retainedAs (host:=utcHost) (mainStreetRow 1500) (recordOf (mainStreetRow 1500))
  /\ get (mainStreetRow 1500) "Address" = VString "1 Main St"
  /\ "1 Main St" <> ""
  /\ (typeof (get (mainStreetRow 1500) "Price") = TNumber
      \/ typeof (get (mainStreetRow 1500) "Price") = TString)
  /\ exists sale k,
       normalize (host:=utcHost) [recordOf (mainStreetRow 1500)] = Ok [sale]
       /\ recordOf (mainStreetRow 1500) !! "uniqueKey" = Some (VString k)
       /\ fingerprint (host:=utcHost) sale = Ok k.
Proof.
  assert (Ha : get (mainStreetRow 1500) "Address" = VString "1 Main St")
    by (vm_compute; reflexivity).
  assert (Hne : "1 Main St" <> "") by discriminate.
  assert (Hp : typeof (get (mainStreetRow 1500) "Price") = TNumber
               \/ typeof (get (mainStreetRow 1500) "Price") = TString)
    by (right; vm_compute; reflexivity).
  split; [exact mainStreetRow_retained|]. split; [exact Ha|]. split; [exact Hne|].
  split; [exact Hp|].
  destruct (upload_then_dashboard (host:=utcHost) _ _ _ mainStreetRow_retained Ha Hne Hp)
    as (sale & k & _ & Hn & _ & _ & Hu & Hf).
  exists sale, k. split; [exact Hn|]. split; assumption.
Defined.

Lemma populateFilters_order_witness :
  let rawData := [saleOf (Fin 180000) "Vilonia" 2021; saleOf (Fin 250000) "Conway" 2022;
                  saleOf (Fin 210000) "Conway" 2021] in
  map year rawData = map yearValue [2021; 2022; 2021]
  /\ map city rawData = map VString ["Vilonia"; "Conway"; "Conway"]
  /\ exists years cities,
       fst (fst (populateFilters (host:=utcHost) rawData)) = (map yearValue years, map VString cities)
       /\ StronglySorted (fun a b => b < a) years
       /\ StronglySorted string_lt cities.
Proof.
  intros rawData. split; [reflexivity|]. split; [reflexivity|].
  destruct (populateFilters_order (host:=utcHost) rawData [2021; 2022; 2021]
              ["Vilonia"; "Conway"; "Conway"] eq_refl eq_refl)
    as (years & cities & r1 & r2 & E & Hy & _ & Hc & _).
  exists years, cities. rewrite E. split; [reflexivity|]. split; assumption.
Defined.

Lemma renderTrendChart_months_witness :
  let data := [saleOf (Fin 250000) "Conway" 2022; saleOf (Fin 180000) "Vilonia" 2021] in
  Forall (fun d => exists t, date d = VDate (Some t)) data
  /\ exists months,
       StronglySorted string_lt months
       /\ renderTrendChart (host:=utcHost) data =
            Some (map (fun k => (k, medianValues (host:=utcHost)
                                      (map price (filter (inMonth k) data)))) months).
Proof.
  intros data.
  assert (H : Forall (fun d => exists t, date d = VDate (Some t)) data)
    by (repeat constructor; eexists; reflexivity).
  split; [exact H|].
  destruct (proj1 (proj2 (proj2 (renderTrendChart_months (host:=utcHost) data))) H)
    as (months & Hs & _ & Hr).
  exists months. split; assumption.
Defined.

Lemma Conway_plain : plainName "Conway".
Proof.
  split; [vm_compute; reflexivity|].
  intros H. apply existsb_eqb_elem in H. vm_compute in H. discriminate H.
Qed.

Lemma Vilonia_plain : plainName "Vilonia".
Proof.
  split; [vm_compute; reflexivity|].
  intros H. apply existsb_eqb_elem in H. vm_compute in H. discriminate H.
Qed.

Lemma renderCityChart_cities_witness :
  let data := [saleOf (Fin 250000) "Conway" 2022; saleOf (Fin 180000) "Vilonia" 2021;
               saleOf (Fin 210000) "Conway" 2022] in
  let cs := ["Conway"; "Vilonia"; "Conway"] in
  map city data = map VString cs
  /\ Forall plainName cs
  /\ renderCityChart (host:=utcHost) data =
       Some (map (fun c => (c, medianValues (host:=utcHost)
                                 (map price (filter (fun d => city d = VString c) data))))
                 ["Conway"; "Vilonia"]).
Proof.
  intros data cs.
  assert (Hp : Forall plainName cs).
  { constructor; [exact Conway_plain|]. constructor; [exact Vilonia_plain|].
    constructor; [exact Conway_plain|]. constructor. }
  split; [reflexivity|]. split; [exact Hp|].
  exact (proj2 (renderCityChart_cities (host:=utcHost) data cs) eq_refl Hp).
Defined.

Lemma default_filter_shows_yes_no_witness :
  let rawData := [saleOf (Fin 250000) "Conway" 2022; saleOf (Fin 180000) "Vilonia" 2021] in
  Forall (fun d => newConstruction d = VString "Yes" \/ newConstruction d = VString "No")
         rawData
  /\ updateDashboard (initFilterState rawData) rawData = rawData.
Proof.
  intros rawData.
  assert (H : Forall (fun d => newConstruction d = VString "Yes"
                               \/ newConstruction d = VString "No") rawData)
    by (repeat constructor; right; reflexivity).
  split; [exact H|]. exact (proj2 (default_filter_shows_yes_no rawData) H).
Defined.

Lemma upload_outcome_witness :
  Forall (fun row => rowThrows (host:=utcHost) row = false) sampleUpload
  /\ exists recs,
       cleanRecords (host:=utcHost) sampleUpload = Ok recs
       /\ Forall2 (retainedAs (host:=utcHost))
                  (List.filter (rowKept (host:=utcHost)) sampleUpload) recs.
Proof.
  assert (H : Forall (fun row => rowThrows (host:=utcHost) row = false) sampleUpload)
    by (repeat constructor; vm_compute; reflexivity).
  split; [exact H|].
  destruct (proj2 (upload_outcome (host:=utcHost) sampleUpload ∅) H) as (recs & Hc & Hr & _).
  exists recs. split; assumption.
Defined.

Lemma updateKPIs_numbers_witness :
  let data := [saleOf (Fin 250000) "Conway" 2022; saleOf (Fin 180000) "Vilonia" 2021] in
  Forall measured data
  /\ updateKPIs (host:=utcHost) data =
       Ok {| homesSold := 2;
             totalVolume := VNumber (Fin 430000);
             medianPrice := VNumber (Fin 215000);
             medianPpsf := VNumber (Fin 0) |}.
Proof.
  intros data.
  assert (H : Forall measured data)
    by (repeat constructor; eexists; eexists; split; reflexivity).
  split; [exact H|].
  rewrite (proj1 (updateKPIs_numbers (host:=utcHost) data) H). vm_compute. reflexivity.
Defined.

Lemma dashboard_load_witness :
  let docs := [fetchedRow 1651363200000; fetchedRow 946684799999] in
  exists sales rawData,
    normalize (host:=utcHost) (fetchData (host:=utcHost) docs) = Ok sales
    /\ Forall textAddress sales
    /\ processData (host:=utcHost) (fetchData (host:=utcHost) docs)
         = Ok (rawData, initFilterState rawData).
Proof.
  intros docs.
  destruct (dashboard_load (host:=utcHost) docs) as (_ & sales & Hn & _ & _ & Hok & _).
  assert (Hs : exists d, normalize (host:=utcHost) (fetchData (host:=utcHost) docs) = Ok [d]
                         /\ textAddress d).
  { eexists. split; [vm_compute; reflexivity|]. eexists. reflexivity. }
  destruct Hs as (d & Hd & Ha). rewrite Hn in Hd. injection Hd as ->.
  assert (Ht : Forall textAddress [d]) by (repeat constructor; exact Ha).
  destruct (Hok Ht) as (rawData & Hp & _).
  exists [d], rawData. split; [exact Hn|]. split; [exact Ht|exact Hp].
Defined.
